(** * Srcpkg: a shallow embedding of [srcpkg.py] and its specification

    The development follows the layout of the program: utilities, the data
    model, the host interface (what the program obtains from the operating
    system and from external tools), the operations of [class SrcPkg], and
    then the properties of the specification, one theorem per claim,
    followed by further properties of the code (X1, X2, ...). *)

From Stdlib Require Import String Ascii NArith ZArith List Sorted OrderedTypeEx Lia.
From stdpp Require Import gmap strings list pretty.

Set Warnings "-clear-no-such-hyp".

Local Open Scope string_scope.
Local Open Scope list_scope.

(* ===================================================================== *)
(** * Part I: the embedding *)
(* ===================================================================== *)

(** ** Characters and tokens *)

Module Chars.

Definition code (c : ascii) : N := N_of_ascii c.

(** [0-9] *)
Definition is_digit (c : ascii) : bool :=
  ((48 <=? code c) && (code c <=? 57))%N.

(** [0-9A-Za-z], the complement of the class in [re.split(r"[^0-9A-Za-z]+", v)] *)
Definition is_alnum (c : ascii) : bool :=
  is_digit c
  || ((65 <=? code c) && (code c <=? 90))%N
  || ((97 <=? code c) && (code c <=? 122))%N.

(** [\w] under [re.ASCII]: [A-Za-z0-9_] *)
Definition is_word (c : ascii) : bool :=
  is_alnum c || (code c =? 95)%N.

Definition starts_with_sep (s : string) : bool :=
  match s with
  | String c _ => negb (is_alnum c)
  | EmptyString => false
  end.

Fixpoint last_char (s : string) : option ascii :=
  match s with
  | EmptyString => None
  | String c EmptyString => Some c
  | String _ rest => last_char rest
  end.

Fixpoint all_digits (s : string) : bool :=
  match s with
  | EmptyString => true
  | String c rest => is_digit c && all_digits rest
  end.

(** [str.isdigit] on a token of [0-9A-Za-z]: non-empty and only digits *)
Definition isdigit (s : string) : bool :=
  match s with
  | EmptyString => false
  | _ => all_digits s
  end.

Fixpoint int_acc (acc : N) (s : string) : N :=
  match s with
  | EmptyString => acc
  | String c rest => int_acc (10 * acc + (code c - 48))%N rest
  end.

(** [int(p)] for a token of decimal digits (unbounded integers) *)
Definition int (s : string) : N := int_acc 0 s.

End Chars.

(** ** Version keys: [SrcPkg._verkey] and the comparison of the keys *)

Module Version.
Import Chars.

(** One element of the key: [(0, int(p))] or [(1, p)]. *)
Inductive part : Type :=
| Num (n : N)
| Alpha (s : string).

Definition push (c : ascii) (toks : list string) : list string :=
  match toks with
  | t :: ts => String c t :: ts
  | [] => [String c EmptyString]
  end.

(** [re.split(r"[^0-9A-Za-z]+", v)]: the pieces between the maximal runs of
    separator characters, empty pieces at both ends included. *)
Fixpoint re_split (v : string) : list string :=
  match v with
  | EmptyString => [EmptyString]
  | String c rest =>
      if is_alnum c then push c (re_split rest)
      else if starts_with_sep rest then re_split rest
      else EmptyString :: re_split rest
  end.

Definition part_of (p : string) : part :=
  if isdigit p then Num (int p) else Alpha p.

Definition _verkey (v : string) : list part := map part_of (re_split v).

(** Order of two key elements, as Python orders the pairs [(0, n)] and
    [(1, s)]: first by the tag, then by the integer or by the string. *)
Definition part_compare (a b : part) : comparison :=
  match a, b with
  | Num x, Num y => (x ?= y)%N
  | Num _, Alpha _ => Lt
  | Alpha _, Num _ => Gt
  | Alpha x, Alpha y => String.compare x y
  end.

(** Order of two tuples: position by position, a proper prefix is smaller. *)
Fixpoint key_compare (k1 k2 : list part) : comparison :=
  match k1, k2 with
  | [], [] => Eq
  | [], _ :: _ => Lt
  | _ :: _, [] => Gt
  | a :: k1', b :: k2' =>
      match part_compare a b with
      | Eq => key_compare k1' k2'
      | c => c
      end
  end.

(** [k1 <= k2] and [k1 < k2] on tuples *)
Definition key_le (k1 k2 : list part) : bool :=
  match key_compare k1 k2 with Gt => false | _ => true end.
Definition key_lt (k1 k2 : list part) : bool :=
  match key_compare k1 k2 with Lt => true | _ => false end.

(** The ordering of version strings: [_verkey(a) <= _verkey(b)] *)
Definition ver_le (a b : string) : bool := key_le (_verkey a) (_verkey b).
Definition ver_lt (a b : string) : bool := key_lt (_verkey a) (_verkey b).

(** A version string to which appending [".1"] adds one token: it is empty
    or its last character is alphanumeric. *)
Definition ends_in_token (v : string) : bool :=
  match last_char v with
  | None => true
  | Some c => is_alnum c
  end.

End Version.

(** ** Python helpers: truthiness, stable sorting, string tests *)

Module Py.

(** [if s:] for an optional string: [None] and [""] are both false. *)
Definition truthy (o : option string) : bool :=
  match o with
  | Some (String _ _) => true
  | _ => false
  end.

Section Sorted.
Context {A : Type} (le : A -> A -> bool).

Fixpoint insert_sorted (x : A) (l : list A) : list A :=
  match l with
  | [] => [x]
  | y :: l' => if le x y then x :: y :: l' else y :: insert_sorted x l'
  end.

(** [sorted(l)] is a stable sort; so is insertion from the right, which
    puts an element before the elements it is [le] to. *)
Definition sorted (l : list A) : list A := foldr insert_sorted [] l.
End Sorted.

Fixpoint rev_string (acc s : string) : string :=
  match s with
  | EmptyString => acc
  | String c rest => rev_string (String c acc) rest
  end.

(** [s.endswith(suf)] *)
Definition endswith (s suf : string) : bool :=
  String.prefix (rev_string "" suf) (rev_string "" s).

(** [sub in s] *)
Fixpoint contains (sub s : string) : bool :=
  String.prefix sub s
  || match s with
     | EmptyString => false
     | String _ rest => contains sub rest
     end.

(** [s.split("/")[-1]] *)
Fixpoint last_segment (s : string) : string :=
  match s with
  | EmptyString => EmptyString
  | String c rest =>
      if contains "/" rest then last_segment rest
      else if Ascii.eqb c "/" then rest
      else s
  end.

(** ["\n".join(lines)] *)
Definition join_lines (lines : list string) : string :=
  String.concat (String (ascii_of_nat 10) EmptyString) lines.

End Py.

(** ** The data model: the dataclasses of the program *)

Module Model.

(** A path is the list of its components below the root [/]; the paths of
    the program are absolute. *)
Abbreviation path := (list string).

Definition path_str (p : path) : string :=
  match p with
  | [] => "/"
  | _ => String.concat "" (map (fun c => "/" +:+ c) p)
  end.

(** [p / name]: joining the empty string leaves the path as it is. *)
Definition join (p : path) (name : string) : path :=
  match name with
  | EmptyString => p
  | _ => p ++ [name]
  end.

(** [p.parent]; the parent of the root is the root. *)
Definition parent (p : path) : path := removelast p.

(** [p.name] *)
Definition name_of (p : path) : string := List.last p "".

Record SourceSpec := {
  url : option string;
  sha256 : option string;
  type : string;
}.

(** The [file] of a patch: an absolute path, or a path relative to the
    directory of the patches *)
Inductive patch_path : Type :=
| PatchAbsolute (p : path)
| PatchRelative (rel : path).

Record PatchSpec := {
  patch_url : option string;
  patch_file : option patch_path;
  patch_sha256 : option string;
  strip : Z;
}.

Record BuildSpec := {
  env : gmap string string;
  prepare : list string;
  compile : list string;
  install : list string;
}.

Record PackageMeta := {
  name : string;
  version : string;
  category : string;
  homepage : option string;
  source : SourceSpec;
  git : gmap string string;
  patches : list PatchSpec;
  dependencies : list string;
  build : BuildSpec;
  package : gmap string bool;
  hooks : gmap string (list string);
}.

(** A database record. [recipe] is the saved recipe ([None] for [{}]);
    [files] holds the installed paths, whose strings are [path_str]. *)
Record InstalledPkg := {
  pkg_name : string;
  pkg_version : string;
  files : list path;
  depends : list string;
  recipe : option PackageMeta;
}.

(** The recipe [m] with another [source] *)
Definition with_source (m : PackageMeta) (s : SourceSpec) : PackageMeta :=
  {| name := name m; version := version m; category := category m;
     homepage := homepage m; source := s; git := git m; patches := patches m;
     dependencies := dependencies m; build := build m; package := package m;
     hooks := hooks m |}.

(** [SourceSpec(url=meta.git.get('repo'), type='git')] *)
Definition git_source (meta : PackageMeta) : SourceSpec :=
  {| url := git meta !! "repo"; sha256 := None; type := "git" |}.

End Model.

(** ** The file system *)

Module FS.
Import Model.

Inductive node : Type :=
| File (mode : N) (data : list Byte.byte)
| Dir
| Symlink (target : path).

Abbreviation fs := (gmap (list string) node).

(** The node at a path; the root is always a directory. *)
Definition lookup_node (f : fs) (p : path) : option node :=
  match p with
  | [] => Some Dir
  | _ => f !! p
  end.

(** The node a path leads to, following symbolic links at the last
    component (at most [depth] of them). *)
Fixpoint stat_depth (depth : nat) (f : fs) (p : path) : option node :=
  match lookup_node f p with
  | Some (Symlink t) =>
      match depth with
      | O => None
      | S d => stat_depth d f t
      end
  | r => r
  end.

Definition stat : fs -> path -> option node := stat_depth 40.

Definition exists_ (f : fs) (p : path) : bool := bool_decide (is_Some (stat f p)).
Definition is_dir (f : fs) (p : path) : bool :=
  match stat f p with Some Dir => true | _ => false end.
Definition is_file (f : fs) (p : path) : bool :=
  match stat f p with Some (File _ _) => true | _ => false end.
Definition is_symlink (f : fs) (p : path) : bool :=
  match lookup_node f p with Some (Symlink _) => true | _ => false end.

Definition read_bytes (f : fs) (p : path) : option (list Byte.byte) :=
  match stat f p with Some (File _ d) => Some d | _ => None end.

Definition is_child (d p : path) : bool :=
  bool_decide (p <> [] /\ parent p = d).

Definition le_name (p q : path) : bool := String.leb (name_of p) (name_of q).

(** The entries of a directory, in name order. *)
Definition children (f : fs) (d : path) : list path :=
  Py.sorted le_name (filter (fun p => is_child d p = true) (map fst (map_to_list f))).

(** [d.iterdir()]: fails unless [d] is a directory. *)
Definition iterdir (f : fs) (d : path) : option (list path) :=
  match lookup_node f d with
  | Some Dir => Some (children f d)
  | _ => None
  end.

Definition under (d p : path) : bool := bool_decide (d `prefix_of` p).

(** The paths strictly below [d], in the enumeration order of the map. *)
Definition descendants (f : fs) (d : path) : list path :=
  filter (fun p => under d p && negb (bool_decide (p = d)))
         (map fst (map_to_list f)).

(** [shutil.rmtree(d)] *)
Definition rmtree (f : fs) (d : path) : fs :=
  filter (fun kv => under d kv.1 = false) f.

(** [d.mkdir(parents=True, exist_ok=True)]: every missing prefix becomes
    a directory; fails when a prefix exists and is not a directory. *)
Fixpoint mkdir_from (f : fs) (done todo : path) : option fs :=
  match todo with
  | [] => Some f
  | c :: rest =>
      let d := done ++ [c] in
      match stat f d with
      | Some Dir => mkdir_from f d rest
      | Some _ => None
      | None => mkdir_from (<[d := Dir]> f) d rest
      end
  end.

Definition mkdir_p (f : fs) (d : path) : option fs := mkdir_from f [] d.

(** Owner-execute bit [stat.S_IXUSR] (octal 100) *)
Definition owner_exec (mode : N) : bool := N.testbit mode 6.

(** [os.access(p, os.X_OK)] *)
Definition access_x (f : fs) (p : path) : bool :=
  match stat f p with
  | Some (File mode _) => negb (N.land mode 73 =? 0)%N
  | Some Dir => true
  | _ => false
  end.

End FS.

(** ** The host: what the program obtains from the operating system,
       from [hashlib], [tarfile] and [zipfile], and from external tools

    An external process is a function of the command and the file system:
    it returns an exit code and a file system. The database directory is
    kept apart from the file system, so that only the program writes it.
    The log file of a build and the terminal are not part of the model;
    warnings and errors are events of the trace. A command always starts:
    a missing executable is an exit code, and [shutil.which] is asked where
    the program asks it. *)

Module Host.
Import Model FS.

(** [hashlib.sha256()]: an incremental hash. Feeding the data in pieces
    gives the digest of the whole. *)
Class Sha256 := {
  sha_state : Type;
  sha_new : sha_state;
  sha_update : sha_state -> list Byte.byte -> sha_state;
  hexdigest : sha_state -> string;
  sha_update_nil : forall s, sha_update s [] = s;
  sha_update_app : forall s a b,
    sha_update (sha_update s a) b = sha_update s (a ++ b);
}.

(** The hex digest of a byte string *)
Definition sha256_hex `{Sha256} (data : list Byte.byte) : string :=
  hexdigest (sha_update sha_new data).

(** A command line given to [run]: an argument vector, or a string for
    the shell ([shell=True]). *)
Inductive cmdline : Type :=
| Argv (args : list string)
| Shell (line : string).

Record command := {
  cmd : cmdline;
  cwd : option path;
  cmd_env : option (gmap string string);
}.

Inductive archive_format : Type := Tar | Zip.

Class Host := {
  host_sha :: Sha256;
(** [os.geteuid()] *)
geteuid : Z;
(** [os.environ] *)
environ : gmap string string;
(** [shutil.which(tool) is not None] *)
which : string -> bool;
(** An external process: its effect on the file system and its exit code *)
exec : command -> fs -> fs * Z;
(** [tarfile]/[zipfile] [extractall(dest)]; [None] when it raises *)
py_extract : archive_format -> path -> path -> fs -> option fs;
(** The bytes of the [w:xz] archive of a directory *)
tar_xz : fs -> path -> list Byte.byte;
(** Paths the system refuses to unlink or to remove *)
unlink_denied : path -> bool;
(** The directories of the program *)
SRCPKG_BUILD : path;
SRCPKG_PKGS : path;
SRCPKG_SRC : path;
HOOKS_DIR : path;
(** The recipe found for a name: [repo.get(dep) or Path(f"{dep}.json")],
    loaded by [PackageMeta.from_json]; [None] when no such file exists *)
find_recipe : string -> option PackageMeta;
}.

End Host.

(** ** Effects: the state of the run, exceptions, and the trace *)

Module Eff.
Import Model FS Host.

(** The exceptions of the program, by the place that raises them. *)
Inductive error : Type :=
| MissingUrl                                (* ValueError: source.url *)
| NoDownloader                              (* RuntimeError: wget or curl *)
| ChecksumMismatch (got : string)           (* RuntimeError: sha256 incorreto *)
| PatchUnspecified                          (* ValueError: no file, no url *)
| PatchChecksumMismatch                     (* RuntimeError: sha256 of a patch *)
| UnsupportedArchive (name : string)        (* RuntimeError: format *)
| Missing7z                                 (* RuntimeError: 7z *)
| CalledProcessError (ret : Z) (c : cmdline)
| NotPrivileged                             (* log_err; sys.exit(1) *)
| UnresolvedDependency (dep : string)       (* RuntimeError: recipe of dep *)
| OSError (p : path)                        (* an exception of the library *)
| RecursionError.                           (* the recursion ran out of depth *)

(** What the run does, in order. *)
Inductive event : Type :=
| EvRun (c : command)                       (* run(...) *)
| EvSha256 (p : path)                       (* compute_sha256(p) *)
| EvExtract (archive dest : path)           (* an archive is unpacked *)
| EvCopy (target : path)                    (* shutil.copy2 onto the target *)
| EvUnlink (p : path)
| EvRmdir (p : path)
| EvDbSave (name : string)                  (* InstalledPkg.save *)
| EvDbUnlink (name : string)                (* the record file is unlinked *)
| EvWarn (subject : string)                 (* log_warn *)
| EvErr.                                    (* log_err *)

Record World := {
  w_fs : fs;
  w_db : gmap string InstalledPkg;
  w_trace : list event;
}.

Inductive result (A : Type) : Type :=
| Ok (a : A)
| Raise (e : error).
Arguments Ok {A} a.
Arguments Raise {A} e.

(** A computation changes the world and returns or raises; what it did
    before raising stays done. *)
Definition M (A : Type) : Type := World -> World * result A.

Definition ret {A} (a : A) : M A := fun w => (w, Ok a).
Definition raise {A} (e : error) : M A := fun w => (w, Raise e).
Definition bind {A B} (m : M A) (k : A -> M B) : M B :=
  fun w => match m w with
           | (w', Ok a) => k a w'
           | (w', Raise e) => (w', Raise e)
           end.

Notation "'let*' x ':=' m 'in' k" := (bind m (fun x => k))
  (at level 10, x name, m at level 100, k at level 200).
Notation "m ';;' k" := (bind m (fun _ => k))
  (at level 100, k at level 200, right associativity).

(** [try: m except Exception as e: handler] *)
Definition try_except {A} (m : M A) (handler : error -> M A) : M A :=
  fun w => match m w with
           | (w', Raise e) => handler e w'
           | r => r
           end.

(** [with contextlib.suppress(Exception): m] *)
Definition suppress (m : M unit) : M unit := try_except m (fun _ => ret tt).

Definition emit (e : event) : M unit :=
  fun w => ({| w_fs := w_fs w; w_db := w_db w; w_trace := w_trace w ++ [e] |}, Ok tt).
Definition get_fs : M fs := fun w => (w, Ok (w_fs w)).
Definition put_fs (f : fs) : M unit :=
  fun w => ({| w_fs := f; w_db := w_db w; w_trace := w_trace w |}, Ok tt).
Definition get_db : M (gmap string InstalledPkg) := fun w => (w, Ok (w_db w)).
Definition put_db (d : gmap string InstalledPkg) : M unit :=
  fun w => ({| w_fs := w_fs w; w_db := d; w_trace := w_trace w |}, Ok tt).

Definition when (b : bool) (m : M unit) : M unit := if b then m else ret tt.

(** [for x in l: body x] *)
Fixpoint for_ {A} (l : list A) (body : A -> M unit) : M unit :=
  match l with
  | [] => ret tt
  | x :: l' => body x ;; for_ l' body
  end.

Definition of_option {A} (p : path) (o : option A) : M A :=
  match o with
  | Some a => ret a
  | None => raise (OSError p)
  end.

(** [d.mkdir(parents=True, exist_ok=True)] *)
Definition mkdir (d : path) : M unit :=
  let* f := get_fs in let* f' := of_option d (mkdir_p f d) in put_fs f'.

End Eff.

(** ** Environment expansion: [os.path.expandvars] and [_expand_env] *)

Module Env.
Import Chars.

Fixpoint take_word (s : string) : string :=
  match s with
  | String c rest => if is_word c then String c (take_word rest) else EmptyString
  | EmptyString => EmptyString
  end.

(** The text up to the first ["}"], when there is one *)
Fixpoint until_close (s : string) : option string :=
  match s with
  | EmptyString => None
  | String c rest =>
      if Ascii.eqb c "}" then Some EmptyString
      else option_map (String c) (until_close rest)
  end.

(** A match of [\$(\w+|\{[^}]*\})] right after the ["$"]: the variable
    name and the number of characters the reference takes after the ["$"]. *)
Definition parse_ref (after : string) : option (string * nat) :=
  match after with
  | String "{" inner =>
      option_map (fun n => (n, 2 + String.length n)) (until_close inner)
  | _ =>
      match take_word after with
      | EmptyString => None
      | w => Some (w, String.length w)
      end
  end.

(** What the scan does with the next characters: look for a reference,
    drop the text of a reference that was replaced, or keep the text of a
    reference to an unset variable. *)
Inductive mode : Type :=
| Scan
| Drop (n : nat)
| Keep (n : nat).

Fixpoint expand (vars : gmap string string) (m : mode) (s : string) : string :=
  match s with
  | EmptyString => EmptyString
  | String c rest =>
      match m with
      | Drop (S n) => expand vars (Drop n) rest
      | Keep (S n) => String c (expand vars (Keep n) rest)
      | _ =>
          if Ascii.eqb c "$" then
            match parse_ref rest with
            | Some (name, n) =>
                match vars !! name with
                | Some value => value +:+ expand vars (Drop n) rest
                | None => String c (expand vars (Keep n) rest)
                end
            | None => String c (expand vars Scan rest)
            end
          else String c (expand vars Scan rest)
      end
  end.

(** [os.path.expandvars(s)] with the variables of [vars]: every [$NAME]
    and [${NAME}] of a set variable is replaced by its value, which is not
    scanned again; references to unset variables stay as they are. *)
Definition expandvars (vars : gmap string string) (s : string) : string :=
  expand vars Scan s.

(** [SrcPkg._expand_env(env, extra)], run in the process environment
    [environ]: [base] is a copy of [os.environ] updated with [env] and
    then with [extra]; every value is passed to [os.path.expandvars],
    which reads [os.environ]. *)
Definition _expand_env (environ env extra : gmap string string)
  : gmap string string :=
  let base := extra ∪ (env ∪ environ) in
  expandvars environ <$> base.

(** The environment as the specification words it: the same overlay, the
    values expanded against the accumulated environment. *)
Definition spec_expand_env (environ env extra : gmap string string)
  : gmap string string :=
  let base := extra ∪ (env ∪ environ) in
  expandvars base <$> base.

End Env.

(** ** The operations of [class SrcPkg] *)

Module SrcPkg.
Import Model FS Host Eff.

(** [1024*1024], the size of the blocks read by [compute_sha256] *)
Definition CHUNK : nat := N.to_nat 1048576.

(** The blocks returned by [f.read(n)] until it returns [b''] *)
Fixpoint read_chunks (fuel n : nat) (data : list Byte.byte) : list (list Byte.byte) :=
  match fuel with
  | O => []
  | S k =>
      match firstn n data with
      | [] => []
      | c => c :: read_chunks k n (skipn n data)
      end
  end.

Section WithHost.
Context `{Host}.

(** [compute_sha256(path)] *)
Definition digest_chunked (n : nat) (data : list Byte.byte) : string :=
  hexdigest (fold_left sha_update (read_chunks (S (length data)) n data) sha_new).

Definition compute_sha256 (p : path) : M string :=
  emit (EvSha256 p);;
  let* f := get_fs in
  let* data := of_option p (read_bytes f p) in
  ret (digest_chunked CHUNK data).

(** [run(cmd, cwd, env, check)] *)
Definition run (c : cmdline) (dir : option path)
    (e : option (gmap string string)) (check : bool) : M unit :=
  let k := {| cmd := c; cwd := dir; cmd_env := e |} in
  emit (EvRun k);;
  let* f := get_fs in
  let (f', code) := exec k f in
  put_fs f';;
  if check && negb (code =? 0)%Z then raise (CalledProcessError code c)
  else ret tt.

(** *** Download and extraction *)

(** The download of an archive into the sources cache, skipped when the
    file is there *)
Definition fetch_to_cache (u : string) (out : path) : M unit :=
  let* f := get_fs in
  if exists_ f out then ret tt
  else if which "wget"
       then run (Argv ["wget"; "-O"; path_str out; u]) None None true
  else if which "curl"
       then run (Argv ["curl"; "-L"; "-o"; path_str out; u]) None None true
  else raise NoDownloader.

(** [if src.sha256: got=compute_sha256(out); if got!=src.sha256: raise] *)
Definition verify_sha256 (declared : option string) (out : path) : M unit :=
  if Py.truthy declared then
    let* got := compute_sha256 out in
    if bool_decide (Some got = declared) then ret tt
    else raise (ChecksumMismatch got)
  else ret tt.

Definition download (src : SourceSpec) (workdir : path) : M path :=
  mkdir workdir;;
  if String.eqb (type src) "git" then
    match url src with
    | Some (String _ _ as repo) =>
        let dest := join workdir "src" in
        let* f := get_fs in
        (if exists_ f dest
         then run (Argv ["git"; "fetch"; "--all"]) (Some dest) None true
         else run (Argv ["git"; "clone"; repo; path_str dest]) None None true);;
        ret dest
    | _ => raise MissingUrl
    end
  else
    match url src with
    | Some (String _ _ as u) =>
        let out := join SRCPKG_SRC (Py.last_segment u) in
        fetch_to_cache u out;;
        verify_sha256 (sha256 src) out;;
        ret out
    | _ => raise MissingUrl
    end.

Definition tar_suffixes : list string :=
  [".tar.gz"; ".tgz"; ".tar.bz2"; ".tbz2"; ".tar.xz"; ".txz"; ".tar.zst"].

Definition endswith_any (s : string) (sufs : list string) : bool :=
  existsb (Py.endswith s) sufs.

Definition unpack (fmt : archive_format) (archive dest : path) : M unit :=
  emit (EvExtract archive dest);;
  let* f := get_fs in
  let* f' := of_option archive (py_extract fmt archive dest f) in
  put_fs f'.

Definition extract (archive_or_dir workdir : path) : M path :=
  let* f := get_fs in
  if is_dir f archive_or_dir then ret archive_or_dir
  else
    let dest := join workdir "src" in
    when (exists_ f dest) (put_fs (rmtree f dest));;
    mkdir dest;;
    let name := name_of archive_or_dir in
    (if endswith_any name tar_suffixes then
       if Py.endswith name ".tar.zst" then
         emit (EvExtract archive_or_dir dest);;
         run (Argv ["tar"; "--use-compress-program=unzstd"; "-xf";
                    path_str archive_or_dir; "-C"; path_str dest]) None None true
       else unpack Tar archive_or_dir dest
     else if Py.endswith name ".zip" then unpack Zip archive_or_dir dest
     else if endswith_any name [".7z"; ".7zip"] then
       if which "7z" then
         emit (EvExtract archive_or_dir dest);;
         run (Argv ["7z"; "x"; path_str archive_or_dir; "-o" +:+ path_str dest])
             None None true
       else raise Missing7z
     else raise (UnsupportedArchive name));;
    let* f' := get_fs in
    let* entries := of_option dest (iterdir f' dest) in
    match entries with
    | [e] => if is_dir f' e then ret e else ret dest
    | _ => ret dest
    end.

(** *** Patches *)

Definition fetch_patch (p : PatchSpec) (patch_dir : path) : M path :=
  mkdir patch_dir;;
  let* file :=
    match patch_file p with
    | Some (PatchAbsolute file) => ret file
    | Some (PatchRelative rel) => ret (patch_dir ++ rel)
    | None =>
        match patch_url p with
        | Some (String _ _ as u) =>
            let file := join patch_dir (Py.last_segment u) in
            let* f := get_fs in
            (if exists_ f file then ret tt
             else if which "wget"
                  then run (Argv ["wget"; "-O"; path_str file; u]) None None true
             else if which "curl"
                  then run (Argv ["curl"; "-L"; "-o"; path_str file; u]) None None true
             else raise NoDownloader);;
            ret file
        | _ => raise PatchUnspecified
        end
    end in
  (if Py.truthy (patch_sha256 p) then
     let* got := compute_sha256 file in
     if bool_decide (Some got = patch_sha256 p) then ret tt
     else raise PatchChecksumMismatch
   else ret tt);;
  ret file.

(** The decimal text of a strip level is left to the command line. *)
Definition patch_command (p : PatchSpec) (file : path) : cmdline :=
  Shell ("patch -p" +:+ pretty (strip p) +:+ " -t -N -r - -i " +:+ path_str file).

Definition apply_patches (meta : PackageMeta) (srcdir patch_dir : path) : M unit :=
  for_ (patches meta) (fun p =>
    let* file := fetch_patch p patch_dir in
    run (patch_command p file) (Some srcdir) None true).

(** *** Build, package, install *)

Definition run_script (lines : list string) (dir : path)
    (e : gmap string string) : M unit :=
  match lines with
  | [] => ret tt
  | _ =>
      let shell := default "/bin/sh" (environ !! "SHELL") in
      run (Argv [shell; "-exc"; Py.join_lines lines]) (Some dir) (Some e) true
  end.

(** [p.suffix == '.so' or '.so.' in p.name] *)
Definition shared_object_name (n : string) : bool :=
  (Py.endswith n ".so" && Nat.ltb 3 (String.length n))
  || Py.contains ".so." n.

Definition _strip_files (root : path) : M unit :=
  if which "strip" then
    let* f := get_fs in
    for_ (descendants f root) (fun p =>
      let* g := get_fs in
      match stat g p with
      | Some (File mode _) =>
          when (owner_exec mode || shared_object_name (name_of p))
               (run (Argv ["strip"; "--strip-unneeded"; path_str p]) None None false)
      | _ => ret tt
      end)
  else ret tt.

Definition write_file (p : path) (mode : N) (data : list Byte.byte) : M unit :=
  let* f := get_fs in
  match stat f p with
  | Some Dir => raise (OSError p)
  | _ => put_fs (<[p := File mode data]> f)
  end.

Definition package_ (meta : PackageMeta) (destdir outdir : path) : M path :=
  mkdir outdir;;
  when (default false (package meta !! "strip")) (_strip_files destdir);;
  let pkgname := name meta +:+ "-" +:+ version meta +:+ "-1.tar.xz" in
  let out := join outdir pkgname in
  let* f := get_fs in
  write_file out 420 (tar_xz f destdir);;
  ret out.

(** [shutil.copy2(s, t)] *)
Definition copy2 (s t : path) : M unit :=
  let* f := get_fs in
  match stat f s with
  | Some (File mode data) => write_file t mode data;; emit (EvCopy t)
  | _ => raise (OSError s)
  end.

(** [_copy_tree(src, dst)]: the directories below [src] are created
    below [dst], the other entries are copied and listed. *)
Fixpoint copy_entries (src dst : path) (entries : list path) : M (list path) :=
  match entries with
  | [] => ret []
  | p :: rest =>
      let t := dst ++ drop (length src) p in
      let* f := get_fs in
      if is_dir f p then
        mkdir t;; copy_entries src dst rest
      else
        mkdir (parent t);;
        copy2 p t;;
        let* copied := copy_entries src dst rest in
        ret (t :: copied)
  end.

Definition _copy_tree (src dst : path) : M (list path) :=
  let* f := get_fs in
  copy_entries src dst (descendants f src).

Definition _run_hooks (lines : list string) : M unit :=
  for_ lines (fun line => run (Shell line) None (Some environ) false).

Definition _run_global_hooks (which_dir pkgname : string) : M unit :=
  let hookdir := join HOOKS_DIR (which_dir +:+ ".d") in
  let* f := get_fs in
  if exists_ f hookdir then
    for_ (children f hookdir) (fun hook =>
      let* g := get_fs in
      when (access_x g hook)
           (run (Argv [path_str hook; pkgname]) None None false))
  else ret tt.

Definition save (pkg : InstalledPkg) : M unit :=
  let* d := get_db in
  put_db (<[pkg_name pkg := pkg]> d);;
  emit (EvDbSave (pkg_name pkg)).

Definition install_package_dir (meta : PackageMeta) (destdir : path)
  : M InstalledPkg :=
  if negb (geteuid =? 0)%Z then emit EvErr;; raise NotPrivileged
  else
    let* copied := _copy_tree destdir [] in
    let pkg := {| pkg_name := name meta; pkg_version := version meta;
                  files := copied; depends := dependencies meta;
                  recipe := Some meta |} in
    save pkg;;
    _run_hooks (default [] (hooks meta !! "post_install"));;
    _run_global_hooks "post-install" (name meta);;
    ret pkg.

(** The environment of the build phases:
    [self._expand_env(meta.build.env, {"DESTDIR": str(destdir)})] *)
Definition build_env (meta : PackageMeta) (destdir : path) : gmap string string :=
  Env._expand_env environ (env (build meta)) {[ "DESTDIR" := path_str destdir ]}.

(** The three phases, run with one environment *)
Definition run_phases (meta : PackageMeta) (srcdir : path)
    (e : gmap string string) (only_build : bool) : M unit :=
  run_script (prepare (build meta)) srcdir e;;
  run_script (compile (build meta)) srcdir e;;
  when (negb only_build) (run_script (install (build meta)) srcdir e).

(** [meta.source if meta.source.type!='git' else SourceSpec(...)] *)
Definition source_to_fetch (meta : PackageMeta) : SourceSpec :=
  if String.eqb (type (source meta)) "git" then git_source meta else source meta.

Definition build_ (meta : PackageMeta) (work : path) (only_build : bool)
  : M (path * path) :=
  let* src_path := download (source_to_fetch meta) work in
  let* srcdir := extract src_path work in
  apply_patches meta srcdir (join work "patches");;
  let destdir := join work "destdir" in
  mkdir destdir;;
  let e := build_env meta destdir in
  run_phases meta srcdir e only_build;;
  ret (srcdir, destdir).

Definition install_from_meta (meta : PackageMeta) : M unit :=
  let work := join SRCPKG_BUILD (name meta +:+ "-" +:+ version meta) in
  let* f := get_fs in
  when (exists_ f work) (put_fs (rmtree f work));;
  mkdir work;;
  let* dirs := build_ meta work false in
  package_ meta dirs.2 SRCPKG_PKGS;;
  install_package_dir meta dirs.2;;
  ret tt.

(** *** The database *)

Definition by_name (a b : InstalledPkg) : bool :=
  String.leb (pkg_name a) (pkg_name b).

(** [list_installed()]: the records of the database, sorted by name *)
Definition list_installed (db : gmap string InstalledPkg) : list InstalledPkg :=
  Py.sorted by_name (map snd (map_to_list db)).

(** [InstalledPkg.load(name)] is the lookup [db !! name]. *)

(** *** Removal *)

Definition unlink (p : path) : M unit :=
  if unlink_denied p then raise (OSError p)
  else let* f := get_fs in put_fs (delete p f);; emit (EvUnlink p).

Definition rmdir (d : path) : M unit :=
  if unlink_denied d then raise (OSError d)
  else let* f := get_fs in put_fs (delete d f);; emit (EvRmdir d).

(** The loop [while d != Path('/')] over the directory whose components,
    last first, are [rd]: an empty directory is removed and the loop goes
    on with its parent. *)
Fixpoint walk_up (rd : list string) : M unit :=
  match rd with
  | [] => ret tt
  | _ :: rd' =>
      let d := rev rd in
      let* f := get_fs in
      let* entries := of_option d (iterdir f d) in
      match entries with
      | [] => rmdir d;; walk_up rd'
      | _ => ret tt
      end
  end.

(** The body of the loop of [remove] for one path *)
Definition remove_path (p : path) : M unit :=
  try_except
    (let* f := get_fs in
     when (is_file f p || is_symlink f p) (unlink p);;
     suppress (walk_up (rev (parent p))))
    (fun _ => emit (EvWarn (path_str p))).

(** [key=lambda x: len(x), reverse=True] *)
Definition longer_first (x y : path) : bool :=
  Nat.leb (String.length (path_str y)) (String.length (path_str x)).

Definition post_remove_hooks (pkg : InstalledPkg) : list string :=
  match recipe pkg with
  | Some m => default [] (hooks m !! "post_remove")
  | None => []
  end.

Definition db_unlink (n : string) : M unit :=
  let* d := get_db in put_db (delete n d);; emit (EvDbUnlink n).

Definition remove (n : string) : M unit :=
  let* d := get_db in
  match d !! n with
  | None => emit (EvWarn n)
  | Some pkg =>
      for_ (Py.sorted longer_first (files pkg)) remove_path;;
      _run_hooks (post_remove_hooks pkg);;
      _run_global_hooks "post-remove" n;;
      suppress (db_unlink n)
  end.

(** *** Orphans *)

Definition orphans (db : gmap string InstalledPkg) : list string :=
  let installed := list_installed db in
  let names : gset string := list_to_set (map pkg_name installed) in
  let required : gset string :=
    foldl (fun req p => foldl (fun r d => {[ d ]} ∪ r) req (depends p))
          ∅ installed in
  Py.sorted String.leb (elements (names ∖ required)).

(** *** Upgrade *)

Definition upgrade (meta : PackageMeta) : M unit :=
  let* d := get_db in
  match d !! name meta with
  | None => emit (EvWarn (name meta))
  | Some inst =>
      if Version.ver_le (version meta) (pkg_version inst) then ret tt
      else install_from_meta meta
  end.

(** *** Dependencies *)

Fixpoint fold_m {A S} (l : list A) (s : S) (body : S -> A -> M S) : M S :=
  match l with
  | [] => ret s
  | x :: l' => let* s' := body s x in fold_m l' s' body
  end.

(** The body of the loop over the dependencies: an installed dependency is
    skipped; for another one the recipe is looked up, its own dependencies
    are resolved by [resolve], and it is installed. *)
Definition dep_step (resolve : PackageMeta -> gset string -> M (gset string))
    (visited : gset string) (dep : string) : M (gset string) :=
  let* d := get_db in
  match d !! dep with
  | Some _ => ret visited
  | None =>
      match find_recipe dep with
      | None => raise (UnresolvedDependency dep)
      | Some dmeta =>
          let* visited' := resolve dmeta visited in
          install_from_meta dmeta;;
          ret visited'
      end
  end.

(** [_resolve_deps_install_first(meta, visited)]. The set [visited] is
    one object shared by all the calls: it is passed on and returned.
    [depth] bounds the depth of the recursion. *)
Fixpoint _resolve_deps_install_first (depth : nat) (meta : PackageMeta)
    (visited : gset string) : M (gset string) :=
  match depth with
  | O => raise RecursionError
  | S k =>
      if decide (name meta ∈ visited) then ret visited
      else
        fold_m (dependencies meta) ({[ name meta ]} ∪ visited)
          (dep_step (_resolve_deps_install_first k))
  end.

(** [cmd_install], from the loaded recipe on *)
Definition cmd_install (depth : nat) (meta : PackageMeta) : M unit :=
  _resolve_deps_install_first depth meta ∅;;
  install_from_meta meta.

(** *** Build only, package only *)

Definition build_only (meta : PackageMeta) (work : path) : M unit :=
  build_ meta work true;;
  ret tt.

Definition package_only (meta : PackageMeta) (work : path) : M unit :=
  let* dirs := build_ meta work false in
  package_ meta dirs.2 SRCPKG_PKGS;;
  ret tt.

(** *** The repository *)

(** [repo_subdirs()], for the repository directory [repo] *)
Definition repo_subdirs (repo : path) : list path :=
  map (join repo) ["base"; "x11"; "extras"; "desktop"].

(** [sync_repo()], for the repository directory [repo]; the warning names
    the repository. *)
Definition sync_repo (repo : path) : M unit :=
  for_ (repo_subdirs repo) mkdir;;
  let* f := get_fs in
  if which "git" && exists_ f (join repo ".git") then
    run (Argv ["git"; "-C"; path_str repo; "pull"; "--rebase"]) None None false;;
    run (Argv ["git"; "-C"; path_str repo; "push"]) None None false
  else emit (EvWarn (path_str repo)).

(** *** The providers of shared libraries *)

(** [name.startswith("lib") and ".so" in name] *)
Definition is_lib_name (n : string) : bool :=
  String.prefix "lib" n && Py.contains ".so" n.

(** [_lib_providers()]: [providers.setdefault(name, set()).add(pkg.name)]
    for the base name of every file of every record *)
Definition _lib_providers (db : gmap string InstalledPkg) : gmap string (gset string) :=
  foldl (fun providers pkg =>
           foldl (fun providers f =>
                    let n := name_of f in
                    if is_lib_name n
                    then <[n := {[ pkg_name pkg ]} ∪ default ∅ (providers !! n)]> providers
                    else providers)
                 providers (files pkg))
        ∅ (list_installed db).

End WithHost.

End SrcPkg.

(** ** A small host, for examples: every tool is there and succeeds without
       touching the file system, unpacking creates one directory, the user
       is root. The digest of the example hash is the data itself. *)

Module Demo.
Import Model FS Host Eff.

#[export] Program Instance plain_sha : Sha256 := {|
  sha_state := list Byte.byte;
  sha_new := [];
  sha_update := fun s d => s ++ d;
  hexdigest := string_of_list_byte;
|}.
Next Obligation. intros s. apply app_nil_r. Qed.
Next Obligation. intros s a b. symmetry. apply app_assoc. Qed.

Definition meta_of (n v : string) (deps : list string) : PackageMeta :=
  {| name := n; version := v; category := "extras"; homepage := None;
     source := {| url := Some ("file:///fixtures/" +:+ n +:+ ".zip");
                  sha256 := None; type := "archive" |};
     git := ∅; patches := []; dependencies := deps;
     build := {| env := ∅; prepare := []; compile := ["true"]; install := [] |};
     package := ∅;
     hooks := {[ "post_install" := ["ldconfig"] ]} |}.

(** The recipes of scenario S3: [a] depends on [b] depends on [c] *)
Definition chain (dep : string) : option PackageMeta :=
  if String.eqb dep "a" then Some (meta_of "a" "1.0" ["b"])
  else if String.eqb dep "b" then Some (meta_of "b" "1.0" ["c"])
  else if String.eqb dep "c" then Some (meta_of "c" "1.0" [])
  else None.

Definition host_of (uid : Z) (recipes : string -> option PackageMeta) : Host := {|
  host_sha := plain_sha;
  geteuid := uid;
  environ := {[ "HOME" := "/root" ]};
  which := fun _ => true;
  exec := fun _ f => (f, 0%Z);
  py_extract := fun _ _ dest f => Some (<[dest ++ ["pkg-1.0"] := Dir]> f);
  tar_xz := fun _ _ => [];
  unlink_denied := fun _ => false;
  SRCPKG_BUILD := ["srcpkg"; "build"];
  SRCPKG_PKGS := ["srcpkg"; "packages"];
  SRCPKG_SRC := ["srcpkg"; "sources"];
  HOOKS_DIR := ["srcpkg"; "hooks"];
  find_recipe := recipes;
|}.

Definition root_host : Host := host_of 0 chain.
Definition user_host : Host := host_of 1000 chain.

Definition abc : list Byte.byte := list_byte_of_string "abc".

(** A world whose sources cache holds the archives of the recipes *)
Definition cached : fs :=
  {[ ["srcpkg"] := Dir;
     ["srcpkg"; "sources"] := Dir;
     ["srcpkg"; "sources"; "a.zip"] := File 420 abc;
     ["srcpkg"; "sources"; "b.zip"] := File 420 abc;
     ["srcpkg"; "sources"; "c.zip"] := File 420 abc;
     ["srcpkg"; "sources"; "hello.zip"] := File 420 abc ]}.

Definition world0 : World := {| w_fs := cached; w_db := ∅; w_trace := [] |}.

(** A world with a staged tree holding one executable *)
Definition staged : World :=
  {| w_fs := {[ ["stage"] := Dir;
                ["stage"; "usr"] := Dir;
                ["stage"; "usr"; "bin"] := Dir;
                ["stage"; "usr"; "bin"; "hello"] := File 493 abc ]};
     w_db := ∅; w_trace := [] |}.

Definition hello (declared : string) : SourceSpec :=
  {| url := Some "file:///fixtures/hello.zip"; sha256 := Some declared;
     type := "archive" |}.

End Demo.

(** ** The vocabulary of the properties: classes of events and errors, and
       what is said of traces and orders *)

Module Vocabulary.
Import Model FS Host Eff SrcPkg.

(** Classes of events *)
Definition is_run (e : event) : Prop :=
  match e with EvRun _ => True | _ => False end.
Definition is_sha (e : event) : Prop :=
  match e with EvSha256 _ => True | _ => False end.
Definition is_copy (e : event) : Prop :=
  match e with EvCopy _ => True | _ => False end.
Definition is_db_event (e : event) : Prop :=
  match e with EvDbSave _ | EvDbUnlink _ => True | _ => False end.
Definition is_extract (e : event) : Prop :=
  match e with EvExtract _ _ => True | _ => False end.
Definition is_path_event (e : event) : Prop :=
  match e with EvUnlink _ | EvRmdir _ | EvWarn _ => True | _ => False end.

(** [quiet P m]: [m] leaves the database as it is, and what it adds to the
    trace are events of the class [P]. *)
Definition quiet (P : event -> Prop) {A} (m : M A) : Prop :=
  forall w w' r, m w = (w', r) ->
    w_db w' = w_db w /\
    exists evs, w_trace w' = w_trace w ++ evs /\ Forall P evs.

(** [raises E m]: an exception raised by [m] is of the class [E]. *)
Definition raises (E : error -> Prop) {A} (m : M A) : Prop :=
  forall w w' e, m w = (w', Raise e) -> E e.

(** The errors of fetching, building and installing: all but the two of
    the resolver *)
Definition pipeline_error (e : error) : Prop :=
  match e with
  | UnresolvedDependency _ | RecursionError => False
  | _ => True
  end.

(** An error raised while the archive is obtained, before any check *)
Definition fetch_error (e : error) : Prop :=
  match e with
  | MissingUrl | NoDownloader | CalledProcessError _ _ | OSError _ => True
  | _ => False
  end.

Definition with_event (w : World) (e : event) : World :=
  {| w_fs := w_fs w; w_db := w_db w; w_trace := w_trace w ++ [e] |}.

(** The names of the records written, in order *)
Definition db_writes (t : list event) : list string :=
  omap (fun e => match e with EvDbSave n => Some n | _ => None end) t.

(** The names of the installed packages *)
Definition inst (w : World) : gset string := dom (w_db w).

(** An event of a build phase: a command run in the source directory with
    the environment [e] *)
Definition phase_event (e : gmap string string) (srcdir : path) (ev : event) : Prop :=
  exists c, ev = EvRun c /\ cmd_env c = Some e /\ cwd c = Some srcdir.

(** Events of a download: commands that inherit the process environment,
    and hashing *)
Definition download_event (ev : event) : Prop :=
  match ev with
  | EvRun c => cmd_env c = None
  | EvSha256 _ => True
  | _ => False
  end.

(** Events of fetching, unpacking and patching *)
Definition fetch_event (ev : event) : Prop :=
  match ev with
  | EvRun c => cmd_env c = None
  | EvSha256 _ | EvExtract _ _ => True
  | _ => False
  end.

(** Events of a build whose phases get the environment [e]: a command runs
    with [e] or inherits the process environment. *)
Definition build_event (e : gmap string string) (ev : event) : Prop :=
  match ev with
  | EvRun c => cmd_env c = None \/ cmd_env c = Some e
  | EvSha256 _ | EvExtract _ _ => True
  | _ => False
  end.

(** The last step of [extract]: the choice of the source root *)
Definition source_root (f : fs) (dest : path) (entries : list path) : path :=
  match entries with
  | [e] => if is_dir f e then e else dest
  | _ => dest
  end.

(** The command of a git fetch into [work]: a fetch in an existing clone,
    a clone of [repo] otherwise *)
Definition git_command (repo : string) (work : path) (f : fs) : command :=
  let dest := join work "src" in
  if exists_ f dest
  then {| cmd := Argv ["git"; "fetch"; "--all"]; cwd := Some dest; cmd_env := None |}
  else {| cmd := Argv ["git"; "clone"; repo; path_str dest]; cwd := None;
          cmd_env := None |}.

(** A removed directory is not the root, is gone, and has left no entry. *)
Definition rmdir_ok (f : fs) (e : event) : Prop :=
  match e with
  | EvRmdir d => d <> [] /\ f !! d = None /\ children f d = []
  | _ => True
  end.

(** The events of the removal of one path: the path is unlinked, or is left
    when it is no file, and directories above it are removed; or the unlink
    fails, which is logged. *)
Definition path_events (p : path) (evs : list event) : Prop :=
  exists pre ds,
    evs = pre ++ map EvRmdir ds
    /\ (pre = [] \/ pre = [EvUnlink p] \/ (pre = [EvWarn (path_str p)] /\ ds = []))
    /\ Forall (fun d => d `prefix_of` parent p) ds.

(** The event of a global hook run for the package [n] *)
Definition global_hook_event (n : string) (e : event) : Prop :=
  exists hook,
    e = EvRun {| cmd := Argv [path_str hook; n]; cwd := None; cmd_env := None |}.

Definition installed (db : gmap string InstalledPkg) (p : string) : Prop :=
  exists r, r ∈ list_installed db /\ pkg_name r = p.

(** The orphan of the specification: installed, and in the [depends] of no
    other installed package. *)
Definition spec_orphan (db : gmap string InstalledPkg) (p : string) : Prop :=
  installed db p /\
  forall q, q ∈ list_installed db -> pkg_name q <> p -> p ∉ depends q.

Definition required_by (l : list InstalledPkg) : gset string :=
  foldl (fun req p => foldl (fun r d => {[ d ]} ∪ r) req (depends p)) ∅ l.

(** The commands given to the shell, in order *)
Definition shell_commands (t : list event) : list command :=
  omap (fun e => match e with
                 | EvRun c => match cmd c with Shell _ => Some c | Argv _ => None end
                 | _ => None
                 end) t.

(** The file a patch is read from *)
Definition patch_target (patch_dir : path) (p : PatchSpec) : path :=
  match patch_file p with
  | Some (PatchAbsolute file) => file
  | Some (PatchRelative rel) => patch_dir ++ rel
  | None => join patch_dir (Py.last_segment (default "" (patch_url p)))
  end.


(** An error of [fetch_patch] other than the failed check *)
Definition patch_fetch_error (e : error) : Prop :=
  match e with
  | PatchUnspecified | NoDownloader | CalledProcessError _ _ | OSError _ => True
  | _ => False
  end.

(** The scripts of a build that are not empty, in the order of the phases *)
Definition phases_to_run (meta : PackageMeta) (only_build : bool) : list (list string) :=
  filter (fun lines => lines <> [])
         ([prepare (build meta); compile (build meta)]
          ++ if only_build then [] else [install (build meta)]).

(** The event of a copy or of a write to the database *)
Definition installs (e : event) : Prop := is_copy e \/ is_db_event e.

(** Every record is stored under its own name. *)
Definition db_wf (db : gmap string InstalledPkg) : Prop :=
  forall k r, db !! k = Some r -> pkg_name r = k.

(** [keeps I m]: when [I] holds of the database before [m], it holds after
    it, whether [m] returns or raises. *)
Definition keeps (I : gmap string InstalledPkg -> Prop) {A} (m : M A) : Prop :=
  forall w w' r, I (w_db w) -> m w = (w', r) -> I (w_db w').

(** A regular file is at the path itself. *)
Definition file_at (f : fs) (p : path) : Prop :=
  exists mode data, f !! p = Some (File mode data).

(** The command that strips a file *)
Definition strip_event (p : path) : event :=
  EvRun {| cmd := Argv ["strip"; "--strip-unneeded"; path_str p]; cwd := None;
           cmd_env := None |}.


(** The name of the archive of a package *)
Definition archive_name (meta : PackageMeta) : string :=
  name meta +:+ "-" +:+ version meta +:+ "-1.tar.xz".

(** Commands given as argument vectors, and hashing *)
Definition argv_event (e : event) : Prop :=
  match e with
  | EvRun c => match cmd c with Argv _ => True | Shell _ => False end
  | EvSha256 _ => True
  | _ => False
  end.

(** The step of [_lib_providers] for one file of a record *)
Definition add_file (pkg : InstalledPkg) (providers : gmap string (gset string))
    (f : path) : gmap string (gset string) :=
  let n := name_of f in
  if is_lib_name n
  then <[n := {[ pkg_name pkg ]} ∪ default ∅ (providers !! n)]> providers
  else providers.

Section WithHost.
Context `{Host}.

(** The event of a hook line of a recipe *)
Definition hook_event (line : string) : event :=
  EvRun {| cmd := Shell line; cwd := None; cmd_env := Some environ |}.

(** The file of the sources cache for an archive source *)
Definition cache_path (src : SourceSpec) : path :=
  join SRCPKG_SRC (Py.last_segment (default "" (url src))).

(** What happens before the installer in [install_from_meta] *)
Definition stage (meta : PackageMeta) : M path :=
  let work := join SRCPKG_BUILD (name meta +:+ "-" +:+ version meta) in
  let* f := get_fs in
  when (exists_ f work) (put_fs (rmtree f work));;
  mkdir work;;
  let* dirs := build_ meta work false in
  package_ meta dirs.2 SRCPKG_PKGS;;
  ret dirs.2.

(** [ordered D ws]: starting from the installed names [D], the packages
    [ws] are written in an order in which each one is not yet installed and
    the dependencies of its recipe are installed: in [D] or written before. *)
Inductive ordered : gset string -> list string -> Prop :=
| ordered_nil D : ordered D []
| ordered_cons D d ws :
    d ∉ D ->
    (forall m e, find_recipe d = Some m -> e ∈ dependencies m -> e ∈ D) ->
    ordered ({[ d ]} ∪ D) ws ->
    ordered D (d :: ws).

(** The errors of an install with its dependencies: those of the pipeline,
    and a dependency without a recipe *)
Definition resolver_error (e : error) : Prop :=
  pipeline_error e \/ exists d, e = UnresolvedDependency d /\ find_recipe d = None.

(** What a run of the resolver that returns has done: the records written
    are those of packages of rank below [bound], in a good order. *)
Definition resolved (rank : string -> nat) (bound : nat) (w : World) (w' : World)
  : Prop :=
  exists evs,
    w_trace w' = w_trace w ++ evs
    /\ inst w' = list_to_set (db_writes evs) ∪ inst w
    /\ Forall (fun d => rank d < bound) (db_writes evs)
    /\ ordered (inst w) (db_writes evs).

(** The event of a build phase with the script [lines] *)
Definition script_event (srcdir : path) (e : gmap string string) (lines : list string)
  : event :=
  EvRun {| cmd := Argv [default "/bin/sh" (environ !! "SHELL"); "-exc";
                        Py.join_lines lines];
           cwd := Some srcdir; cmd_env := Some e |}.


(** The two commands of a synchronisation *)
Definition git_pull (repo : path) : command :=
  {| cmd := Argv ["git"; "-C"; path_str repo; "pull"; "--rebase"]; cwd := None;
     cmd_env := None |}.
Definition git_push (repo : path) : command :=
  {| cmd := Argv ["git"; "-C"; path_str repo; "push"]; cwd := None; cmd_env := None |}.

Definition resolve_ok (rank : string -> nat) (depth : nat) : Prop :=
  forall meta visited w w' v',
    (forall e, e ∈ dependencies meta -> rank e < rank (name meta)) ->
    name meta ∉ visited ->
    (forall x, x ∈ visited -> x ∈ inst w \/ rank (name meta) < rank x) ->
    _resolve_deps_install_first depth meta visited w = (w', Ok v') ->
    (forall x, x ∈ v' -> x ∈ visited \/ x = name meta \/ x ∈ inst w')
    /\ (forall e, e ∈ dependencies meta -> e ∈ inst w')
    /\ resolved rank (rank (name meta)) w w'.

End WithHost.

End Vocabulary.

(** ** Worlds, recipes and hosts of the examples *)

Module Scenarios.
Import Model FS Host Eff SrcPkg.

Definition recipe_env : gmap string string := {[ "PREFIX" := "$DESTDIR/usr" ]}.
Definition injected : gmap string string := {[ "DESTDIR" := "/w/destdir" ]}.
Definition process_env : gmap string string := {[ "HOME" := "/root" ]}.

Definition self_dependent : gmap string InstalledPkg :=
  {[ "a" := {| pkg_name := "a"; pkg_version := "1.0"; files := [];
               depends := ["a"]; recipe := None |} ]}.

Definition hello_zip : path := ["srcpkg"; "sources"; "hello.zip"].

Definition hello_meta : PackageMeta := Demo.meta_of "hello" "1.0" [].

Definition hello_record : InstalledPkg :=
  {| pkg_name := "hello"; pkg_version := "1.0"; files := [["usr"; "bin"; "hello"]];
     depends := []; recipe := Some hello_meta |}.

(** A git recipe whose [source] also carries a URL and a digest *)
Definition git_meta : PackageMeta :=
  {| name := "tool"; version := "0.1"; category := "extras"; homepage := None;
     source := {| url := Some "https://example.org/tool.tar.gz";
                  sha256 := Some "00ff"; type := "git" |};
     git := {[ "repo" := "https://example.org/tool.git" ]};
     patches := []; dependencies := [];
     build := {| env := ∅; prepare := []; compile := []; install := [] |};
     package := ∅; hooks := ∅ |}.

(** Scenario S6 on the example host: [pkg 1.2] is installed. *)
Definition pkg_1_2 : World :=
  {| w_fs := Demo.cached;
     w_db := {[ "pkg" := {| pkg_name := "pkg"; pkg_version := "1.2"; files := [];
                            depends := []; recipe := None |} ]};
     w_trace := [] |}.

Definition hello_two_files : InstalledPkg :=
  {| pkg_name := "hello"; pkg_version := "1.0";
     files := [["usr"; "bin"; "hello"]; ["usr"; "share"; "hello"; "README"]];
     depends := [];
     recipe := Some (Demo.meta_of "hello" "1.0" []) |}.

(** A world in which [hello] is installed with two files *)
Definition hello_installed : World :=
  {| w_fs := {[ ["usr"] := Dir;
                ["usr"; "bin"] := Dir;
                ["usr"; "bin"; "hello"] := File 493 Demo.abc;
                ["usr"; "bin"; "other"] := File 493 Demo.abc;
                ["usr"; "share"] := Dir;
                ["usr"; "share"; "hello"] := Dir;
                ["usr"; "share"; "hello"; "README"] := File 420 Demo.abc ]};
     w_db := {[ "hello" := hello_two_files ]};
     w_trace := [] |}.

(** The example host, on which [/usr/bin/hello] cannot be unlinked *)
Definition locked_host : Host := {|
  host_sha := Demo.plain_sha;
  geteuid := 0;
  environ := @environ Demo.root_host;
  which := @which Demo.root_host;
  exec := @exec Demo.root_host;
  py_extract := @py_extract Demo.root_host;
  tar_xz := @tar_xz Demo.root_host;
  unlink_denied := fun p => bool_decide (p = ["usr"; "bin"; "hello"]);
  SRCPKG_BUILD := @SRCPKG_BUILD Demo.root_host;
  SRCPKG_PKGS := @SRCPKG_PKGS Demo.root_host;
  SRCPKG_SRC := @SRCPKG_SRC Demo.root_host;
  HOOKS_DIR := @HOOKS_DIR Demo.root_host;
  find_recipe := @find_recipe Demo.root_host;
|}.

Definition chain_rank (d : string) : nat :=
  if String.eqb d "a" then 2 else if String.eqb d "b" then 1 else 0.

Definition recipe_a : PackageMeta := Demo.meta_of "a" "1.0" ["b"].

Definition cycle (dep : string) : option PackageMeta :=
  if String.eqb dep "a" then Some (Demo.meta_of "a" "1.0" ["b"])
  else if String.eqb dep "b" then Some (Demo.meta_of "b" "1.0" ["a"])
  else None.

Definition cyclic_host : Host := Demo.host_of 0 cycle.


(** A patch kept in the directory of the patches, with a declared digest
    that its bytes do not have *)
Definition fix_patch : PatchSpec :=
  {| patch_url := None; patch_file := Some (PatchRelative ["fix.patch"]);
     patch_sha256 := Some "abd"; strip := 1 |}.

Definition patched_meta : PackageMeta :=
  {| name := "hello"; version := "1.0"; category := "extras"; homepage := None;
     source := Demo.hello "abc"; git := ∅; patches := [fix_patch];
     dependencies := [];
     build := {| env := ∅; prepare := []; compile := ["make"]; install := [] |};
     package := ∅; hooks := ∅ |}.

Definition patch_world : World :=
  {| w_fs := {[ ["w"] := Dir;
                ["w"; "patches"] := Dir;
                ["w"; "patches"; "fix.patch"] := File 420 Demo.abc ]};
     w_db := ∅; w_trace := [] |}.

(** The example host without the [strip] tool *)
Definition no_strip_host : Host := {|
  host_sha := Demo.plain_sha;
  geteuid := 0;
  environ := @environ Demo.root_host;
  which := fun tool => negb (String.eqb tool "strip");
  exec := @exec Demo.root_host;
  py_extract := @py_extract Demo.root_host;
  tar_xz := @tar_xz Demo.root_host;
  unlink_denied := @unlink_denied Demo.root_host;
  SRCPKG_BUILD := @SRCPKG_BUILD Demo.root_host;
  SRCPKG_PKGS := @SRCPKG_PKGS Demo.root_host;
  SRCPKG_SRC := @SRCPKG_SRC Demo.root_host;
  HOOKS_DIR := @HOOKS_DIR Demo.root_host;
  find_recipe := @find_recipe Demo.root_host;
|}.

(** A work directory that holds the source tree of an earlier build, and
    an archive in a format that is not supported *)
Definition stale_world : World :=
  {| w_fs := {[ ["w"] := Dir;
                ["w"; "src"] := Dir;
                ["w"; "src"; "old.c"] := File 420 Demo.abc;
                ["srcpkg"] := Dir;
                ["srcpkg"; "sources"] := Dir;
                ["srcpkg"; "sources"; "hello.rar"] := File 420 Demo.abc ]};
     w_db := ∅; w_trace := [] |}.


End Scenarios.

(* ===================================================================== *)
(** * Part II: properties *)
(* ===================================================================== *)

(** ** The version ordering *)

Module VersionFacts.
Import Chars Version.

Example split_plain : re_split "1.2.10" = ["1"; "2"; "10"].
Proof. reflexivity. Qed.
Example split_run : re_split "1..1" = ["1"; "1"].
Proof. reflexivity. Qed.
Example split_trailing : re_split "1." = ["1"; ""].
Proof. reflexivity. Qed.
Example split_leading : re_split ".1" = [""; "1"].
Proof. reflexivity. Qed.
Example split_empty : re_split "" = [""].
Proof. reflexivity. Qed.
Example verkey_mixed : _verkey "1.2rc-10" = [Num 1; Alpha "2rc"; Num 10].
Proof. reflexivity. Qed.
Example ver_1_2_lt_1_10 : ver_lt "1.2" "1.10" = true.
Proof. reflexivity. Qed.

(** *** The comparison of key elements *)

Lemma string_compare_refl (s : string) : String.compare s s = Eq.
Proof.
  destruct (String.compare s s) eqn:E; [reflexivity | | ];
    pose proof (String.compare_antisym s s) as A; rewrite E in A; discriminate.
Qed.

Lemma string_compare_trans (a b c : string) :
  String.compare a b = Lt -> String.compare b c = Lt -> String.compare a c = Lt.
Proof.
  intros H1 H2. apply String_as_OT.cmp_lt.
  apply String_as_OT.lt_trans with b; apply String_as_OT.cmp_lt; assumption.
Qed.

Lemma part_compare_refl (a : part) : part_compare a a = Eq.
Proof.
  destruct a; simpl; [apply N.compare_refl | apply string_compare_refl].
Qed.

Lemma part_compare_eq (a b : part) : part_compare a b = Eq -> a = b.
Proof.
  destruct a, b; simpl; intros H; try discriminate.
  - apply N.compare_eq in H. congruence.
  - apply String.compare_eq_iff in H. congruence.
Qed.

Lemma part_compare_antisym (a b : part) :
  part_compare a b = CompOpp (part_compare b a).
Proof.
  destruct a, b; simpl; try reflexivity.
  - apply N.compare_antisym.
  - apply String.compare_antisym.
Qed.

Lemma part_compare_trans (a b c : part) :
  part_compare a b = Lt -> part_compare b c = Lt -> part_compare a c = Lt.
Proof.
  destruct a, b, c; simpl; try congruence.
  - rewrite !N.compare_lt_iff. lia.
  - apply string_compare_trans.
Qed.

(** *** The comparison of keys *)

Lemma key_compare_refl (k : list part) : key_compare k k = Eq.
Proof.
  induction k as [|a k IH]; simpl; [reflexivity|].
  rewrite part_compare_refl. exact IH.
Qed.

Lemma key_compare_eq (k1 k2 : list part) : key_compare k1 k2 = Eq -> k1 = k2.
Proof.
  revert k2. induction k1 as [|a k1 IH]; intros [|b k2]; simpl; try congruence.
  destruct (part_compare a b) eqn:E; try discriminate.
  intros H. apply part_compare_eq in E. apply IH in H. congruence.
Qed.

Lemma key_compare_antisym (k1 k2 : list part) :
  key_compare k1 k2 = CompOpp (key_compare k2 k1).
Proof.
  revert k2. induction k1 as [|a k1 IH]; intros [|b k2]; simpl; try reflexivity.
  rewrite (part_compare_antisym a b).
  destruct (part_compare b a); simpl; auto.
Qed.

Lemma key_compare_trans (k1 k2 k3 : list part) :
  key_compare k1 k2 = Lt -> key_compare k2 k3 = Lt -> key_compare k1 k3 = Lt.
Proof.
  revert k2 k3.
  induction k1 as [|a k1 IH]; intros [|b k2] [|c k3]; simpl; try congruence.
  destruct (part_compare a b) eqn:Eab; try discriminate;
    destruct (part_compare b c) eqn:Ebc; try discriminate; intros H1 H2.
  - apply part_compare_eq in Eab, Ebc. subst. rewrite part_compare_refl. eauto.
  - apply part_compare_eq in Eab. subst. rewrite Ebc. reflexivity.
  - apply part_compare_eq in Ebc. subst. rewrite Eab. reflexivity.
  - rewrite (part_compare_trans a b c Eab Ebc). reflexivity.
Qed.

Lemma key_le_refl (k : list part) : key_le k k = true.
Proof. unfold key_le. rewrite key_compare_refl. reflexivity. Qed.

Lemma key_le_total (k1 k2 : list part) : key_le k1 k2 = true \/ key_le k2 k1 = true.
Proof.
  unfold key_le. rewrite (key_compare_antisym k2 k1).
  destruct (key_compare k1 k2); simpl; auto.
Qed.

Lemma key_le_antisym (k1 k2 : list part) :
  key_le k1 k2 = true -> key_le k2 k1 = true -> k1 = k2.
Proof.
  unfold key_le. rewrite (key_compare_antisym k2 k1).
  destruct (key_compare k1 k2) eqn:E; simpl; try discriminate.
  intros _ _. apply key_compare_eq. exact E.
Qed.

Lemma key_le_trans (k1 k2 k3 : list part) :
  key_le k1 k2 = true -> key_le k2 k3 = true -> key_le k1 k3 = true.
Proof.
  unfold key_le.
  destruct (key_compare k1 k2) eqn:E12; try discriminate;
    destruct (key_compare k2 k3) eqn:E23; try discriminate; intros _ _.
  - apply key_compare_eq in E12, E23. subst. rewrite key_compare_refl. reflexivity.
  - apply key_compare_eq in E12. subst. rewrite E23. reflexivity.
  - apply key_compare_eq in E23. subst. rewrite E12. reflexivity.
  - rewrite (key_compare_trans _ _ _ E12 E23). reflexivity.
Qed.

(** [a <= b] is the negation of [b < a]: the guard of [upgrade] is exact. *)
Lemma key_le_not_lt (k1 k2 : list part) : key_le k1 k2 = negb (key_lt k2 k1).
Proof.
  unfold key_le, key_lt. rewrite (key_compare_antisym k2 k1).
  destruct (key_compare k1 k2); reflexivity.
Qed.

Lemma key_lt_app (k : list part) (a : part) (r : list part) :
  key_lt k (k ++ a :: r) = true.
Proof.
  unfold key_lt. induction k as [|b k IH]; simpl; [reflexivity|].
  rewrite part_compare_refl. exact IH.
Qed.

(** *** Appending [".1"] *)

Lemma re_split_nonempty (v : string) : re_split v <> [].
Proof.
  induction v as [|c v IH]; simpl; [discriminate|].
  destruct (is_alnum c).
  - destruct (re_split v); discriminate.
  - destruct (starts_with_sep v); [exact IH | discriminate].
Qed.

Lemma push_app (c : ascii) (l r : list string) :
  l <> [] -> push c (l ++ r) = push c l ++ r.
Proof. destruct l; [congruence | reflexivity]. Qed.

Lemma starts_with_sep_app (v w : string) :
  v <> EmptyString -> starts_with_sep (v +:+ w) = starts_with_sep v.
Proof. destruct v; [congruence | reflexivity]. Qed.

Lemma re_split_cons (c : ascii) (rest : string) :
  re_split (String c rest) =
    if is_alnum c then push c (re_split rest)
    else if starts_with_sep rest then re_split rest
    else EmptyString :: re_split rest.
Proof. reflexivity. Qed.

Lemma last_char_cons (c : ascii) (w : string) :
  w <> EmptyString -> last_char (String c w) = last_char w.
Proof. destruct w; [congruence | reflexivity]. Qed.

Lemma re_split_append_dot1 (v : string) :
  ends_in_token v = true -> re_split (v +:+ ".1") = re_split v ++ ["1"].
Proof.
  unfold ends_in_token. induction v as [|c w IH]; [reflexivity|].
  destruct (string_dec w EmptyString) as [->|Hw].
  - simpl. intros ->. reflexivity.
  - rewrite (last_char_cons c w Hw). intros H. specialize (IH H).
    change (String c w +:+ ".1") with (String c (w +:+ ".1")).
    rewrite !re_split_cons, IH, (starts_with_sep_app w ".1" Hw).
    destruct (is_alnum c).
    + apply push_app, re_split_nonempty.
    + destruct (starts_with_sep w); reflexivity.
Qed.

Lemma verkey_append_dot1 (v : string) :
  ends_in_token v = true -> _verkey (v +:+ ".1") = _verkey v ++ [Num 1].
Proof.
  intros H. unfold _verkey. rewrite (re_split_append_dot1 v H), map_app.
  reflexivity.
Qed.

Lemma re_split_append_dot1_sep (v : string) :
  ends_in_token v = false ->
  exists K, K <> [] /\ re_split v = K ++ [""] /\ re_split (v +:+ ".1") = K ++ ["1"].
Proof.
  unfold ends_in_token. induction v as [|c w IH]; [discriminate|].
  destruct (string_dec w EmptyString) as [->|Hw].
  - simpl. intros ->. exists [""]. repeat split; discriminate.
  - rewrite (last_char_cons c w Hw). intros H.
    destruct (IH H) as (K & HK & E1 & E2).
    change (String c w +:+ ".1") with (String c (w +:+ ".1")).
    rewrite !re_split_cons, E1, E2, (starts_with_sep_app w ".1" Hw).
    destruct (is_alnum c).
    + exists (push c K). rewrite !push_app by assumption.
      repeat split; try reflexivity. destruct K; [congruence | discriminate].
    + destruct (starts_with_sep w).
      * exists K. auto.
      * exists ("" :: K). repeat split; discriminate || reflexivity.
Qed.

Lemma key_compare_app (k r1 r2 : list part) :
  key_compare (k ++ r1) (k ++ r2) = key_compare r1 r2.
Proof.
  induction k as [|a k IH]; simpl; [reflexivity|].
  rewrite part_compare_refl. exact IH.
Qed.

(** [v < v + ".1"] holds exactly for the versions that end in a token. *)
Lemma ver_lt_append_dot1 (v : string) :
  ver_lt v (v +:+ ".1") = ends_in_token v.
Proof.
  destruct (ends_in_token v) eqn:E.
  - unfold ver_lt. rewrite (verkey_append_dot1 v E). apply key_lt_app.
  - destruct (re_split_append_dot1_sep v E) as (K & _ & E1 & E2).
    unfold ver_lt, key_lt, _verkey. rewrite E1, E2, !map_app, key_compare_app.
    reflexivity.
Qed.

(** C2 (amended). The comparison [_verkey(a) <= _verkey(b)] is reflexive,
    transitive and total on version strings, and two versions that compare
    [<=] both ways have the same key (they need not be the same string):
    a total preorder on strings, a total order on keys. Appending [".1"]
    gives a strictly greater version exactly when [v] is empty or ends in
    an alphanumeric character. *)
Theorem version_order_total_on_keys (a b c v : string) :
  ver_le a a = true
  /\ (ver_le a b = true -> ver_le b c = true -> ver_le a c = true)
  /\ (ver_le a b = true \/ ver_le b a = true)
  /\ (ver_le a b = true -> ver_le b a = true -> _verkey a = _verkey b)
  /\ (ver_le a b = negb (ver_lt b a))
  /\ (ver_lt v (v +:+ ".1") = ends_in_token v).
Proof.
  unfold ver_le. repeat split.
  - apply key_le_refl.
  - apply key_le_trans.
  - apply key_le_total.
  - apply key_le_antisym.
  - apply key_le_not_lt.
  - apply ver_lt_append_dot1.
Qed.

Lemma version_order_total_on_keys_witness :
  ver_le "1.2" "2.0" = true
  /\ _verkey "1.0" = _verkey "1-0"
  /\ ver_lt "1.2" "1.2.1" = true.
Proof.
  destruct (version_order_total_on_keys "1.2" "1.10" "2.0" "1.2")
    as (_ & Htrans & _ & _ & _ & Hmono).
  destruct (version_order_total_on_keys "1.0" "1-0" "" "")
    as (_ & _ & _ & Hanti & _).
  split; [apply Htrans; reflexivity|].
  split; [apply Hanti; reflexivity|].
  exact Hmono.
Defined.

(** C2 as stated fails twice: ["1."] is not below ["1." + ".1"] (the two
    dots form one separator run, so the last token [""] is replaced by
    [1], and a numeric token sorts before an alphabetic one), and the
    distinct strings ["1.0"] and ["1-0"] compare [<=] both ways. *)
Lemma version_order_counterexample :
  ver_lt "1." ("1." +:+ ".1") = false
  /\ ver_lt ("1." +:+ ".1") "1." = true
  /\ (ver_le "1.0" "1-0" = true /\ ver_le "1-0" "1.0" = true /\ "1.0" <> "1-0").
Proof. repeat split; discriminate || reflexivity. Qed.

End VersionFacts.

(** ** The environment of the build *)

Module EnvFacts.
Import Env Vocabulary Scenarios.

Example expand_plain :
  expandvars {[ "HOME" := "/root" ]} "$HOME/x:${HOME}y:$HOMEz:${NO}:$" =
    "/root/x:/rooty:$HOMEz:${NO}:$".
Proof. vm_compute. reflexivity. Qed.

Example expand_no_rescan :
  expandvars {[ "A" := "$B"; "B" := "b" ]} "$A-${A$B}-${B" = "$B-${A$B}-${B".
Proof. vm_compute. reflexivity. Qed.

Lemma lookup_expand_env (environ env extra : gmap string string) (k : string) :
  _expand_env environ env extra !! k =
    expandvars environ <$>
      match extra !! k with
      | Some v => Some v
      | None => match env !! k with
                | Some v => Some v
                | None => environ !! k
                end
      end.
Proof.
  unfold _expand_env. rewrite lookup_fmap. f_equal.
  destruct (extra !! k) eqn:E1.
  - apply lookup_union_Some_l. exact E1.
  - rewrite lookup_union_r by exact E1.
    destruct (env !! k) eqn:E2.
    + apply lookup_union_Some_l. exact E2.
    + apply lookup_union_r. exact E2.
Qed.

(** C4 as stated fails: a recipe value that refers to [DESTDIR] is not
    expanded to the injected value, because the values are expanded
    against the process environment, where [DESTDIR] is not set. *)
Lemma expand_env_counterexample :
  _expand_env process_env recipe_env injected !! "PREFIX" = Some "$DESTDIR/usr"
  /\ spec_expand_env process_env recipe_env injected !! "PREFIX" = Some "/w/destdir/usr"
  /\ _expand_env process_env recipe_env injected <>
       spec_expand_env process_env recipe_env injected.
Proof.
  assert (E1 : _expand_env process_env recipe_env injected !! "PREFIX"
               = Some "$DESTDIR/usr") by (vm_compute; reflexivity).
  assert (E2 : spec_expand_env process_env recipe_env injected !! "PREFIX"
               = Some "/w/destdir/usr") by (vm_compute; reflexivity).
  split; [exact E1 | split; [exact E2 |]].
  intros E. rewrite E, E2 in E1. discriminate.
Qed.

End EnvFacts.

(** ** Reasoning about computations *)

Module EffFacts.
Import Model FS Host Eff Vocabulary Scenarios.

(** A run is known by its world and its result. *)
Lemma run_result {A} (p : World * result A) (r : result A) : p.2 = r -> p = (p.1, r).
Proof. destruct p. simpl. intros ->. reflexivity. Qed.

(** A computation that returns went through both parts of a [bind]. *)
Lemma bind_ok_inv {A B} (m : M A) (k : A -> M B) (w w' : World) (b : B) :
  bind m k w = (w', Ok b) ->
  exists w1 a, m w = (w1, Ok a) /\ k a w1 = (w', Ok b).
Proof.
  unfold bind. destruct (m w) as [w1 [a|e]]; [eauto | discriminate].
Qed.

Section Quiet.
Context (P : event -> Prop).

Lemma quiet_ret {A} (a : A) : quiet P (ret a).
Proof.
  intros w w' r [= <- <-]. split; [reflexivity|].
  exists []. rewrite app_nil_r. auto.
Qed.

Lemma quiet_raise {A} (e : error) : quiet P (@raise A e).
Proof.
  intros w w' r [= <- <-]. split; [reflexivity|].
  exists []. rewrite app_nil_r. auto.
Qed.

Lemma quiet_bind {A B} (m : M A) (k : A -> M B) :
  quiet P m -> (forall a, quiet P (k a)) -> quiet P (bind m k).
Proof.
  intros Hm Hk w w' r. unfold bind.
  destruct (m w) as [w1 [a|e]] eqn:E1; intros E2.
  - destruct (Hm _ _ _ E1) as (D1 & evs1 & T1 & F1).
    destruct (Hk a _ _ _ E2) as (D2 & evs2 & T2 & F2).
    split; [congruence|].
    exists (evs1 ++ evs2). rewrite T2, T1, app_assoc.
    split; [reflexivity | apply Forall_app; auto].
  - injection E2 as <- <-. exact (Hm _ _ _ E1).
Qed.

Lemma quiet_try_except {A} (m : M A) (h : error -> M A) :
  quiet P m -> (forall e, quiet P (h e)) -> quiet P (try_except m h).
Proof.
  intros Hm Hh w w' r. unfold try_except.
  destruct (m w) as [w1 [a|e]] eqn:E1; intros E2.
  - injection E2 as <- <-. exact (Hm _ _ _ E1).
  - destruct (Hm _ _ _ E1) as (D1 & evs1 & T1 & F1).
    destruct (Hh e _ _ _ E2) as (D2 & evs2 & T2 & F2).
    split; [congruence|].
    exists (evs1 ++ evs2). rewrite T2, T1, app_assoc.
    split; [reflexivity | apply Forall_app; auto].
Qed.

Lemma quiet_suppress (m : M unit) : quiet P m -> quiet P (suppress m).
Proof. intros Hm. apply quiet_try_except; [exact Hm|]. intros _. apply quiet_ret. Qed.

Lemma quiet_emit (e : event) : P e -> quiet P (emit e).
Proof.
  intros He w w' r [= <- <-]. split; [reflexivity|].
  exists [e]. simpl. auto.
Qed.

Lemma quiet_get_fs : quiet P get_fs.
Proof.
  intros w w' r [= <- <-]. split; [reflexivity|].
  exists []. rewrite app_nil_r. auto.
Qed.

Lemma quiet_put_fs (f : fs) : quiet P (put_fs f).
Proof.
  intros w w' r [= <- <-]. split; [reflexivity|].
  exists []. simpl. rewrite app_nil_r. auto.
Qed.

Lemma quiet_get_db : quiet P get_db.
Proof.
  intros w w' r [= <- <-]. split; [reflexivity|].
  exists []. rewrite app_nil_r. auto.
Qed.

Lemma quiet_when (b : bool) (m : M unit) : quiet P m -> quiet P (when b m).
Proof. destruct b; simpl; [auto | intros _; apply quiet_ret]. Qed.

Lemma quiet_of_option {A} (p : path) (o : option A) : quiet P (of_option p o).
Proof. destruct o; [apply quiet_ret | apply quiet_raise]. Qed.

Lemma quiet_for {A} (l : list A) (body : A -> M unit) :
  (forall x, quiet P (body x)) -> quiet P (for_ l body).
Proof.
  intros Hb. induction l as [|x l IH]; simpl.
  - apply quiet_ret.
  - apply quiet_bind; [apply Hb | intros _; exact IH].
Qed.

Lemma quiet_mkdir (d : path) : quiet P (mkdir d).
Proof.
  unfold mkdir. apply quiet_bind; [apply quiet_get_fs|]. intros f.
  apply quiet_bind; [apply quiet_of_option|]. intros f'. apply quiet_put_fs.
Qed.
End Quiet.

Lemma quiet_weaken (P Q : event -> Prop) {A} (m : M A) :
  (forall e, P e -> Q e) -> quiet P m -> quiet Q m.
Proof.
  intros HPQ Hm w w' r E. destruct (Hm _ _ _ E) as (D & evs & T & F).
  split; [exact D|]. exists evs. split; [exact T|].
  eapply Forall_impl; eauto.
Qed.

Create HintDb quiet.
#[export] Hint Resolve quiet_ret quiet_raise quiet_get_fs quiet_put_fs quiet_get_db
  quiet_of_option quiet_mkdir : quiet.

(** One step through the structure of a computation *)
Ltac quiet_step :=
  lazymatch goal with
  | |- quiet _ (bind _ _) => apply quiet_bind; [|intros ?]
  | |- quiet _ (for_ _ _) => apply quiet_for; intros ?
  | |- quiet _ (when _ _) => apply quiet_when
  | |- quiet _ (suppress _) => apply quiet_suppress
  | |- quiet _ (try_except _ _) => apply quiet_try_except; [|intros ?]
  | |- quiet _ (emit _) => apply quiet_emit; simpl; auto
  | |- quiet _ (match ?x with _ => _ end) => destruct x
  | |- quiet _ (let (_, _) := ?x in _) => destruct x
  | |- quiet _ _ => solve [eauto with quiet]
  end.
Ltac quiet_auto := repeat quiet_step.

End EffFacts.

(** ** Sorting *)

Module PyFacts.

Section Sorted.
Context {A : Type} (le : A -> A -> bool).
Hypothesis le_total : forall a b, le a b = true \/ le b a = true.
Hypothesis le_trans : forall a b c, le a b = true -> le b c = true -> le a c = true.

Lemma insert_sorted_perm (x : A) (l : list A) : Py.insert_sorted le x l ≡ₚ x :: l.
Proof.
  induction l as [|y l IH]; simpl; [reflexivity|].
  destruct (le x y); [reflexivity|].
  rewrite IH. apply Permutation_swap.
Qed.

Lemma sorted_perm (l : list A) : Py.sorted le l ≡ₚ l.
Proof.
  induction l as [|x l IH]; simpl; [reflexivity|].
  fold (Py.sorted le l). rewrite insert_sorted_perm, IH. reflexivity.
Qed.

Lemma elem_of_sorted (x : A) (l : list A) : x ∈ Py.sorted le l <-> x ∈ l.
Proof. rewrite (sorted_perm l). reflexivity. Qed.

Lemma insert_sorted_strongly (x : A) (l : list A) :
  StronglySorted (fun a b => le a b = true) l ->
  StronglySorted (fun a b => le a b = true) (Py.insert_sorted le x l).
Proof.
  induction 1 as [|y l Hl IH Hy]; simpl.
  - repeat constructor.
  - destruct (le x y) eqn:E.
    + constructor; [constructor; assumption|].
      constructor; [exact E|].
      eapply Forall_impl; [exact Hy|]. intros z Hz. eapply le_trans; eassumption.
    + constructor; [exact IH|].
      rewrite (insert_sorted_perm x l). constructor; [|exact Hy].
      destruct (le_total x y) as [H|H]; [congruence | exact H].
Qed.

Lemma sorted_strongly (l : list A) :
  StronglySorted (fun a b => le a b = true) (Py.sorted le l).
Proof.
  induction l as [|x l IH]; simpl; [constructor|].
  apply insert_sorted_strongly. exact IH.
Qed.
End Sorted.

Lemma string_leb_trans (a b c : string) :
  String.leb a b = true -> String.leb b c = true -> String.leb a c = true.
Proof.
  unfold String.leb.
  destruct (String.compare a b) eqn:E1; try discriminate;
    destruct (String.compare b c) eqn:E2; try discriminate; intros _ _.
  - apply String.compare_eq_iff in E1, E2. subst.
    rewrite VersionFacts.string_compare_refl. reflexivity.
  - apply String.compare_eq_iff in E1. subst. rewrite E2. reflexivity.
  - apply String.compare_eq_iff in E2. subst. rewrite E1. reflexivity.
  - rewrite (VersionFacts.string_compare_trans _ _ _ E1 E2). reflexivity.
Qed.

End PyFacts.

(** ** Orphans *)

Module OrphanFacts.
Import Model SrcPkg Vocabulary Scenarios.

Lemma elem_of_add_all (ds : list string) (req : gset string) (d : string) :
  d ∈ foldl (fun r d => {[ d ]} ∪ r) req ds <-> d ∈ req \/ d ∈ ds.
Proof.
  revert req. induction ds as [|x ds IH]; intros req; simpl.
  - set_solver.
  - rewrite IH. set_solver.
Qed.

Lemma elem_of_required_from (l : list InstalledPkg) (req : gset string) (d : string) :
  d ∈ foldl (fun req p => foldl (fun r d => {[ d ]} ∪ r) req (depends p)) req l
  <-> d ∈ req \/ exists q, q ∈ l /\ d ∈ depends q.
Proof.
  revert req. induction l as [|p l IH]; intros req; simpl.
  - set_solver.
  - rewrite IH, elem_of_add_all. split.
    + intros [[?|?]|(q & ? & ?)]; [auto | right; exists p | right; exists q];
        set_solver.
    + intros [?|(q & Hq & ?)]; [auto|].
      apply elem_of_cons in Hq as [->|?]; [auto | right; exists q; auto].
Qed.

Lemma elem_of_required_by (l : list InstalledPkg) (d : string) :
  d ∈ required_by l <-> exists q, q ∈ l /\ d ∈ depends q.
Proof.
  unfold required_by. rewrite elem_of_required_from. set_solver.
Qed.

Lemma elem_of_orphans (db : gmap string InstalledPkg) (p : string) :
  p ∈ orphans db <->
    installed db p /\ forall q, q ∈ list_installed db -> p ∉ depends q.
Proof.
  unfold orphans. fold (required_by (list_installed db)).
  rewrite PyFacts.elem_of_sorted, elem_of_elements, elem_of_difference.
  rewrite elem_of_list_to_set, list_elem_of_fmap, elem_of_required_by.
  unfold installed. split.
  - intros [(r & -> & Hr) Hnot]. split; [eauto|].
    intros q Hq Hin. apply Hnot. eauto.
  - intros [(r & Hr & <-) Hnot]. split; [eauto|].
    intros (q & Hq & Hin). exact (Hnot q Hq Hin).
Qed.

(** C3 (amended). A name is returned by [orphans()] exactly when it is the
    name of an installed record and no installed record, the package's own
    record included, lists it in [depends]; the result is sorted. *)
Theorem orphans_spec (db : gmap string InstalledPkg) (p : string) :
  (p ∈ orphans db <->
     installed db p /\ forall q, q ∈ list_installed db -> p ∉ depends q)
  /\ StronglySorted (fun a b => String.leb a b = true) (orphans db).
Proof.
  split; [apply elem_of_orphans|].
  apply PyFacts.sorted_strongly.
  - apply String.leb_total.
  - apply PyFacts.string_leb_trans.
Qed.

(** C3 as stated fails for a package that lists itself in [depends]: no
    other package requires it, and it is not returned. *)
Lemma orphans_counterexample :
  spec_orphan self_dependent "a" /\ "a" ∉ orphans self_dependent.
Proof.
  assert (E : list_installed self_dependent =
              [{| pkg_name := "a"; pkg_version := "1.0"; files := [];
                  depends := ["a"]; recipe := None |}]).
  { unfold list_installed, self_dependent. rewrite map_to_list_singleton. reflexivity. }
  split.
  - split.
    + exists {| pkg_name := "a"; pkg_version := "1.0"; files := [];
                depends := ["a"]; recipe := None |}.
      rewrite E. split; [apply list_elem_of_here | reflexivity].
    + rewrite E. intros q Hq Hne.
      apply list_elem_of_singleton in Hq. subst q. simpl in Hne. congruence.
  - intros Hin. apply elem_of_orphans in Hin as [_ Hnot].
    eapply Hnot; rewrite ?E; [apply list_elem_of_here|].
    simpl. apply list_elem_of_here.
Qed.

End OrphanFacts.

(** ** The pipeline *)

Module PipelineFacts.
Import Model FS Host Eff EffFacts SrcPkg Vocabulary Scenarios.

Section WithHost.
Context `{Host}.

Lemma quiet_run (P : event -> Prop) c dir e check :
  P (EvRun {| cmd := c; cwd := dir; cmd_env := e |}) -> quiet P (run c dir e check).
Proof.
  intros HP. unfold run. quiet_auto.
Qed.

(** What [run] does, in one step *)
Lemma run_run (c : cmdline) (dir : option path) (e : option (gmap string string))
    (check : bool) (w : World) :
  run c dir e check w =
    let k := {| cmd := c; cwd := dir; cmd_env := e |} in
    ({| w_fs := (exec k (w_fs w)).1; w_db := w_db w; w_trace := w_trace w ++ [EvRun k] |},
     if check && negb ((exec k (w_fs w)).2 =? 0)%Z
     then Raise (CalledProcessError (exec k (w_fs w)).2 c) else Ok tt).
Proof.
  unfold run, bind, emit, get_fs, put_fs, ret, raise. simpl.
  destruct (exec _ (w_fs w)) as [f' code]. simpl.
  destruct check, (negb (code =? 0)%Z); reflexivity.
Qed.

Lemma quiet_compute_sha256 (P : event -> Prop) (p : path) :
  P (EvSha256 p) -> quiet P (compute_sha256 p).
Proof. intros HP. unfold compute_sha256. quiet_auto. Qed.

Lemma quiet_run_script (lines : list string) (dir : path) (e : gmap string string) :
  quiet (phase_event e dir) (run_script lines dir e).
Proof.
  unfold run_script. destruct lines; [apply quiet_ret|].
  apply quiet_run. eexists. simpl. eauto.
Qed.

Lemma quiet_run_phases (meta : PackageMeta) (srcdir : path)
    (e : gmap string string) (only_build : bool) :
  quiet (phase_event e srcdir) (run_phases meta srcdir e only_build).
Proof.
  unfold run_phases.
  repeat first [apply quiet_bind; [|intros ?] | apply quiet_when | apply quiet_run_script].
Qed.

(** *** What each operation adds to the trace *)

Ltac pipeline_step :=
  lazymatch goal with
  | |- quiet _ (run _ _ _ _) => apply quiet_run; simpl; auto
  | |- quiet _ (compute_sha256 _) => apply quiet_compute_sha256; simpl; auto
  | |- _ => quiet_step
  end.
Ltac pipeline_auto := repeat pipeline_step.

Lemma quiet_fetch_to_cache (u : string) (out : path) :
  quiet is_run (fetch_to_cache u out).
Proof. unfold fetch_to_cache. pipeline_auto. Qed.

Lemma quiet_download (src : SourceSpec) (workdir : path) :
  quiet download_event (download src workdir).
Proof. unfold download, fetch_to_cache, verify_sha256. pipeline_auto. Qed.

Lemma quiet_unpack (fmt : archive_format) (archive dest : path) :
  quiet fetch_event (unpack fmt archive dest).
Proof. unfold unpack. pipeline_auto. Qed.

Lemma quiet_extract (archive workdir : path) :
  quiet fetch_event (extract archive workdir).
Proof.
  unfold extract.
  repeat first [apply quiet_unpack | pipeline_step].
Qed.

Lemma quiet_fetch_patch (p : PatchSpec) (patch_dir : path) :
  quiet fetch_event (fetch_patch p patch_dir).
Proof. unfold fetch_patch. pipeline_auto. Qed.

Lemma quiet_apply_patches (meta : PackageMeta) (srcdir patch_dir : path) :
  quiet fetch_event (apply_patches meta srcdir patch_dir).
Proof.
  unfold apply_patches.
  repeat first [apply quiet_fetch_patch | pipeline_step].
Qed.

Lemma download_event_fetch (e : event) : download_event e -> fetch_event e.
Proof. destruct e; simpl; auto. Qed.

Lemma fetch_event_build (env : gmap string string) (e : event) :
  fetch_event e -> build_event env e.
Proof. destruct e; simpl; auto. Qed.

Lemma phase_event_build (env : gmap string string) (dir : path) (e : event) :
  phase_event env dir e -> build_event env e.
Proof. intros (c & -> & E & _). simpl. auto. Qed.

Lemma quiet_build (meta : PackageMeta) (work : path) (only_build : bool) :
  quiet (build_event (build_env meta (join work "destdir")))
        (build_ meta work only_build).
Proof.
  unfold build_.
  apply quiet_bind; [|intros src_path].
  { eapply quiet_weaken; [|apply quiet_download].
    intros e He. apply fetch_event_build, download_event_fetch, He. }
  apply quiet_bind; [|intros srcdir].
  { eapply quiet_weaken; [apply fetch_event_build | apply quiet_extract]. }
  apply quiet_bind; [|intros _].
  { eapply quiet_weaken; [apply fetch_event_build | apply quiet_apply_patches]. }
  apply quiet_bind; [apply quiet_mkdir | intros _].
  apply quiet_bind; [|intros _; apply quiet_ret].
  eapply quiet_weaken; [apply phase_event_build | apply quiet_run_phases].
Qed.

(** C4 (amended). The environment given to every build phase is the
    process environment overlaid by the recipe's [env] and then by
    [DESTDIR], each value expanded by [os.path.expandvars] against the
    process environment alone; a build runs its phases, and no other
    command, with this environment. *)
Theorem build_env_is_overlay_expanded_in_process_env
    (meta : PackageMeta) (work srcdir : path) (only_build : bool) (w : World) :
  let destdir := join work "destdir" in
  (forall k,
      build_env meta destdir !! k =
        Env.expandvars environ <$>
          (if decide (k = "DESTDIR") then Some (path_str destdir)
           else match env (build meta) !! k with
                | Some v => Some v
                | None => environ !! k
                end))
  /\ (exists evs,
      w_trace (run_phases meta srcdir (build_env meta destdir) only_build w).1
        = w_trace w ++ evs
      /\ Forall (phase_event (build_env meta destdir) srcdir) evs)
  /\ (exists evs,
      w_trace (build_ meta work only_build w).1 = w_trace w ++ evs
      /\ Forall (build_event (build_env meta destdir)) evs).
Proof.
  intros destdir. split; [|split].
  - intros k. unfold build_env. rewrite EnvFacts.lookup_expand_env.
    destruct (decide (k = "DESTDIR")) as [->|Hk].
    + rewrite lookup_singleton_eq. reflexivity.
    + rewrite lookup_singleton_ne by congruence. reflexivity.
  - destruct (run_phases meta srcdir (build_env meta destdir) only_build w)
      as [w' r] eqn:E.
    apply quiet_run_phases in E as (_ & evs & T & F). eauto.
  - destruct (build_ meta work only_build w) as [w' r] eqn:E.
    apply quiet_build in E as (_ & evs & T & F). eauto.
Qed.

(** *** The checksum of an archive *)

Lemma fold_sha_update (chunks : list (list Byte.byte)) (s : sha_state) :
  fold_left sha_update chunks s = sha_update s (concat chunks).
Proof.
  revert s. induction chunks as [|c cs IH]; intros s; simpl.
  - symmetry. apply sha_update_nil.
  - rewrite IH. apply sha_update_app.
Qed.

Lemma concat_read_chunks (fuel n : nat) (data : list Byte.byte) :
  0 < n -> length data < fuel -> concat (read_chunks fuel n data) = data.
Proof.
  intros Hn. revert data. induction fuel as [|k IH]; intros data Hlen; [lia|].
  simpl. destruct (firstn n data) as [|b c] eqn:E.
  - destruct data as [|b d]; [reflexivity|]. destruct n; [lia | discriminate].
  - rewrite concat_cons, IH.
    + rewrite <- E. apply firstn_skipn.
    + rewrite length_skipn.
      destruct data; [rewrite firstn_nil in E; discriminate|]. simpl in *. lia.
Qed.

(** Reading in blocks does not change the digest. *)
Lemma digest_chunked_eq (n : nat) (data : list Byte.byte) :
  0 < n -> digest_chunked n data = sha256_hex data.
Proof.
  intros Hn. unfold digest_chunked, sha256_hex.
  rewrite fold_sha_update, concat_read_chunks by lia. reflexivity.
Qed.

Lemma CHUNK_pos : 0 < CHUNK.
Proof. unfold CHUNK. lia. Qed.

End WithHost.

End PipelineFacts.

(** ** The checksum gate *)

Module ChecksumGate.
Import Model FS Host Eff EffFacts SrcPkg PipelineFacts Vocabulary Scenarios.

Section WithHost.
Context `{Host}.

Ltac run_m :=
  repeat (progress (unfold bind, ret, raise, emit, get_fs, put_fs, get_db, put_db,
                      of_option, when, run, mkdir in *; simpl in *)).

Lemma compute_sha256_run (p : path) (w : World) :
  compute_sha256 p w =
    ({| w_fs := w_fs w; w_db := w_db w; w_trace := w_trace w ++ [EvSha256 p] |},
     match read_bytes (w_fs w) p with
     | Some data => Ok (sha256_hex data)
     | None => Raise (OSError p)
     end).
Proof.
  unfold compute_sha256, bind, emit, get_fs, of_option, ret, raise. simpl.
  destruct (read_bytes (w_fs w) p); simpl; [|reflexivity].
  rewrite digest_chunked_eq by apply CHUNK_pos. reflexivity.
Qed.

Lemma verify_sha256_run (h : string) (out : path) (w : World) :
  h <> "" ->
  verify_sha256 (Some h) out w =
    ({| w_fs := w_fs w; w_db := w_db w; w_trace := w_trace w ++ [EvSha256 out] |},
     match read_bytes (w_fs w) out with
     | Some data =>
         if decide (sha256_hex data = h) then Ok tt
         else Raise (ChecksumMismatch (sha256_hex data))
     | None => Raise (OSError out)
     end).
Proof.
  intros Hne. unfold verify_sha256.
  destruct h as [|c h]; [congruence|].
  change (Py.truthy (Some (String c h))) with true.
  unfold bind. cbv beta iota. rewrite compute_sha256_run.
  destruct (read_bytes (w_fs w) out) as [data|]; [|reflexivity].
  destruct (decide (sha256_hex data = String c h)) as [E|E].
  - rewrite bool_decide_eq_true_2 by congruence. reflexivity.
  - rewrite bool_decide_eq_false_2 by congruence. reflexivity.
Qed.

Lemma fetch_to_cache_error (u : string) (out : path) (w w' : World) (e : error) :
  fetch_to_cache u out w = (w', Raise e) -> fetch_error e.
Proof.
  unfold fetch_to_cache. run_m.
  repeat first [case_match | destruct (exec _ _)];
    intros; simplify_eq; simpl; auto.
Qed.

Lemma mkdir_error (d : path) (w w' : World) (e : error) :
  mkdir d w = (w', Raise e) -> fetch_error e.
Proof.
  run_m. repeat case_match; intros; simplify_eq; simpl; auto.
Qed.

(** An archive download with a declared checksum either fails while the
    file is obtained, or reaches the check with the file of the cache. *)
Lemma download_archive_cases (src : SourceSpec) (workdir : path) (h : string)
    (w w0 : World) (r0 : result path) :
  type src <> "git" -> sha256 src = Some h -> h <> "" ->
  download src workdir w = (w0, r0) ->
  let out := cache_path src in
  (exists e evs, r0 = Raise e /\ fetch_error e /\
                 w_trace w0 = w_trace w ++ evs /\ Forall is_run evs)
  \/ (exists w2 evs,
        w_trace w2 = w_trace w ++ evs /\ Forall is_run evs /\
        w0 = with_event w2 (EvSha256 out) /\
        r0 = match read_bytes (w_fs w2) out with
             | Some data =>
                 if decide (sha256_hex data = h) then Ok out
                 else Raise (ChecksumMismatch (sha256_hex data))
             | None => Raise (OSError out)
             end).
Proof.
  intros Hty Hsha Hne Ed out. subst out. unfold cache_path.
  unfold download in Ed. apply String.eqb_neq in Hty. rewrite Hty in Ed.
  unfold bind at 1 in Ed.
  destruct (mkdir workdir w) as [w1 [[]|e]] eqn:Emk.
  2:{ injection Ed as <- <-. left.
      destruct (quiet_mkdir is_run _ _ _ _ Emk) as (_ & evs & T & F).
      exists e, evs. eauto using mkdir_error. }
  destruct (quiet_mkdir is_run _ _ _ _ Emk) as (_ & evs1 & T1 & F1).
  destruct (url src) as [[|c u]|] eqn:Eurl;
    [injection Ed as <- <-; left; exists MissingUrl, evs1; simpl; auto | |
     injection Ed as <- <-; left; exists MissingUrl, evs1; simpl; auto].
  simpl default. set (out := join SRCPKG_SRC (Py.last_segment (String c u))) in *.
  unfold bind at 1 in Ed.
  destruct (fetch_to_cache (String c u) out w1) as [w2 [[]|e]] eqn:Ef.
  2:{ injection Ed as <- <-. left.
      destruct (quiet_fetch_to_cache _ _ _ _ _ Ef) as (_ & evs2 & T2 & F2).
      exists e, (evs1 ++ evs2). rewrite T2, T1, app_assoc.
      split; [reflexivity|]. split; [eapply fetch_to_cache_error; eauto|].
      split; [reflexivity | apply Forall_app; auto]. }
  destruct (quiet_fetch_to_cache _ _ _ _ _ Ef) as (_ & evs2 & T2 & F2).
  right. exists w2, (evs1 ++ evs2).
  split; [rewrite T2, T1, app_assoc; reflexivity|].
  split; [apply Forall_app; auto|].
  unfold bind in Ed. rewrite Hsha, (verify_sha256_run h out w2 Hne) in Ed.
  destruct (read_bytes (w_fs w2) out) as [data|].
  - destruct (decide (sha256_hex data = h)); injection Ed as <- <-; auto.
  - injection Ed as <- <-; auto.
Qed.

Lemma not_run_sha (evs : list event) (p : path) :
  Forall is_run evs -> ~ In (EvSha256 p) evs.
Proof.
  intros F Hin. rewrite Forall_forall in F.
  apply list_elem_of_In, F in Hin. exact Hin.
Qed.

(** C1. A declared SHA-256 is a string that is not empty, as the test
    [if src.sha256] has it. For an archive source with a declared SHA-256, [download] returns
    only when the digest of the bytes of the cached file equals the
    declared value; when the check is reached and the digests differ it
    raises the checksum error, the file stays in the cache, and nothing
    is extracted: the events of the download are commands and hashing
    only, and the build stops with the error of the download. The check
    is reached whenever the file was obtained, downloaded or cached. *)
Theorem checksum_gate (src : SourceSpec) (workdir : path) (h : string) (w : World) :
  type src <> "git" -> sha256 src = Some h -> h <> "" ->
  let out := cache_path src in
  let w' := (download src workdir w).1 in
  let r := (download src workdir w).2 in
  exists evs,
    w_trace w' = w_trace w ++ evs
    /\ Forall download_event evs
    /\ w_db w' = w_db w
    /\ (forall p, r = Ok p ->
          p = out /\ In (EvSha256 out) evs /\
          exists data, read_bytes (w_fs w') out = Some data /\ sha256_hex data = h)
    /\ (In (EvSha256 out) evs ->
        forall data, read_bytes (w_fs w') out = Some data -> sha256_hex data <> h ->
          r = Raise (ChecksumMismatch (sha256_hex data)))
    /\ (forall got, r = Raise (ChecksumMismatch got) ->
          got <> h /\
          exists data, read_bytes (w_fs w') out = Some data /\ sha256_hex data = got)
    /\ (In (EvSha256 out) evs \/ exists e, r = Raise e /\ fetch_error e)
    /\ (forall meta only_build e, source meta = src -> r = Raise e ->
          build_ meta workdir only_build w = (w', Raise e)).
Proof.
  intros Hty Hsha Hne out w' r.
  assert (Hbuild : forall meta only_build e, source meta = src -> r = Raise e ->
            build_ meta workdir only_build w = (w', Raise e)).
  { intros meta ob e <- Hr. unfold build_, bind, source_to_fetch.
    apply String.eqb_neq in Hty. rewrite Hty.
    subst w' r. destruct (download (source meta) workdir w) as [w1 r1].
    simpl in *. subst r1. reflexivity. }
  destruct (download src workdir w) as [w0 r0] eqn:Ed.
  pose proof (quiet_download _ _ _ _ _ Ed) as (Hdb & evs & Htr & Hev).
  exists evs. simpl in w', r. subst w' r.
  split; [exact Htr|]. split; [exact Hev|]. split; [exact Hdb|].
  destruct (download_archive_cases src workdir h w w0 r0 Hty Hsha Hne Ed)
    as [(e & evs' & -> & He & T & F)|(w2 & evs' & T & F & -> & Hr)].
  - rewrite Htr in T. apply app_inv_head in T. subst evs'.
    pose proof (not_run_sha evs out F) as Hno.
    refine (conj _ (conj _ (conj _ (conj _ Hbuild)))).
    + intros p [=].
    + intros Hin. contradiction.
    + intros got [= ->]. destruct He.
    + right. eauto.
  - simpl in Htr. rewrite T, <- app_assoc in Htr. apply app_inv_head in Htr.
    subst evs. fold out in Hr. simpl w_fs in *.
    assert (Hin : In (EvSha256 out) (evs' ++ [EvSha256 out]))
      by (apply in_or_app; right; left; reflexivity).
    refine (conj _ (conj _ (conj _ (conj (or_introl Hin) Hbuild))));
      destruct (read_bytes (w_fs w2) out) as [data|] eqn:Er;
      try destruct (decide (sha256_hex data = h)) as [Eh|Eh]; subst r0;
      try (intros; discriminate).
    + intros p [= <-]. eauto.
    + intros _ data' [= <-] Hd. contradiction.
    + intros _ data' [= <-] _. reflexivity.
    + intros got [= <-]. eauto.
Qed.

End WithHost.

Example download_matching :
  (@download Demo.root_host (Demo.hello "abc") ["w"] Demo.world0).2
  = Ok ["srcpkg"; "sources"; "hello.zip"].
Proof. vm_compute. reflexivity. Qed.

(** Scenario S2 on the example host: the cached archive does not have the
    declared digest; the download raises and the file is still there. *)
Lemma checksum_gate_witness :
  let run := @download Demo.root_host (Demo.hello "abd") ["w"] Demo.world0 in
  run.2 = Raise (ChecksumMismatch "abc")
  /\ is_Some (read_bytes (w_fs run.1) ["srcpkg"; "sources"; "hello.zip"])
  /\ @build_ Demo.root_host
       (with_source (Demo.meta_of "hello" "1.0" []) (Demo.hello "abd"))
       ["w"] false Demo.world0 = (run.1, Raise (ChecksumMismatch "abc")).
Proof.
  intros run.
  destruct (@checksum_gate Demo.root_host (Demo.hello "abd") ["w"] "abd" Demo.world0)
    as (evs & _ & _ & _ & _ & _ & Hkeep & _ & Hbuild);
    [discriminate | reflexivity | discriminate |].
  assert (E : run.2 = Raise (ChecksumMismatch "abc")) by (vm_compute; reflexivity).
  split; [exact E|]. split.
  - destruct (Hkeep _ E) as (_ & data & Hd & _). exists data. exact Hd.
  - apply Hbuild; [reflexivity | exact E].
Defined.

End ChecksumGate.

(** ** Extraction *)

Module ExtractFacts.
Import Model FS Host Eff EffFacts SrcPkg Vocabulary Scenarios.

Section WithHost.
Context `{Host}.

(** C9. When [extract] unpacks an archive and returns, it returns the only
    entry of the destination [work/src] if there is exactly one and it is a
    directory, and the destination itself in every other case: no entry,
    several entries, or one entry that is not a directory. *)
Theorem extract_single_root (archive workdir : path) (w w' : World) (r : path) :
  is_dir (w_fs w) archive = false ->
  extract archive workdir w = (w', Ok r) ->
  let dest := join workdir "src" in
  exists entries,
    iterdir (w_fs w') dest = Some entries
    /\ (forall e, entries = [e] -> is_dir (w_fs w') e = true -> r = e)
    /\ (forall e, entries = [e] -> is_dir (w_fs w') e = false -> r = dest)
    /\ (entries = [] -> r = dest)
    /\ (1 < length entries -> r = dest).
Proof.
  intros Hdir E dest. unfold extract in E.
  apply bind_ok_inv in E as (w0 & f & [= <- <-] & E).
  rewrite Hdir in E. fold dest in E.
  apply bind_ok_inv in E as (w1 & [] & _ & E).
  apply bind_ok_inv in E as (w2 & [] & _ & E).
  apply bind_ok_inv in E as (w3 & [] & _ & E).
  apply bind_ok_inv in E as (w4 & f' & [= <- <-] & E).
  apply bind_ok_inv in E as (w5 & entries & Hit & E).
  unfold of_option in Hit.
  destruct (iterdir (w_fs w3) dest) as [l|] eqn:El; [|discriminate].
  unfold ret in Hit. simplify_eq.
  exists entries.
  assert (Hr : w' = w5 /\ r = source_root (w_fs w5) dest entries).
  { unfold source_root. destruct entries as [|e [|e' rest]];
      [|destruct (is_dir (w_fs w5) e)|]; unfold ret in E; simplify_eq; auto. }
  destruct Hr as [-> ->]. split; [exact El|]. unfold source_root.
  split; [intros e -> ->; reflexivity|].
  split; [intros e -> ->; reflexivity|].
  split; [intros ->; reflexivity|].
  destruct entries as [|e [|e' rest]]; simpl; intros; [lia | lia | reflexivity].
Qed.

(** A directory is returned as it is (the clone of a git source). *)
Lemma extract_directory (dir workdir : path) (w : World) :
  is_dir (w_fs w) dir = true -> extract dir workdir w = (w, Ok dir).
Proof.
  intros Hdir. unfold extract, bind, get_fs. rewrite Hdir. reflexivity.
Qed.

End WithHost.

(** The example host unpacks one directory: it becomes the source root. *)
Lemma extract_single_root_witness :
  let run := @extract Demo.root_host hello_zip ["w"] Demo.world0 in
  run.2 = Ok ["w"; "src"; "pkg-1.0"]
  /\ exists entries,
      iterdir (w_fs run.1) ["w"; "src"] = Some entries
      /\ (forall e, entries = [e] -> is_dir (w_fs run.1) e = true ->
            ["w"; "src"; "pkg-1.0"] = e).
Proof.
  intros run.
  assert (E2 : run.2 = Ok ["w"; "src"; "pkg-1.0"]) by (vm_compute; reflexivity).
  pose proof (run_result run _ E2) as E.
  split; [exact E2|].
  destruct (@extract_single_root Demo.root_host hello_zip ["w"] Demo.world0
              run.1 ["w"; "src"; "pkg-1.0"]) as (entries & Hit & Hone & _);
    [vm_compute; reflexivity | exact E |].
  exists entries. split; [exact Hit | exact Hone].
Defined.

End ExtractFacts.

(** ** Installation onto the live root *)

Module InstallFacts.
Import Model FS Host Eff EffFacts SrcPkg PipelineFacts Vocabulary Scenarios.

Section WithHost.
Context `{Host}.

Lemma quiet_write_file (P : event -> Prop) (p : path) (mode : N) (data : list Byte.byte) :
  quiet P (write_file p mode data).
Proof. unfold write_file. quiet_auto. Qed.

Lemma quiet_copy2 (s t : path) : quiet is_copy (copy2 s t).
Proof.
  unfold copy2. repeat first [apply quiet_write_file | quiet_step].
Qed.

Lemma quiet_copy_entries (src dst : path) (entries : list path) :
  quiet is_copy (copy_entries src dst entries).
Proof.
  induction entries as [|p rest IH]; simpl; [apply quiet_ret|].
  repeat first [exact IH | apply quiet_copy2 | quiet_step].
Qed.

Lemma quiet_copy_tree (src dst : path) : quiet is_copy (_copy_tree src dst).
Proof.
  unfold _copy_tree. apply quiet_bind; [apply quiet_get_fs|].
  intros f. apply quiet_copy_entries.
Qed.

Lemma quiet_run_hooks (lines : list string) : quiet is_run (_run_hooks lines).
Proof.
  unfold _run_hooks. apply quiet_for. intros line. apply quiet_run. exact I.
Qed.

Lemma quiet_run_global_hooks (which_dir pkgname : string) :
  quiet is_run (_run_global_hooks which_dir pkgname).
Proof.
  unfold _run_global_hooks.
  repeat first [apply quiet_run; exact I | quiet_step].
Qed.

Lemma save_run (pkg : InstalledPkg) (w : World) :
  save pkg w =
    ({| w_fs := w_fs w; w_db := <[pkg_name pkg := pkg]> (w_db w);
        w_trace := w_trace w ++ [EvDbSave (pkg_name pkg)] |}, Ok tt).
Proof. reflexivity. Qed.

Lemma install_package_dir_not_root (meta : PackageMeta) (destdir : path) (w : World) :
  geteuid <> 0%Z ->
  install_package_dir meta destdir w =
    ({| w_fs := w_fs w; w_db := w_db w; w_trace := w_trace w ++ [EvErr] |},
     Raise NotPrivileged).
Proof.
  intros Hne. unfold install_package_dir.
  apply Z.eqb_neq in Hne. rewrite Hne. reflexivity.
Qed.

Lemma install_package_dir_ok (meta : PackageMeta) (destdir : path) (w w' : World)
    (pkg : InstalledPkg) :
  install_package_dir meta destdir w = (w', Ok pkg) ->
  geteuid = 0%Z
  /\ w_db w' = <[name meta := pkg]> (w_db w)
  /\ pkg_name pkg = name meta /\ pkg_version pkg = version meta
  /\ depends pkg = dependencies meta /\ recipe pkg = Some meta
  /\ exists copies hooks_run,
      w_trace w' = w_trace w ++ copies ++ [EvDbSave (name meta)] ++ hooks_run
      /\ Forall is_copy copies /\ Forall is_run hooks_run.
Proof.
  unfold install_package_dir. intros E.
  destruct (geteuid =? 0)%Z eqn:Eu; simpl negb in E; cbv iota in E; [|discriminate].
  apply Z.eqb_eq in Eu. split; [exact Eu|].
  apply bind_ok_inv in E as (w1 & copied & Ec & E).
  apply bind_ok_inv in E as (w2 & [] & Es & E).
  apply bind_ok_inv in E as (w3 & [] & Eh & E).
  apply bind_ok_inv in E as (w4 & [] & Eg & E).
  unfold ret in E. simplify_eq. rewrite save_run in Es. simplify_eq.
  destruct (quiet_copy_tree _ _ _ _ _ Ec) as (D1 & copies & T1 & F1).
  destruct (quiet_run_hooks _ _ _ _ Eh) as (D3 & ev3 & T3 & F3).
  destruct (quiet_run_global_hooks _ _ _ _ _ Eg) as (D4 & ev4 & T4 & F4).
  simpl in *. split; [congruence|]. do 4 (split; [reflexivity|]).
  exists copies, (ev3 ++ ev4). split; [|split; [exact F1 | apply Forall_app; auto]].
  rewrite T4, T3, T1. rewrite <- !app_assoc. reflexivity.
Qed.

(** C7. Without effective UID 0 the installer logs an error and exits: the
    file system and the database are as before, nothing is copied, no
    record is written. When the installer returns, it has copied files, then
    written the record, and only then run commands: every hook comes after
    the database write. *)
Theorem install_requires_root (meta : PackageMeta) (destdir : path) (w : World) :
  (geteuid <> 0%Z ->
     install_package_dir meta destdir w =
       ({| w_fs := w_fs w; w_db := w_db w; w_trace := w_trace w ++ [EvErr] |},
        Raise NotPrivileged))
  /\ (forall w' pkg,
        install_package_dir meta destdir w = (w', Ok pkg) ->
        geteuid = 0%Z
        /\ w_db w' = <[name meta := pkg]> (w_db w)
        /\ pkg_name pkg = name meta /\ pkg_version pkg = version meta
        /\ depends pkg = dependencies meta /\ recipe pkg = Some meta
        /\ exists copies hooks_run,
            w_trace w' = w_trace w ++ copies ++ [EvDbSave (name meta)] ++ hooks_run
            /\ Forall is_copy copies /\ Forall is_run hooks_run).
Proof.
  split.
  - apply install_package_dir_not_root.
  - intros w' pkg. apply install_package_dir_ok.
Qed.

End WithHost.

Lemma install_requires_root_witness :
  @install_package_dir Demo.user_host hello_meta ["stage"] Demo.staged
  = ({| w_fs := w_fs Demo.staged; w_db := w_db Demo.staged; w_trace := [EvErr] |},
     Raise NotPrivileged)
  /\ exists w',
      @install_package_dir Demo.root_host hello_meta ["stage"] Demo.staged
      = (w', Ok hello_record)
      /\ w_db w' = <[ "hello" := hello_record ]> ∅.
Proof.
  split.
  - apply (@install_requires_root Demo.user_host hello_meta ["stage"] Demo.staged).
    intros Hc. vm_compute in Hc. discriminate.
  - set (run := @install_package_dir Demo.root_host hello_meta ["stage"] Demo.staged).
    assert (E : run = (run.1, Ok hello_record))
      by (apply run_result; vm_compute; reflexivity).
    exists run.1. split; [exact E|].
    destruct (@install_requires_root Demo.root_host hello_meta ["stage"] Demo.staged)
      as [_ Hok].
    destruct (Hok _ _ E) as (_ & Hdb & _). exact Hdb.
Defined.

End InstallFacts.

(** ** Git sources *)

Module GitFacts.
Import Model FS Host Eff EffFacts SrcPkg PipelineFacts Vocabulary Scenarios.

Section WithHost.
Context `{Host}.

Lemma quiet_download_git (src : SourceSpec) (workdir : path) :
  type src = "git" -> quiet is_run (download src workdir).
Proof.
  intros Hty. unfold download. rewrite Hty. simpl String.eqb. cbv iota.
  repeat first [apply quiet_run; exact I | quiet_step].
Qed.

(** C10. For a recipe whose source type is ["git"], the build fetches the
    source [SourceSpec(url=git.repo, type="git")]: the build does not depend
    on [source.url] or [source.sha256]; the download runs one git command,
    a clone of [git.repo] into [work/src] or a fetch in the clone that is
    there, and nothing else: no digest is computed. Without [git.repo] the
    download raises. *)
Theorem git_source_is_cloned (meta : PackageMeta) (work : path) (only_build : bool)
    (w : World) :
  type (source meta) = "git" ->
  source_to_fetch meta = {| url := git meta !! "repo"; sha256 := None; type := "git" |}
  /\ (forall u s,
        build_ (with_source meta {| url := u; sha256 := s; type := "git" |})
               work only_build w
        = build_ meta work only_build w)
  /\ (exists evs,
        w_trace (download (source_to_fetch meta) work w).1 = w_trace w ++ evs
        /\ Forall is_run evs)
  /\ (forall w1 repo,
        mkdir work w = (w1, Ok tt) ->
        git meta !! "repo" = Some repo -> repo <> "" ->
        let k := git_command repo work (w_fs w1) in
        let code := (exec k (w_fs w1)).2 in
        download (source_to_fetch meta) work w =
          ({| w_fs := (exec k (w_fs w1)).1; w_db := w_db w1;
              w_trace := w_trace w1 ++ [EvRun k] |},
           if (code =? 0)%Z then Ok (join work "src")
           else Raise (CalledProcessError code (cmd k))))
  /\ (forall w1,
        mkdir work w = (w1, Ok tt) ->
        Py.truthy (git meta !! "repo") = false ->
        download (source_to_fetch meta) work w = (w1, Raise MissingUrl)).
Proof.
  intros Hty.
  assert (Hsrc : source_to_fetch meta = git_source meta).
  { unfold source_to_fetch. rewrite Hty. reflexivity. }
  split; [exact Hsrc|]. split; [|split; [|split]].
  - intros u s. unfold build_, source_to_fetch. simpl. rewrite Hty. reflexivity.
  - rewrite Hsrc.
    destruct (download (git_source meta) work w) as [w' r] eqn:E.
    apply quiet_download_git in E as (_ & evs & T & F); [eauto | reflexivity].
  - intros w1 repo Emk Hrepo Hne k code. rewrite Hsrc.
    unfold download, git_source. simpl String.eqb. cbv iota. simpl url.
    rewrite Hrepo. destruct repo as [|c repo]; [congruence|].
    unfold bind at 1. rewrite Emk. unfold bind, get_fs.
    subst code k. unfold git_command.
    destruct (exists_ (w_fs w1) (join work "src")); rewrite run_run; simpl;
      destruct (_ =? 0)%Z; reflexivity.
  - intros w1 Emk Hrepo. rewrite Hsrc.
    unfold download, git_source. simpl String.eqb. cbv iota. simpl url.
    unfold bind. rewrite Emk.
    destruct (git meta !! "repo") as [[|c repo]|]; simpl in Hrepo;
      try discriminate; reflexivity.
Qed.

End WithHost.

Lemma git_source_is_cloned_witness :
  let run := @download Demo.root_host (@source_to_fetch git_meta) ["w"] Demo.world0 in
  run.2 = Ok ["w"; "src"]
  /\ w_trace run.1 =
       [EvRun {| cmd := Argv ["git"; "clone"; "https://example.org/tool.git"; "/w/src"];
                 cwd := None; cmd_env := None |}].
Proof.
  destruct (@git_source_is_cloned Demo.root_host git_meta ["w"] false Demo.world0)
    as (_ & _ & _ & Hclone & _); [reflexivity|].
  intros run. subst run.
  rewrite (Hclone (mkdir ["w"] Demo.world0).1 "https://example.org/tool.git");
    [split; vm_compute; reflexivity | vm_compute; reflexivity | reflexivity | discriminate].
Defined.

End GitFacts.

(** ** Install from a recipe, and upgrade *)

Module UpgradeFacts.
Import Model FS Host Eff EffFacts SrcPkg PipelineFacts InstallFacts Vocabulary Scenarios.

Lemma db_writes_app (t1 t2 : list event) :
  db_writes (t1 ++ t2) = db_writes t1 ++ db_writes t2.
Proof. apply omap_app. Qed.

Lemma db_writes_none (P : event -> Prop) (t : list event) :
  (forall e, P e -> ~ is_db_event e) -> Forall P t -> db_writes t = [].
Proof.
  intros HP. induction 1 as [|e t He _ IH]; [reflexivity|].
  specialize (HP e He). destruct e; simpl in *; try tauto; exact IH.
Qed.

Section WithHost.
Context `{Host}.

Lemma quiet_strip_files (root : path) : quiet is_run (_strip_files root).
Proof.
  unfold _strip_files. repeat first [apply quiet_run; exact I | quiet_step].
Qed.

Lemma quiet_package (meta : PackageMeta) (destdir outdir : path) :
  quiet is_run (package_ meta destdir outdir).
Proof.
  unfold package_.
  repeat first [apply quiet_strip_files | apply quiet_write_file | quiet_step].
Qed.

Lemma install_from_meta_stage (meta : PackageMeta) (w : World) :
  install_from_meta meta w =
    (let* destdir := stage meta in install_package_dir meta destdir;; ret tt) w.
Proof.
  unfold install_from_meta, stage, bind. simpl.
  repeat (case_match; simplify_eq; try reflexivity).
Qed.

Lemma quiet_stage (meta : PackageMeta) :
  quiet (fun e => ~ is_db_event e) (stage meta).
Proof.
  unfold stage.
  apply quiet_bind; [apply quiet_get_fs | intros f].
  apply quiet_bind; [apply quiet_when, quiet_put_fs | intros _].
  apply quiet_bind; [apply quiet_mkdir | intros _].
  apply quiet_bind; [|intros dirs].
  { eapply quiet_weaken; [|apply quiet_build]. intros [] He; simpl in *; tauto. }
  apply quiet_bind; [|intros _; apply quiet_ret].
  eapply quiet_weaken; [|apply quiet_package]. intros [] He; simpl in *; tauto.
Qed.

(** A successful install from a recipe writes one record, the one of the
    recipe, and replaces the record of that name. *)
Lemma install_from_meta_ok (meta : PackageMeta) (w w' : World) :
  install_from_meta meta w = (w', Ok tt) ->
  exists pkg evs,
    w_db w' = <[name meta := pkg]> (w_db w)
    /\ pkg_name pkg = name meta /\ pkg_version pkg = version meta
    /\ depends pkg = dependencies meta /\ recipe pkg = Some meta
    /\ w_trace w' = w_trace w ++ evs /\ db_writes evs = [name meta].
Proof.
  rewrite install_from_meta_stage. intros E.
  apply bind_ok_inv in E as (w1 & destdir & Es & E).
  apply bind_ok_inv in E as (w2 & pkg & Ei & E).
  unfold ret in E. simplify_eq.
  destruct (quiet_stage _ _ _ _ Es) as (D1 & evs1 & T1 & F1).
  destruct (install_package_dir_ok _ _ _ _ _ Ei) as (_ & Hdb & Hn & Hv & Hd & Hr & copies & hooks_run & T2 & Fc & Fh).
  exists pkg, (evs1 ++ copies ++ [EvDbSave (name meta)] ++ hooks_run).
  rewrite Hdb, D1, T2, T1.
  repeat (split; [first [reflexivity | assumption | by rewrite <- app_assoc]|]).
  rewrite !db_writes_app.
  rewrite (db_writes_none _ evs1 (fun e He => He) F1).
  rewrite (db_writes_none is_copy copies) by (auto; intros []; simpl; tauto).
  rewrite (db_writes_none is_run hooks_run) by (auto; intros []; simpl; tauto).
  reflexivity.
Qed.

Lemma upgrade_not_installed (meta : PackageMeta) (w : World) :
  w_db w !! name meta = None ->
  upgrade meta w =
    ({| w_fs := w_fs w; w_db := w_db w; w_trace := w_trace w ++ [EvWarn (name meta)] |},
     Ok tt).
Proof. intros E. unfold upgrade, bind, get_db. rewrite E. reflexivity. Qed.

Lemma upgrade_installed (meta : PackageMeta) (inst : InstalledPkg) (w : World) :
  w_db w !! name meta = Some inst ->
  upgrade meta w =
    if Version.ver_lt (pkg_version inst) (version meta)
    then install_from_meta meta w else (w, Ok tt).
Proof.
  intros E. unfold upgrade, bind, get_db. rewrite E.
  unfold Version.ver_le, Version.ver_lt.
  rewrite VersionFacts.key_le_not_lt.
  destruct (Version.key_lt _ _); reflexivity.
Qed.

(** C6. [upgrade] does nothing but warn when the package is not installed,
    and nothing at all when the version of the recipe is not strictly
    greater than the installed one: no command runs and the world, the
    record included, is as before. Otherwise it is [install_from_meta],
    which, when it returns, has replaced the record by one with the version
    of the recipe. *)
Theorem upgrade_spec (meta : PackageMeta) (w : World) :
  (w_db w !! name meta = None ->
     upgrade meta w =
       ({| w_fs := w_fs w; w_db := w_db w;
           w_trace := w_trace w ++ [EvWarn (name meta)] |}, Ok tt))
  /\ (forall inst,
        w_db w !! name meta = Some inst ->
        Version.ver_lt (pkg_version inst) (version meta) = false ->
        upgrade meta w = (w, Ok tt))
  /\ (forall inst,
        w_db w !! name meta = Some inst ->
        Version.ver_lt (pkg_version inst) (version meta) = true ->
        upgrade meta w = install_from_meta meta w
        /\ forall w', upgrade meta w = (w', Ok tt) ->
             exists pkg evs,
               w_db w' = <[name meta := pkg]> (w_db w)
               /\ pkg_version pkg = version meta /\ recipe pkg = Some meta
               /\ w_trace w' = w_trace w ++ evs /\ db_writes evs = [name meta]).
Proof.
  split; [apply upgrade_not_installed|]. split.
  - intros inst E Hlt. rewrite (upgrade_installed meta inst w E), Hlt. reflexivity.
  - intros inst E Hlt. rewrite (upgrade_installed meta inst w E), Hlt.
    split; [reflexivity|]. intros w' Hok.
    destruct (install_from_meta_ok meta w w' Hok)
      as (pkg & evs & Hdb & _ & Hv & _ & Hr & T & W).
    exists pkg, evs. auto.
Qed.

End WithHost.

Lemma upgrade_spec_witness :
  @upgrade Demo.root_host (Demo.meta_of "other" "1.0" []) pkg_1_2
    = ({| w_fs := w_fs pkg_1_2; w_db := w_db pkg_1_2; w_trace := [EvWarn "other"] |}, Ok tt)
  /\ @upgrade Demo.root_host (Demo.meta_of "pkg" "1.2" []) pkg_1_2 = (pkg_1_2, Ok tt)
  /\ exists w' pkg,
      @upgrade Demo.root_host (Demo.meta_of "pkg" "1.10" []) pkg_1_2 = (w', Ok tt)
      /\ w_db w' !! "pkg" = Some pkg /\ pkg_version pkg = "1.10".
Proof.
  assert (Hold : w_db pkg_1_2 !! "pkg" =
                 Some {| pkg_name := "pkg"; pkg_version := "1.2"; files := [];
                         depends := []; recipe := None |})
    by (vm_compute; reflexivity).
  split; [|split].
  - apply (@upgrade_spec Demo.root_host (Demo.meta_of "other" "1.0" []) pkg_1_2).
    vm_compute. reflexivity.
  - eapply (@upgrade_spec Demo.root_host (Demo.meta_of "pkg" "1.2" []) pkg_1_2);
      [exact Hold | vm_compute; reflexivity].
  - destruct (@upgrade_spec Demo.root_host (Demo.meta_of "pkg" "1.10" []) pkg_1_2)
      as (_ & _ & Hup).
    destruct (Hup _ Hold) as [_ Hok]; [vm_compute; reflexivity|].
    set (run := @upgrade Demo.root_host (Demo.meta_of "pkg" "1.10" []) pkg_1_2) in *.
    assert (E : run = (run.1, Ok tt)) by (apply run_result; vm_compute; reflexivity).
    destruct (Hok _ E) as (pkg & evs & Hdb & Hv & _).
    exists run.1, pkg. split; [exact E|]. split; [|exact Hv].
    rewrite Hdb. apply lookup_insert_eq.
Defined.

End UpgradeFacts.

(** ** Removal *)

Module RemoveFacts.
Import Model FS Host Eff EffFacts SrcPkg PipelineFacts Vocabulary Scenarios.

Lemma sorted_nil {A} (le : A -> A -> bool) (l : list A) : Py.sorted le l = [] -> l = [].
Proof.
  intros E. apply Permutation_nil. rewrite <- E. apply PyFacts.sorted_perm.
Qed.


Lemma filter_none {A} (P : A -> Prop) `{forall x, Decision (P x)} (l : list A) :
  Forall (fun x => ~ P x) l -> filter P l = [].
Proof.
  induction 1 as [|x l Hx _ IH]; [reflexivity|].
  rewrite filter_cons_False by exact Hx. exact IH.
Qed.

(** A directory has no entries when no path of the file system is a child
    of it. *)
Lemma children_nil (f : fs) (d : path) :
  children f d = [] <-> forall q, is_Some (f !! q) -> is_child d q = false.
Proof.
  unfold children. split.
  - intros E q [x Hq]. apply sorted_nil in E.
    destruct (is_child d q) eqn:Ec; [|reflexivity].
    assert (Hin : q ∈ filter (fun p => is_child d p = true) (map fst (map_to_list f))).
    { apply list_elem_of_filter. split; [exact Ec|].
      apply list_elem_of_fmap. exists (q, x). split; [reflexivity|].
      apply elem_of_map_to_list. exact Hq. }
    rewrite E in Hin. inversion Hin.
  - intros Hno.
    assert (E : filter (fun p => is_child d p = true) (map fst (map_to_list f)) = []).
    { apply filter_none. apply Forall_forall. intros q Hq Hc.
      apply list_elem_of_fmap in Hq as ([q' x] & -> & Hq).
      apply elem_of_map_to_list in Hq. simpl in Hc.
      rewrite Hno in Hc by eauto. discriminate. }
    rewrite E. reflexivity.
Qed.

Lemma children_nil_mono (f f' : fs) (d : path) :
  f' ⊆ f -> children f d = [] -> children f' d = [].
Proof.
  rewrite !children_nil. intros Hsub Hno q [x Hq]. apply Hno.
  exists x. eapply lookup_weaken; eauto.
Qed.

Lemma rmdir_ok_mono (f f' : fs) (e : event) : f' ⊆ f -> rmdir_ok f e -> rmdir_ok f' e.
Proof.
  intros Hsub. destruct e; simpl; auto. intros (Hd & Hn & Hc).
  split; [exact Hd|]. split; [|eapply children_nil_mono; eauto].
  destruct (f' !! p) eqn:E; [|reflexivity].
  eapply lookup_weaken in E; eauto. congruence.
Qed.

Section WithHost.
Context `{Host}.

(** The walk from a directory towards the root: the directories removed
    are ancestors, nearest first, none of them the root. *)
Lemma walk_up_spec (rd : list string) (w w' : World) (r : result unit) :
  walk_up rd w = (w', r) ->
  w_db w' = w_db w /\ w_fs w' ⊆ w_fs w /\
  exists ds,
    w_trace w' = w_trace w ++ map EvRmdir ds
    /\ Forall (fun d => d `prefix_of` rev rd) ds
    /\ Forall (rmdir_ok (w_fs w')) (map EvRmdir ds).
Proof.
  revert w. induction rd as [|c rd IH]; intros w E.
  - simpl in E. unfold ret in E. simplify_eq.
    split; [reflexivity|]. split; [reflexivity|]. exists [].
    rewrite app_nil_r. auto.
  - assert (Hstop : (w', r).1 = w ->
              w_db w' = w_db w /\ w_fs w' ⊆ w_fs w /\
              exists ds, w_trace w' = w_trace w ++ map EvRmdir ds
                /\ Forall (fun d => d `prefix_of` rev (c :: rd)) ds
                /\ Forall (rmdir_ok (w_fs w')) (map EvRmdir ds)).
    { simpl. intros ->. split; [reflexivity|]. split; [reflexivity|]. exists [].
      rewrite app_nil_r. auto. }
    cbn [walk_up] in E. unfold bind at 1, get_fs in E. unfold bind at 1 in E.
    destruct (iterdir (w_fs w) (rev (c :: rd))) as [entries|] eqn:Ei;
      [|unfold of_option, raise in E; simplify_eq; auto].
    unfold of_option, ret in E.
    destruct entries as [|e0 entries]; [|simplify_eq; auto].
    unfold bind, rmdir in E.
    destruct (unlink_denied (rev (c :: rd))) eqn:Ed;
      [unfold raise in E; simplify_eq; auto|].
    unfold bind, get_fs, put_fs, emit in E. simpl in E.
    apply IH in E as (Hdb & Hfs & ds & T & Fp & Fo). simpl in Hdb, Hfs, T.
    assert (Hsub : w_fs w' ⊆ w_fs w).
    { etrans; [exact Hfs|]. apply delete_subseteq. }
    split; [exact Hdb|]. split; [exact Hsub|].
    exists (rev (c :: rd) :: ds). split; [rewrite T, <- app_assoc; reflexivity|].
    split.
    + constructor; [reflexivity|].
      eapply Forall_impl; [exact Fp|]. intros d Hd. simpl.
      etrans; [exact Hd|]. apply prefix_app_r. reflexivity.
    + simpl. constructor; [|exact Fo]. simpl.
      split; [simpl; intros Hnil; apply app_eq_nil in Hnil as [_ [=]]|].
      split.
      * destruct (w_fs w' !! rev (c :: rd)) eqn:El; [|exact El].
        eapply lookup_weaken in El; [|exact Hfs]. rewrite lookup_delete_eq in El.
        discriminate.
      * eapply children_nil_mono; [exact Hsub|].
        unfold iterdir in Ei.
        destruct (lookup_node _ _) as [[]|]; try discriminate.
        injection Ei as Ei. exact Ei.
Qed.

Lemma suppress_ok (m : M unit) (w : World) : (suppress m w).2 = Ok tt.
Proof.
  unfold suppress, try_except. destruct (m w) as [w' [[]|e]]; reflexivity.
Qed.

Lemma suppress_world (m : M unit) (w : World) : (suppress m w).1 = (m w).1.
Proof.
  unfold suppress, try_except. destruct (m w) as [w' [[]|e]]; reflexivity.
Qed.

Lemma remove_path_spec (p : path) (w : World) :
  exists w',
    remove_path p w = (w', Ok tt)
    /\ w_db w' = w_db w /\ w_fs w' ⊆ w_fs w
    /\ exists evs,
        w_trace w' = w_trace w ++ evs
        /\ path_events p evs /\ Forall (rmdir_ok (w_fs w')) evs.
Proof.
  assert (Hwalk : forall w0 pre,
    w_db w0 = w_db w -> w_fs w0 ⊆ w_fs w -> w_trace w0 = w_trace w ++ pre ->
    (pre = [] \/ pre = [EvUnlink p]) ->
    exists w',
      suppress (walk_up (rev (parent p))) w0 = (w', Ok tt)
      /\ w_db w' = w_db w /\ w_fs w' ⊆ w_fs w
      /\ exists evs, w_trace w' = w_trace w ++ evs
          /\ path_events p evs /\ Forall (rmdir_ok (w_fs w')) evs).
  { intros w0 pre Hdb Hfs Htr Hpre.
    pose proof (suppress_ok (walk_up (rev (parent p))) w0) as Hok.
    pose proof (suppress_world (walk_up (rev (parent p))) w0) as Hw.
    destruct (suppress (walk_up (rev (parent p))) w0) as [w' r]. simpl in Hok, Hw.
    subst r. exists w'. split; [reflexivity|].
    destruct (walk_up (rev (parent p)) w0) as [w1 r1] eqn:E. simpl in Hw. subst w1.
    apply walk_up_spec in E as (Hdb' & Hfs' & ds & T & Fp & Fo).
    rewrite rev_involutive in Fp.
    split; [congruence|]. split; [etrans; eauto|].
    exists (pre ++ map EvRmdir ds). split; [rewrite T, Htr, app_assoc; reflexivity|].
    split; [exists pre, ds; intuition|].
    apply Forall_app. split; [|exact Fo].
    destruct Hpre as [->| ->]; repeat constructor. }
  unfold remove_path, try_except. unfold bind at 1, get_fs. unfold bind at 1.
  destruct (is_file (w_fs w) p || is_symlink (w_fs w) p); simpl when.
  - unfold unlink. destruct (unlink_denied p).
    + unfold raise, emit. eexists. split; [reflexivity|]. simpl.
      split; [reflexivity|]. split; [reflexivity|].
      exists [EvWarn (path_str p)]. split; [reflexivity|].
      split; [|repeat constructor].
      exists [EvWarn (path_str p)], []. intuition.
    + unfold bind, get_fs, put_fs, emit. simpl.
      destruct (Hwalk {| w_fs := delete p (w_fs w); w_db := w_db w;
                         w_trace := w_trace w ++ [EvUnlink p] |} [EvUnlink p])
        as (w' & E & R); [reflexivity | apply delete_subseteq | reflexivity | auto |].
      rewrite E. eauto.
  - unfold ret.
    destruct (Hwalk w []) as (w' & E & R);
      [reflexivity | reflexivity | by rewrite app_nil_r | auto |].
    rewrite E. eauto.
Qed.

Lemma remove_paths_spec (l : list path) (w : World) :
  exists w',
    for_ l remove_path w = (w', Ok tt)
    /\ w_db w' = w_db w /\ w_fs w' ⊆ w_fs w
    /\ exists segs,
        w_trace w' = w_trace w ++ concat segs
        /\ Forall2 path_events l segs
        /\ Forall (rmdir_ok (w_fs w')) (concat segs).
Proof.
  revert w. induction l as [|p l IH]; intros w.
  - exists w. split; [reflexivity|]. split; [reflexivity|]. split; [reflexivity|].
    exists []. simpl. rewrite app_nil_r. auto.
  - destruct (remove_path_spec p w) as (w1 & E1 & D1 & S1 & evs & T1 & P1 & O1).
    destruct (IH w1) as (w' & E2 & D2 & S2 & segs & T2 & P2 & O2).
    exists w'. simpl. unfold bind. rewrite E1, E2.
    split; [reflexivity|]. split; [congruence|]. split; [etrans; eauto|].
    exists (evs :: segs). simpl.
    split; [rewrite T2, T1, app_assoc; reflexivity|].
    split; [constructor; assumption|].
    apply Forall_app. split; [|exact O2].
    eapply Forall_impl; [exact O1|]. intros e. apply rmdir_ok_mono. exact S2.
Qed.

Lemma run_hooks_spec (lines : list string) (w : World) :
  exists w',
    _run_hooks lines w = (w', Ok tt)
    /\ w_db w' = w_db w /\ w_trace w' = w_trace w ++ map hook_event lines.
Proof.
  unfold _run_hooks. revert w. induction lines as [|line lines IH]; intros w.
  - exists w. simpl. rewrite app_nil_r. auto.
  - simpl. unfold bind. rewrite run_run. simpl.
    match goal with |- context [for_ lines ?b ?w1] => destruct (IH w1) as (w' & E & D & T) end.
    exists w'. rewrite E. split; [reflexivity|]. split; [exact D|].
    rewrite T. simpl. rewrite <- app_assoc. reflexivity.
Qed.

Lemma run_global_hooks_spec (which_dir n : string) (w : World) :
  exists w',
    _run_global_hooks which_dir n w = (w', Ok tt)
    /\ w_db w' = w_db w
    /\ exists evs, w_trace w' = w_trace w ++ evs /\ Forall (global_hook_event n) evs.
Proof.
  unfold _run_global_hooks, bind at 1, get_fs.
  assert (Hnone : exists w', (w, Ok tt) = (w', Ok tt) /\ w_db w' = w_db w /\
            exists evs, w_trace w' = w_trace w ++ evs /\ Forall (global_hook_event n) evs).
  { exists w. split; [reflexivity|]. split; [reflexivity|].
    exists []. rewrite app_nil_r. auto. }
  destruct (exists_ _ _); [|exact Hnone]. clear Hnone.
  generalize (children (w_fs w) (join HOOKS_DIR (which_dir +:+ ".d"))).
  intros l. revert w. induction l as [|hook l IH]; intros w.
  - exists w. split; [reflexivity|]. split; [reflexivity|].
    exists []. rewrite app_nil_r. auto.
  - simpl. unfold bind at 1. unfold bind at 1, get_fs.
    destruct (access_x (w_fs w) hook); simpl when.
    + rewrite run_run. simpl.
      match goal with |- context [for_ l ?b ?w1] =>
        destruct (IH w1) as (w' & E & D & evs & T & F) end.
      exists w'. split; [exact E|]. split; [exact D|].
      eexists (_ :: evs). split; [rewrite T; simpl; rewrite <- app_assoc; reflexivity|].
      constructor; [eexists; reflexivity | exact F].
    + unfold ret. destruct (IH w) as (w' & E & R). exists w'. split; [exact E | exact R].
Qed.



Lemma remove_not_installed (n : string) (w : World) :
  w_db w !! n = None ->
  remove n w =
    ({| w_fs := w_fs w; w_db := w_db w; w_trace := w_trace w ++ [EvWarn n] |}, Ok tt).
Proof. intros E. unfold remove, bind, get_db. rewrite E. reflexivity. Qed.

Lemma remove_installed (n : string) (pkg : InstalledPkg) (w : World) :
  w_db w !! n = Some pkg ->
  exists w' f1 segs global_evs,
    remove n w = (w', Ok tt)
    /\ w_db w' = delete n (w_db w)
    /\ w_trace w' =
         w_trace w ++ concat segs ++ map hook_event (post_remove_hooks pkg)
           ++ global_evs ++ [EvDbUnlink n]
    /\ Forall2 path_events (Py.sorted longer_first (files pkg)) segs
    /\ f1 ⊆ w_fs w /\ Forall (rmdir_ok f1) (concat segs)
    /\ Forall (global_hook_event n) global_evs.
Proof.
  intros E. unfold remove. unfold bind at 1, get_db. rewrite E.
  destruct (remove_paths_spec (Py.sorted longer_first (files pkg)) w)
    as (w1 & E1 & D1 & S1 & segs & T1 & P1 & O1).
  destruct (run_hooks_spec (post_remove_hooks pkg) w1) as (w2 & E2 & D2 & T2).
  destruct (run_global_hooks_spec "post-remove" n w2) as (w3 & E3 & D3 & gevs & T3 & F3).
  unfold bind. rewrite E1, E2, E3.
  eexists _, (w_fs w1), segs, gevs. split; [reflexivity|]. simpl.
  split; [congruence|].
  split; [rewrite T3, T2, T1, <- !app_assoc; reflexivity|].
  auto.
Qed.




End WithHost.

Example remove_hello_trace :
  w_trace (@remove Demo.root_host "hello" hello_installed).1 =
    [EvUnlink ["usr"; "share"; "hello"; "README"];
     EvRmdir ["usr"; "share"; "hello"];
     EvRmdir ["usr"; "share"];
     EvUnlink ["usr"; "bin"; "hello"];
     EvDbUnlink "hello"].
Proof. vm_compute. reflexivity. Qed.

Example remove_locked_trace :
  let run := @remove locked_host "hello" hello_installed in
  (run.2, w_trace run.1, w_db run.1 !! "hello") =
    (Ok tt,
     [EvUnlink ["usr"; "share"; "hello"; "README"];
      EvRmdir ["usr"; "share"; "hello"];
      EvRmdir ["usr"; "share"];
      EvWarn "/usr/bin/hello";
      EvDbUnlink "hello"],
     None).
Proof. vm_compute. reflexivity. Qed.


End RemoveFacts.

(** ** The errors of the pipeline *)

Module ErrorFacts.
Import Model FS Host Eff EffFacts SrcPkg Vocabulary Scenarios.

Lemma bind_raise_inv {A B} (m : M A) (k : A -> M B) (w w' : World) (e : error) :
  bind m k w = (w', Raise e) ->
  m w = (w', Raise e) \/ exists w1 a, m w = (w1, Ok a) /\ k a w1 = (w', Raise e).
Proof.
  unfold bind. destruct (m w) as [w1 [a|e1]]; [eauto|].
  intros [= <- <-]. auto.
Qed.

Section Raises.
Context (E : error -> Prop).

Lemma raises_ret {A} (a : A) : raises E (ret a).
Proof. intros w w' e [=]. Qed.

Lemma raises_raise {A} (e : error) : E e -> raises E (@raise A e).
Proof. intros He w w' e' [= <- <-]. exact He. Qed.

Lemma raises_bind {A B} (m : M A) (k : A -> M B) :
  raises E m -> (forall a, raises E (k a)) -> raises E (bind m k).
Proof.
  intros Hm Hk w w' e Hb.
  apply bind_raise_inv in Hb as [Hb|(w1 & a & _ & Hb)];
    [eapply Hm | eapply Hk]; eassumption.
Qed.

Lemma raises_try_except {A} (m : M A) (h : error -> M A) :
  (forall e, raises E (h e)) -> raises E (try_except m h).
Proof.
  intros Hh w w' e. unfold try_except.
  destruct (m w) as [w1 [a|e1]]; [discriminate|]. apply Hh.
Qed.

Lemma raises_suppress (m : M unit) : raises E (suppress m).
Proof. apply raises_try_except. intros _. apply raises_ret. Qed.

Lemma raises_emit (ev : event) : raises E (emit ev).
Proof. intros w w' e [=]. Qed.

Lemma raises_get_fs : raises E get_fs.
Proof. intros w w' e [=]. Qed.

Lemma raises_put_fs (f : fs) : raises E (put_fs f).
Proof. intros w w' e [=]. Qed.

Lemma raises_get_db : raises E get_db.
Proof. intros w w' e [=]. Qed.

Lemma raises_put_db (d : gmap string InstalledPkg) : raises E (put_db d).
Proof. intros w w' e [=]. Qed.

Lemma raises_when (b : bool) (m : M unit) : raises E m -> raises E (when b m).
Proof. destruct b; simpl; [auto | intros _; apply raises_ret]. Qed.

Lemma raises_for {A} (l : list A) (body : A -> M unit) :
  (forall x, raises E (body x)) -> raises E (for_ l body).
Proof.
  intros Hb. induction l as [|x l IH]; simpl.
  - apply raises_ret.
  - apply raises_bind; [apply Hb | intros _; exact IH].
Qed.
End Raises.

Create HintDb raises.
#[export] Hint Resolve raises_ret raises_emit raises_get_fs raises_put_fs raises_get_db
  raises_put_db raises_suppress : raises.

Ltac raises_step :=
  lazymatch goal with
  | |- raises _ (bind _ _) => apply raises_bind; [|intros ?]
  | |- raises _ (for_ _ _) => apply raises_for; intros ?
  | |- raises _ (when _ _) => apply raises_when
  | |- raises _ (raise _) => apply raises_raise; exact I
  | |- raises _ (of_option _ _) => unfold of_option
  | |- raises _ (mkdir _) => unfold mkdir
  | |- raises _ (match ?x with _ => _ end) => destruct x
  | |- raises _ (let (_, _) := ?x in _) => destruct x
  | |- raises _ _ => solve [eauto with raises]
  end.

Section WithHost.
Context `{Host}.

Ltac unfold_pipeline :=
  unfold install_from_meta, install_package_dir, save, _run_global_hooks, _run_hooks,
    _copy_tree, package_, _strip_files, build_, run_phases, run_script,
    apply_patches, fetch_patch, extract, unpack, download, verify_sha256,
    fetch_to_cache, compute_sha256, copy2, write_file, run.

Lemma raises_copy_entries (src dst : path) (entries : list path) :
  raises pipeline_error (copy_entries src dst entries).
Proof.
  induction entries as [|p rest IH]; simpl; [apply raises_ret|].
  unfold_pipeline. repeat first [exact IH | raises_step].
Qed.

(** An install from a recipe does not raise the errors of the resolver. *)
Lemma raises_install_from_meta (meta : PackageMeta) :
  raises pipeline_error (install_from_meta meta).
Proof.
  unfold_pipeline. repeat first [apply raises_copy_entries | raises_step].
Qed.

End WithHost.
End ErrorFacts.

(** ** The dependency resolver *)

Module ResolveFacts.
Import Model FS Host Eff EffFacts SrcPkg PipelineFacts InstallFacts UpgradeFacts ErrorFacts Vocabulary Scenarios.

Section WithHost.
Context `{Host}.

Lemma ordered_app (D : gset string) (ws1 ws2 : list string) :
  ordered D ws1 -> ordered (list_to_set ws1 ∪ D) ws2 -> ordered D (ws1 ++ ws2).
Proof.
  induction 1 as [D|D d ws Hn Hd _ IH]; simpl.
  - intros H2. replace (∅ ∪ D) with D in H2 by set_solver. exact H2.
  - intros H2. constructor; [exact Hn | exact Hd|]. apply IH.
    replace (list_to_set ws ∪ ({[d]} ∪ D)) with ({[d]} ∪ list_to_set ws ∪ D)
      by set_solver.
    exact H2.
Qed.

Lemma ordered_lookup (D : gset string) (ws : list string) (i : nat) (d : string) :
  ordered D ws -> ws !! i = Some d ->
  ((d ∉ D) /\ (d ∉ take i ws))
  /\ forall m e, find_recipe d = Some m -> e ∈ dependencies m ->
       e ∈ D \/ e ∈ take i ws.
Proof.
  intros Ho. revert i. induction Ho as [D|D d0 ws Hn Hd _ IH]; intros i Hi.
  - discriminate.
  - destruct i as [|i]; simpl in *.
    + injection Hi as ->. split; [split; [exact Hn | apply not_elem_of_nil]|].
      intros m e Hm He. left. eauto.
    + destruct (IH i Hi) as [[Hn1 Hn2] Hdeps]. split.
      * split; [set_solver|]. rewrite not_elem_of_cons. split; [set_solver | exact Hn2].
      * intros m e Hm He. destruct (Hdeps m e Hm He) as [Hin|Hin]; [|right; set_solver].
        apply elem_of_union in Hin as [Hin|Hin]; [right|left; exact Hin].
        apply elem_of_singleton in Hin as ->. apply list_elem_of_here.
Qed.

Section Acyclic.
Context (rank : string -> nat).
Hypothesis names_ok : forall d m, find_recipe d = Some m -> name m = d.
Hypothesis acyclic :
  forall d m e, find_recipe d = Some m -> e ∈ dependencies m -> rank e < rank d.

Lemma install_inst (meta : PackageMeta) (w w' : World) :
  install_from_meta meta w = (w', Ok tt) ->
  inst w' = {[ name meta ]} ∪ inst w
  /\ exists evs, w_trace w' = w_trace w ++ evs /\ db_writes evs = [name meta].
Proof.
  intros E. apply install_from_meta_ok in E
    as (pkg & evs & Hdb & _ & _ & _ & _ & T & W).
  split; [|eauto]. unfold inst. rewrite Hdb. apply dom_insert_L.
Qed.

Lemma loop_ok (k : nat) (R : nat) :
  resolve_ok rank k ->
  forall l v w w' v',
    (forall e, e ∈ l -> rank e < R) ->
    (forall x, x ∈ v -> x ∈ inst w \/ R <= rank x) ->
    fold_m l v (dep_step (_resolve_deps_install_first k)) w = (w', Ok v') ->
    (forall x, x ∈ v' -> x ∈ v \/ x ∈ inst w')
    /\ (forall e, e ∈ l -> e ∈ inst w')
    /\ resolved rank R w w'.
Proof.
  intros IHk. induction l as [|e l IHl]; intros v w w' v' Hrank Hinv E.
  - simpl in E. unfold ret in E. simplify_eq.
    split; [auto|]. split; [set_solver|].
    exists []. rewrite app_nil_r. simpl. split; [reflexivity|].
    split; [set_solver|]. split; constructor.
  - simpl in E. apply bind_ok_inv in E as (w1 & v1 & Estep & E).
    assert (Hre : rank e < R) by (apply Hrank; set_solver).
    unfold dep_step in Estep. unfold bind at 1, get_db in Estep.
    destruct (w_db w !! e) as [p|] eqn:Edb.
    + unfold ret in Estep. injection Estep as <- <-.
      destruct (IHl v w w' v') as (Hv & Hl & Hres); [set_solver | exact Hinv | exact E |].
      split; [exact Hv|]. split; [|exact Hres].
      intros e' He'. apply elem_of_cons in He' as [->|He']; [|auto].
      destruct Hres as (evs & _ & Hi & _). rewrite Hi.
      apply elem_of_union_r. apply elem_of_dom. eauto.
    + destruct (find_recipe e) as [dm|] eqn:Er; [|discriminate].
      apply bind_ok_inv in Estep as (w2 & v2 & Erec & Estep).
      apply bind_ok_inv in Estep as (w3 & [] & Einst & Estep).
      unfold ret in Estep. injection Estep as <- <-.
      pose proof (names_ok _ _ Er) as Hn.
      assert (Hnot : e ∉ inst w) by (unfold inst; apply not_elem_of_dom; exact Edb).
      destruct (IHk dm v w w2 v2) as (Hv1 & Hd1 & (evs1 & T1 & I1 & B1 & O1)).
      { rewrite Hn. intros e' He'. eapply acyclic; eauto. }
      { rewrite Hn. intros Hin. destruct (Hinv _ Hin); [contradiction | lia]. }
      { rewrite Hn. intros x Hx. destruct (Hinv _ Hx); [auto | right; lia]. }
      { exact Erec. }
      destruct (install_inst _ _ _ Einst) as (I2 & evs2 & T2 & W2). rewrite Hn in *.
      destruct (IHl v2 w3 w' v') as (Hv & Hl & (evs3 & T3 & I3 & B3 & O3)).
      { set_solver. }
      { intros x Hx. rewrite I2. destruct (Hv1 _ Hx) as [Hx'|[->|Hx']].
        - destruct (Hinv _ Hx'); [left; set_solver | auto].
        - left. set_solver.
        - left. set_solver. }
      { exact E. }
      split; [|split].
      * intros x Hx. destruct (Hv _ Hx) as [Hx'|Hx']; [|auto].
        destruct (Hv1 _ Hx') as [?|[->|?]]; [auto | |]; right; rewrite I3, I2; set_solver.
      * intros e' He'. apply elem_of_cons in He' as [->|He']; [|auto].
        rewrite I3, I2. set_solver.
      * exists (evs1 ++ evs2 ++ evs3).
        split; [rewrite T3, T2, T1, <- !app_assoc; reflexivity|].
        rewrite !db_writes_app, W2.
        split; [rewrite I3, I2, I1, !list_to_set_app_L; set_solver|].
        split.
        { apply Forall_app. split; [|constructor; [exact Hre | exact B3]].
          eapply Forall_impl; [exact B1|]. intros d Hd. simpl in Hd. lia. }
        apply ordered_app; [exact O1|]. rewrite <- I1. simpl.
        constructor.
        { rewrite I1. intros Hin. apply elem_of_union in Hin as [Hin|Hin]; [|contradiction].
          apply elem_of_list_to_set in Hin. rewrite Forall_forall in B1.
          apply B1 in Hin. lia. }
        { intros m e' Hm He'. rewrite Er in Hm. injection Hm as <-. auto. }
        rewrite <- I2. exact O3.
Qed.

Lemma resolve_ok_all (depth : nat) : resolve_ok rank depth.
Proof.
  induction depth as [|k IH]; intros meta visited w w' v' Hdeps Hnv Hvis E.
  - discriminate.
  - simpl in E. destruct (decide (name meta ∈ visited)); [contradiction|].
    destruct (loop_ok k (rank (name meta)) IH (dependencies meta)
                ({[ name meta ]} ∪ visited) w w' v' Hdeps) as (Hv & Hl & Hres).
    { intros x Hx. apply elem_of_union in Hx as [Hx|Hx].
      - apply elem_of_singleton in Hx as ->. right. lia.
      - destruct (Hvis _ Hx); [auto | right; lia]. }
    { exact E. }
    split; [|split; [exact Hl | exact Hres]].
    intros x Hx. destruct (Hv _ Hx) as [Hx'|Hx']; [set_solver | auto].
Qed.

(** With a depth above the rank of the recipe the recursion does not run
    out: the resolver raises only what the pipeline raises, or reports a
    dependency that has no recipe. *)
Lemma resolve_raises (depth : nat) :
  forall meta visited w w' e,
    (forall d, d ∈ dependencies meta -> rank d < rank (name meta)) ->
    rank (name meta) < depth ->
    _resolve_deps_install_first depth meta visited w = (w', Raise e) ->
    resolver_error e.
Proof.
  induction depth as [|k IH]; intros meta visited w w' e Hdeps Hdepth E; [lia|].
  simpl in E. destruct (decide (name meta ∈ visited)); [discriminate|].
  assert (Hl : forall d, d ∈ dependencies meta -> rank d < k)
    by (intros d Hd; specialize (Hdeps d Hd); lia).
  clear Hdeps Hdepth. revert E Hl.
  generalize ({[ name meta ]} ∪ visited) as v. generalize (dependencies meta) as l.
  intros l. revert w. induction l as [|d l IHl]; intros w v E Hl; [discriminate|].
  simpl in E. apply bind_raise_inv in E as [E|(w1 & v1 & _ & E)].
  - unfold dep_step in E. unfold bind at 1, get_db in E.
    destruct (w_db w !! d); [discriminate|].
    destruct (find_recipe d) as [dm|] eqn:Er.
    + pose proof (names_ok _ _ Er) as Hn.
      apply bind_raise_inv in E as [E|(w2 & v2 & _ & E)].
      * eapply IH; [| |exact E]; rewrite Hn.
        -- intros d' Hd'. eapply acyclic; eauto.
        -- apply Hl. set_solver.
      * apply bind_raise_inv in E as [E|(w3 & [] & _ & E)]; [|discriminate].
        left. eapply raises_install_from_meta. exact E.
    + unfold raise in E. injection E as <- <-. right. eauto.
  - eapply IHl; [exact E|]. intros d' Hd'. apply Hl. set_solver.
Qed.

Lemma dep_step_installed (resolve : PackageMeta -> gset string -> M (gset string))
    (visited : gset string) (dep : string) (w : World) :
  is_Some (w_db w !! dep) -> dep_step resolve visited dep w = (w, Ok visited).
Proof.
  intros [p Hp]. unfold dep_step, bind, get_db. rewrite Hp. reflexivity.
Qed.

Lemma dep_step_unresolved (resolve : PackageMeta -> gset string -> M (gset string))
    (visited : gset string) (dep : string) (w : World) :
  w_db w !! dep = None -> find_recipe dep = None ->
  dep_step resolve visited dep w = (w, Raise (UnresolvedDependency dep)).
Proof.
  intros Hp Hr. unfold dep_step, bind, get_db. rewrite Hp, Hr. reflexivity.
Qed.

Lemma cmd_install_ok (depth : nat) (meta : PackageMeta) (w w' : World) :
  (forall e, e ∈ dependencies meta -> rank e < rank (name meta)) ->
  cmd_install depth meta w = (w', Ok tt) ->
  exists evs deps_written,
    w_trace w' = w_trace w ++ evs
    /\ db_writes evs = deps_written ++ [name meta]
    /\ inst w' = {[ name meta ]} ∪ list_to_set deps_written ∪ inst w
    /\ (forall e, e ∈ dependencies meta -> e ∈ inst w \/ e ∈ deps_written)
    /\ (forall i d, deps_written !! i = Some d ->
          ((d ∉ inst w) /\ (d ∉ take i deps_written))
          /\ forall m e, find_recipe d = Some m -> e ∈ dependencies m ->
               e ∈ inst w \/ e ∈ take i deps_written).
Proof.
  intros Hdeps E. unfold cmd_install in E.
  apply bind_ok_inv in E as (w1 & v1 & Er & Ei).
  destruct (resolve_ok_all depth meta ∅ w w1 v1) as (_ & Hd & evs1 & T1 & I1 & _ & O1);
    [exact Hdeps | set_solver | set_solver | exact Er |].
  destruct (install_inst _ _ _ Ei) as (I2 & evs2 & T2 & W2).
  exists (evs1 ++ evs2), (db_writes evs1).
  split; [rewrite T2, T1, <- app_assoc; reflexivity|].
  split; [rewrite db_writes_app, W2; reflexivity|].
  split; [rewrite I2, I1; set_solver|].
  split.
  - intros e He. specialize (Hd e He). rewrite I1 in Hd. set_solver.
  - intros i d Hi. exact (ordered_lookup _ _ i d O1 Hi).
Qed.

Lemma cmd_install_raises (depth : nat) (meta : PackageMeta) (w w' : World) (e : error) :
  (forall d, d ∈ dependencies meta -> rank d < rank (name meta)) ->
  rank (name meta) < depth ->
  cmd_install depth meta w = (w', Raise e) -> resolver_error e.
Proof.
  intros Hdeps Hdepth E. unfold cmd_install in E.
  apply bind_raise_inv in E as [E|(w1 & v1 & _ & E)].
  - eapply resolve_raises; eauto.
  - left. eapply raises_install_from_meta. exact E.
Qed.

(** C5 (amended). When the recipes are found under their own names and the
    dependency graph is acyclic, an install that returns has written the
    records of the dependencies that were not installed, each one after all
    the dependencies of its recipe were installed, and the record of the
    target last. A dependency that is installed when its turn comes is
    skipped without a lookup of its recipe; one that is not installed and
    has no recipe raises the error of an unresolved dependency, and no
    other name is reported by that error. *)
Theorem dependencies_installed_first (depth : nat) (meta : PackageMeta) (w : World) :
  (forall e, e ∈ dependencies meta -> rank e < rank (name meta)) ->
  rank (name meta) < depth ->
  (forall w', cmd_install depth meta w = (w', Ok tt) ->
     exists evs deps_written,
       w_trace w' = w_trace w ++ evs
       /\ db_writes evs = deps_written ++ [name meta]
       /\ inst w' = {[ name meta ]} ∪ list_to_set deps_written ∪ inst w
       /\ (forall e, e ∈ dependencies meta -> e ∈ inst w \/ e ∈ deps_written)
       /\ (forall i d, deps_written !! i = Some d ->
             ((d ∉ inst w) /\ (d ∉ take i deps_written))
             /\ forall m e, find_recipe d = Some m -> e ∈ dependencies m ->
                  e ∈ inst w \/ e ∈ take i deps_written))
  /\ (forall w' e, cmd_install depth meta w = (w', Raise e) -> resolver_error e)
  /\ (forall resolve visited dep,
        is_Some (w_db w !! dep) -> dep_step resolve visited dep w = (w, Ok visited))
  /\ (forall resolve visited dep,
        w_db w !! dep = None -> find_recipe dep = None ->
        dep_step resolve visited dep w = (w, Raise (UnresolvedDependency dep))).
Proof.
  intros Hdeps Hdepth. split; [|split; [|split]].
  - intros w'. apply cmd_install_ok. exact Hdeps.
  - intros w' e. apply cmd_install_raises; assumption.
  - intros resolve visited dep. apply dep_step_installed.
  - intros resolve visited dep. apply dep_step_unresolved.
Qed.

End Acyclic.
End WithHost.

(** *** Scenario S3 on the example host *)

Lemma chain_names (d : string) (m : PackageMeta) : Demo.chain d = Some m -> name m = d.
Proof.
  unfold Demo.chain.
  destruct (String.eqb_spec d "a") as [->|?]; [intros [= <-]; reflexivity|].
  destruct (String.eqb_spec d "b") as [->|?]; [intros [= <-]; reflexivity|].
  destruct (String.eqb_spec d "c") as [->|?]; [intros [= <-]; reflexivity|].
  discriminate.
Qed.

Lemma chain_acyclic (d : string) (m : PackageMeta) (e : string) :
  Demo.chain d = Some m -> e ∈ dependencies m -> chain_rank e < chain_rank d.
Proof.
  unfold Demo.chain.
  destruct (String.eqb_spec d "a") as [->|?];
    [intros [= <-] He; apply list_elem_of_singleton in He as ->; vm_compute; lia|].
  destruct (String.eqb_spec d "b") as [->|?];
    [intros [= <-] He; apply list_elem_of_singleton in He as ->; vm_compute; lia|].
  destruct (String.eqb_spec d "c") as [->|?]; [intros [= <-] He; inversion He|].
  discriminate.
Qed.

Example chain_writes :
  let run := @cmd_install Demo.root_host 3 recipe_a Demo.world0 in
  (run.2, db_writes (w_trace run.1)) = (Ok tt, ["c"; "b"; "a"]).
Proof. vm_compute. reflexivity. Qed.

Lemma dependencies_installed_first_witness :
  let run := @cmd_install Demo.root_host 3 recipe_a Demo.world0 in
  exists deps_written,
    db_writes (w_trace run.1) = deps_written ++ ["a"]
    /\ inst run.1 = {[ "a" ]} ∪ list_to_set deps_written ∪ inst Demo.world0.
Proof.
  intros run.
  assert (E : run = (run.1, Ok tt))
    by (apply run_result; exact (f_equal fst chain_writes)).
  destruct (@dependencies_installed_first Demo.root_host chain_rank
              chain_names chain_acyclic 3 recipe_a Demo.world0) as (Hok & _).
  - intros e He. apply list_elem_of_singleton in He as ->. vm_compute. lia.
  - vm_compute. lia.
  - destruct (Hok _ E) as (evs & deps_written & T & W & I & _).
    exists deps_written. split; [|exact I].
    rewrite T. exact W.
Defined.

(** *** A cycle *)

(** C5 as stated fails when [a] depends on [b] and [b] on [a]: the install
    of [a] returns after the writes [a], [b], [a]; the first record written
    is that of [a], whose dependency [b] is not installed at that time. *)
Lemma install_order_counterexample :
  let run := @cmd_install cyclic_host 5 recipe_a Demo.world0 in
  let writes := db_writes (w_trace run.1) in
  run.2 = Ok tt
  /\ writes = ["a"; "b"; "a"]
  /\ ~ (forall i d m e,
          writes !! i = Some d -> cycle d = Some m -> e ∈ dependencies m ->
          e ∈ inst Demo.world0 \/ e ∈ take i writes).
Proof.
  intros run writes.
  assert (E : (run.2, writes) = (Ok tt, ["a"; "b"; "a"])) by (vm_compute; reflexivity).
  clearbody writes. clearbody run. injection E as E2 E.
  split; [exact E2|]. split; [exact E|].
  rewrite E. clear. intros Hall.
  destruct (Hall 0 "a" (Demo.meta_of "a" "1.0" ["b"]) "b") as [Hin|Hin];
    [reflexivity | reflexivity | apply list_elem_of_here | |].
  - unfold inst, Demo.world0 in Hin. simpl in Hin. rewrite dom_empty_L in Hin.
    exact (not_elem_of_empty _ Hin).
  - simpl in Hin. inversion Hin.
Qed.

End ResolveFacts.

(* ===================================================================== *)
(** * Part III: further properties of the code *)
(* ===================================================================== *)

(** ** Hashing a file in blocks *)

Module StreamFacts.
Import Model FS Host Eff EffFacts SrcPkg PipelineFacts Vocabulary Scenarios.

Lemma read_chunks_bound (fuel n : nat) (data : list Byte.byte) :
  Forall (fun c => 0 < length c <= n) (read_chunks fuel n data).
Proof.
  revert data. induction fuel as [|k IH]; intros data; simpl; [constructor|].
  destruct (firstn n data) as [|b c] eqn:E; [constructor|].
  constructor; [|apply IH].
  rewrite <- E. split; [rewrite E; simpl; lia | apply firstn_le_length].
Qed.

Section WithHost.
Context `{Host}.

(** X1. [compute_sha256] reads the file in blocks of at most 1 MiB, none of
    them empty, which together are the bytes of the file, and returns the
    digest of the whole file: the size of the blocks does not matter. The
    file system and the database are left as they are. A path that cannot
    be read raises the error of the library. *)
Theorem compute_sha256_in_blocks (p : path) (w : World) :
  (forall data,
      read_bytes (w_fs w) p = Some data ->
      let blocks := read_chunks (S (length data)) CHUNK data in
      concat blocks = data
      /\ Forall (fun c => 0 < length c <= CHUNK) blocks
      /\ (forall n, 0 < n -> digest_chunked n data = sha256_hex data)
      /\ compute_sha256 p w = (with_event w (EvSha256 p), Ok (sha256_hex data)))
  /\ (read_bytes (w_fs w) p = None ->
      compute_sha256 p w = (with_event w (EvSha256 p), Raise (OSError p))).
Proof.
  split.
  - intros data Hd blocks. split; [|split; [|split]].
    + apply concat_read_chunks; [apply CHUNK_pos | lia].
    + apply read_chunks_bound.
    + intros n Hn. apply digest_chunked_eq. exact Hn.
    + unfold compute_sha256, bind, emit, get_fs, of_option, ret. simpl.
      rewrite Hd. rewrite digest_chunked_eq by apply CHUNK_pos. reflexivity.
  - intros Hd. unfold compute_sha256, bind, emit, get_fs, of_option, raise. simpl.
    rewrite Hd. reflexivity.
Qed.

End WithHost.

Lemma compute_sha256_in_blocks_witness :
  @compute_sha256 Demo.root_host hello_zip Demo.world0
  = (with_event Demo.world0 (EvSha256 hello_zip), Ok "abc")
  /\ @compute_sha256 Demo.root_host ["nowhere"] Demo.world0
     = (with_event Demo.world0 (EvSha256 ["nowhere"]), Raise (OSError ["nowhere"])).
Proof.
  destruct (@compute_sha256_in_blocks Demo.root_host hello_zip Demo.world0) as [Hok _].
  destruct (@compute_sha256_in_blocks Demo.root_host ["nowhere"] Demo.world0) as [_ Hno].
  split.
  - destruct (Hok Demo.abc) as (_ & _ & _ & E); [vm_compute; reflexivity|]. exact E.
  - apply Hno. vm_compute. reflexivity.
Defined.

End StreamFacts.

(** ** Hooks *)

Module HookFacts.
Import Model FS Host Eff EffFacts SrcPkg PipelineFacts Vocabulary Scenarios.






Lemma children_are_children (f : fs) (d : path) :
  Forall (fun p => p <> [] /\ parent p = d /\ is_Some (f !! p)) (children f d).
Proof.
  apply Forall_forall. intros p Hp. unfold children in Hp.
  apply PyFacts.elem_of_sorted in Hp. apply list_elem_of_filter in Hp as [Hc Hp].
  unfold is_child in Hc. apply bool_decide_eq_true in Hc as [Hn Hpar].
  split; [exact Hn|]. split; [exact Hpar|].
  apply list_elem_of_fmap in Hp as ([q x] & -> & Hq).
  apply elem_of_map_to_list in Hq. eauto.
Qed.

Section WithHost.
Context `{Host}.

(** X2. The hook lines of a recipe are all run, in the order of the
    recipe, each by the shell with the process environment and each on the
    file system the one before left; exit codes are ignored, so a failing
    hook stops nothing and [_run_hooks] never raises. The database is not
    touched. *)
Theorem recipe_hooks_all_run (lines : list string) (w : World) :
  exists w',
    _run_hooks lines w = (w', Ok tt)
    /\ w_db w' = w_db w
    /\ w_trace w' = w_trace w ++ map hook_event lines
    /\ w_fs w' =
         foldl (fun f line =>
                  (exec {| cmd := Shell line; cwd := None; cmd_env := Some environ |} f).1)
               (w_fs w) lines.
Proof.
  unfold _run_hooks. revert w. induction lines as [|line lines IH]; intros w.
  - exists w. simpl. rewrite app_nil_r. auto.
  - simpl. unfold bind. rewrite run_run. simpl.
    match goal with |- context [for_ lines ?b ?w1] =>
      destruct (IH w1) as (w' & E & D & T & F) end.
    exists w'. rewrite E. split; [reflexivity|]. split; [exact D|].
    split; [rewrite T; simpl; rewrite <- app_assoc; reflexivity | exact F].
Qed.



End WithHost.


End HookFacts.

(** ** The records of the database *)

Module RecordFacts.
Import Model FS Host Eff EffFacts SrcPkg PipelineFacts Vocabulary Scenarios.

Lemma by_name_total (a b : InstalledPkg) : by_name a b = true \/ by_name b a = true.
Proof. apply String.leb_total. Qed.

Lemma by_name_trans (a b c : InstalledPkg) :
  by_name a b = true -> by_name b c = true -> by_name a c = true.
Proof. apply PyFacts.string_leb_trans. Qed.

Lemma elem_of_list_installed (db : gmap string InstalledPkg) (r : InstalledPkg) :
  r ∈ list_installed db <-> exists k, db !! k = Some r.
Proof.
  unfold list_installed. rewrite PyFacts.elem_of_sorted, list_elem_of_fmap. split.
  - intros ([k r'] & -> & Hin). apply elem_of_map_to_list in Hin. eauto.
  - intros [k Hk]. exists (k, r). split; [reflexivity|].
    apply elem_of_map_to_list. exact Hk.
Qed.

Lemma wf_names (db : gmap string InstalledPkg) :
  db_wf db -> map pkg_name (map snd (map_to_list db)) = map fst (map_to_list db).
Proof.
  intros Hwf. rewrite map_map. apply map_ext_in. intros [k r] Hin. simpl.
  apply Hwf. apply elem_of_map_to_list. apply list_elem_of_In. exact Hin.
Qed.

Lemma installed_wf (db : gmap string InstalledPkg) (n : string) :
  db_wf db -> installed db n <-> is_Some (db !! n).
Proof.
  intros Hwf. unfold installed. split.
  - intros (r & Hr & <-). apply elem_of_list_installed in Hr as [k Hk].
    rewrite (Hwf _ _ Hk). eauto.
  - intros [r Hr]. exists r. split; [|apply (Hwf _ _ Hr)].
    apply elem_of_list_installed. eauto.
Qed.

(** X4. [list_installed()] returns every record of the database once, in
    ascending order of the names. When every record is stored under its own
    name, no name is listed twice and the names listed are those for which
    [InstalledPkg.load] finds a record. *)
Theorem list_installed_sorted (db : gmap string InstalledPkg) :
  list_installed db ≡ₚ map snd (map_to_list db)
  /\ StronglySorted (fun a b => String.leb (pkg_name a) (pkg_name b) = true)
       (list_installed db)
  /\ (forall r, r ∈ list_installed db <-> exists k, db !! k = Some r)
  /\ (db_wf db ->
      NoDup (map pkg_name (list_installed db))
      /\ forall n, n ∈ map pkg_name (list_installed db) <-> is_Some (db !! n)).
Proof.
  split; [apply PyFacts.sorted_perm|]. split; [|split].
  - apply (PyFacts.sorted_strongly by_name by_name_total by_name_trans).
  - apply elem_of_list_installed.
  - intros Hwf.
    assert (Hp : map pkg_name (list_installed db) ≡ₚ map fst (map_to_list db)).
    { rewrite <- (wf_names db Hwf). apply Permutation_map. apply PyFacts.sorted_perm. }
    split.
    + rewrite Hp. apply NoDup_fst_map_to_list.
    + intros n. rewrite <- (installed_wf db n Hwf). unfold installed.
      rewrite list_elem_of_fmap. split.
      * intros (r & -> & Hr). eauto.
      * intros (r & Hr & <-). eauto.
Qed.

Lemma list_installed_sorted_witness :
  NoDup (map pkg_name (list_installed (w_db hello_installed))).
Proof.
  destruct (list_installed_sorted (w_db hello_installed)) as (_ & _ & _ & Hwf).
  apply Hwf. intros k r Hk. simpl in Hk.
  apply lookup_singleton_Some in Hk as [<- <-]. reflexivity.
Defined.

End RecordFacts.

(** ** The providers of shared libraries *)

Module ProviderFacts.
Import Model FS Host Eff EffFacts SrcPkg PipelineFacts Vocabulary Scenarios.

Lemma providers_add_file (pkg : InstalledPkg) (prov : gmap string (gset string))
    (f : path) (lib x : string) :
  x ∈ default ∅ (add_file pkg prov f !! lib) <->
    x ∈ default ∅ (prov !! lib)
    \/ (is_lib_name lib = true /\ x = pkg_name pkg /\ name_of f = lib).
Proof.
  unfold add_file. destruct (is_lib_name (name_of f)) eqn:El.
  - destruct (decide (name_of f = lib)) as [<-|Hne].
    + rewrite lookup_insert_eq. simpl. rewrite elem_of_union, elem_of_singleton.
      split; [intros [->|?]; auto | intros [?|(_ & -> & _)]; auto].
    + rewrite lookup_insert_ne by exact Hne.
      split; [auto | intros [?|(_ & _ & ?)]; [auto | contradiction]].
  - split; [auto | intros [?|(Hl & _ & <-)]; [auto | congruence]].
Qed.

Lemma providers_files (pkg : InstalledPkg) (fs : list path)
    (prov : gmap string (gset string)) (lib x : string) :
  x ∈ default ∅ (foldl (add_file pkg) prov fs !! lib) <->
    x ∈ default ∅ (prov !! lib)
    \/ (is_lib_name lib = true /\ x = pkg_name pkg /\ exists f, f ∈ fs /\ name_of f = lib).
Proof.
  revert prov. induction fs as [|f fs IH]; intros prov; simpl.
  - split; [auto | intros [?|(_ & _ & f & Hf & _)]; [auto | inversion Hf]].
  - rewrite IH, providers_add_file. split.
    + intros [[?|(? & ? & ?)]|(? & ? & f' & ? & ?)]; [auto | |].
      * right. split; [auto|]. split; [auto|]. exists f. split; [left | auto].
      * right. split; [auto|]. split; [auto|]. exists f'. split; [right; auto | auto].
    + intros [?|(? & ? & f' & Hf & ?)]; [auto|].
      apply elem_of_cons in Hf as [->|Hf]; [left; right; auto|].
      right. eauto.
Qed.

Lemma providers_records (l : list InstalledPkg) (prov : gmap string (gset string))
    (lib x : string) :
  x ∈ default ∅ (foldl (fun prov pkg => foldl (add_file pkg) prov (files pkg)) prov l
                   !! lib) <->
    x ∈ default ∅ (prov !! lib)
    \/ (is_lib_name lib = true
        /\ exists r f, r ∈ l /\ pkg_name r = x /\ f ∈ files r /\ name_of f = lib).
Proof.
  revert prov. induction l as [|pkg l IH]; intros prov; simpl.
  - split; [auto | intros [?|(_ & r & f & Hr & _)]; [auto | inversion Hr]].
  - rewrite IH, providers_files. split.
    + intros [[?|(? & -> & f & ? & ?)]|(? & r & f & ? & ? & ? & ?)]; [auto | |].
      * right. split; [auto|]. exists pkg, f. split; [left|]; auto.
      * right. split; [auto|]. exists r, f. split; [right|]; auto.
    + intros [?|(? & r & f & Hr & ? & ? & ?)]; [auto|].
      apply elem_of_cons in Hr as [->|Hr]; [left; right; eauto|].
      right. split; [auto|]. eauto 6.
Qed.

Lemma providers_nonempty (l : list InstalledPkg) (prov : gmap string (gset string)) :
  (forall lib s, prov !! lib = Some s -> s <> ∅) ->
  forall lib s,
    foldl (fun prov pkg => foldl (add_file pkg) prov (files pkg)) prov l !! lib = Some s ->
    s <> ∅.
Proof.
  revert prov. induction l as [|pkg l IH]; intros prov Hp; simpl; [exact Hp|].
  apply IH. clear IH. generalize (files pkg) as fs. intros fs. revert prov Hp.
  induction fs as [|f fs IHf]; intros prov Hp; simpl; [exact Hp|].
  apply IHf. intros lib s. unfold add_file.
  destruct (is_lib_name (name_of f)); [|apply Hp].
  destruct (decide (name_of f = lib)) as [<-|Hne].
  - rewrite lookup_insert_eq. intros [= <-]. set_solver.
  - rewrite lookup_insert_ne by exact Hne. apply Hp.
Qed.

(** X5. [_lib_providers()] maps a file name to the packages that own a
    file of that name: a package is listed under a name exactly when the
    name starts with ["lib"] and contains [".so"] and is the base name of a
    file of an installed record of that package. No name is mapped to the
    empty set, so the keys are the names with a provider. *)
Theorem lib_providers_spec (db : gmap string InstalledPkg) (lib : string) :
  (forall pkg,
      pkg ∈ default ∅ (_lib_providers db !! lib) <->
        is_lib_name lib = true
        /\ exists r f, r ∈ list_installed db /\ pkg_name r = pkg
                       /\ f ∈ files r /\ name_of f = lib)
  /\ (is_Some (_lib_providers db !! lib) <->
        is_lib_name lib = true
        /\ exists r f, r ∈ list_installed db /\ f ∈ files r /\ name_of f = lib).
Proof.
  assert (Hm : forall pkg,
      pkg ∈ default ∅ (_lib_providers db !! lib) <->
        is_lib_name lib = true
        /\ exists r f, r ∈ list_installed db /\ pkg_name r = pkg
                       /\ f ∈ files r /\ name_of f = lib).
  { intros pkg. unfold _lib_providers.
    change (fun providers pkg0 => foldl _ providers (files pkg0))
      with (fun prov pkg0 => foldl (add_file pkg0) prov (files pkg0)).
    rewrite providers_records, lookup_empty. simpl. set_solver. }
  split; [exact Hm|]. split.
  - intros [s Hs].
    assert (Hne : s <> ∅).
    { unfold _lib_providers in Hs.
      eapply (providers_nonempty (list_installed db) ∅); [|exact Hs].
      intros lib' s'. rewrite lookup_empty. discriminate. }
    apply set_choose_L in Hne as [pkg Hpkg].
    destruct (proj1 (Hm pkg)) as (Hl & r & f & Hr & _ & Hf & Hn);
      [rewrite Hs; exact Hpkg|].
    eauto 6.
  - intros (Hl & r & f & Hr & Hf & Hn).
    assert (Hin : pkg_name r ∈ default ∅ (_lib_providers db !! lib)).
    { apply Hm. eauto 8. }
    destruct (_lib_providers db !! lib) as [s|]; [eauto|].
    simpl in Hin. set_solver.
Qed.

End ProviderFacts.

(** ** The copy onto the live root and the manifest *)

Module CopyFacts.
Import Model FS Host Eff EffFacts SrcPkg PipelineFacts InstallFacts Vocabulary Scenarios.



Section WithHost.
Context `{Host}.


Lemma write_file_ok (p : path) (mode : N) (data : list Byte.byte) (w w' : World) :
  write_file p mode data w = (w', Ok tt) ->
  w' = {| w_fs := <[p := File mode data]> (w_fs w); w_db := w_db w;
          w_trace := w_trace w |}.
Proof.
  unfold write_file, bind, get_fs, put_fs, raise.
  destruct (stat (w_fs w) p) as [[| |]|]; intros [= <-]; reflexivity.
Qed.





End WithHost.


End CopyFacts.

(** ** What an install keeps of the database *)

Module InvariantFacts.
Import Model FS Host Eff EffFacts SrcPkg PipelineFacts InstallFacts UpgradeFacts.
Import RemoveFacts ErrorFacts Vocabulary Scenarios.

Section Keeps.
Context (Inv : gmap string InstalledPkg -> Prop).

Lemma keeps_quiet {A} (P : event -> Prop) (m : M A) : quiet P m -> keeps Inv m.
Proof.
  intros Hq w w' r Hi E. destruct (Hq _ _ _ E) as [D _]. rewrite D. exact Hi.
Qed.

Lemma keeps_bind {A B} (m : M A) (k : A -> M B) :
  keeps Inv m -> (forall a, keeps Inv (k a)) -> keeps Inv (bind m k).
Proof.
  intros Hm Hk w w' r Hi. unfold bind.
  destruct (m w) as [w1 [a|e]] eqn:E1; intros E2.
  - eapply Hk; [|exact E2]. eapply Hm; eauto.
  - injection E2 as <- <-. eapply Hm; eauto.
Qed.

Lemma keeps_fold_m {A S} (l : list A) (s : S) (body : S -> A -> M S) :
  (forall s x, keeps Inv (body s x)) -> keeps Inv (fold_m l s body).
Proof.
  intros Hb. revert s. induction l as [|x l IH]; intros s; simpl.
  - eapply keeps_quiet. apply (quiet_ret (fun _ => True)).
  - apply keeps_bind; [apply Hb | intros s'; apply IH].
Qed.
End Keeps.

Lemma db_wf_insert (db : gmap string InstalledPkg) (pkg : InstalledPkg) :
  db_wf db -> db_wf (<[pkg_name pkg := pkg]> db).
Proof.
  intros Hwf k r. destruct (decide (pkg_name pkg = k)) as [<-|Hne].
  - rewrite lookup_insert_eq. intros [= <-]. reflexivity.
  - rewrite lookup_insert_ne by exact Hne. apply Hwf.
Qed.

Lemma db_wf_delete (db : gmap string InstalledPkg) (n : string) :
  db_wf db -> db_wf (delete n db).
Proof.
  intros Hwf k r Hk. apply lookup_delete_Some in Hk as [_ Hk]. eauto.
Qed.

Section WithHost.
Context `{Host}.

(** What holds of the database and is kept when a record is saved is kept
    by an install. *)
Section Saved.
Context (Inv : gmap string InstalledPkg -> Prop).
Hypothesis Inv_save : forall db pkg, Inv db -> Inv (<[pkg_name pkg := pkg]> db).

Lemma keeps_install_package_dir (meta : PackageMeta) (destdir : path) :
  keeps Inv (install_package_dir meta destdir).
Proof.
  unfold install_package_dir. destruct (negb _).
  - eapply (keeps_quiet _ (fun _ => True)). quiet_auto.
  - apply keeps_bind; [eapply keeps_quiet, quiet_copy_tree | intros copied].
    apply keeps_bind.
    + intros w w' r Hi E. rewrite save_run in E. injection E as <- _. simpl.
      apply (Inv_save _ {| pkg_name := name meta |}). exact Hi.
    + intros _. apply keeps_bind; [eapply keeps_quiet, quiet_run_hooks | intros _].
      apply keeps_bind; [eapply keeps_quiet, quiet_run_global_hooks | intros _].
      eapply keeps_quiet. apply (quiet_ret (fun _ => True)).
Qed.

Lemma keeps_install_from_meta (meta : PackageMeta) : keeps Inv (install_from_meta meta).
Proof.
  intros w w' r Hi. rewrite install_from_meta_stage. revert w w' r Hi.
  apply keeps_bind; [eapply keeps_quiet, quiet_stage | intros destdir].
  apply keeps_bind; [apply keeps_install_package_dir | intros _].
  eapply keeps_quiet. apply (quiet_ret (fun _ => True)).
Qed.

Lemma keeps_resolve (depth : nat) (meta : PackageMeta) (visited : gset string) :
  keeps Inv (_resolve_deps_install_first depth meta visited).
Proof.
  revert meta visited. induction depth as [|k IH]; intros meta visited; simpl.
  - eapply keeps_quiet. apply (quiet_raise (fun _ => True)).
  - destruct (decide _); [eapply keeps_quiet; apply (quiet_ret (fun _ => True))|].
    apply keeps_fold_m. intros v dep. unfold dep_step.
    apply keeps_bind; [eapply keeps_quiet; apply (quiet_get_db (fun _ => True))|].
    intros d. destruct (d !! dep);
      [eapply keeps_quiet; apply (quiet_ret (fun _ => True))|].
    destruct (find_recipe dep) as [dmeta|];
      [|eapply keeps_quiet; apply (quiet_raise (fun _ => True))].
    apply keeps_bind; [apply IH | intros v'].
    apply keeps_bind; [apply keeps_install_from_meta | intros _].
    eapply keeps_quiet. apply (quiet_ret (fun _ => True)).
Qed.

Lemma keeps_cmd_install (depth : nat) (meta : PackageMeta) :
  keeps Inv (cmd_install depth meta).
Proof.
  unfold cmd_install.
  apply keeps_bind; [apply keeps_resolve | intros _; apply keeps_install_from_meta].
Qed.

Lemma keeps_upgrade (meta : PackageMeta) : keeps Inv (upgrade meta).
Proof.
  unfold upgrade. apply keeps_bind.
  - eapply keeps_quiet. apply (quiet_get_db (fun _ => True)).
  - intros d. destruct (d !! name meta).
    + destruct (Version.ver_le _ _);
        [eapply keeps_quiet; apply (quiet_ret (fun _ => True))
        | apply keeps_install_from_meta].
    + eapply keeps_quiet. apply (quiet_emit (fun _ => True)). exact I.
Qed.
End Saved.

Lemma remove_db (n : string) (w : World) : w_db (remove n w).1 = delete n (w_db w).
Proof.
  destruct (w_db w !! n) as [pkg|] eqn:E.
  - destruct (remove_installed n pkg w E) as (w' & f1 & segs & gevs & Er & D & _).
    rewrite Er. exact D.
  - rewrite (remove_not_installed n w E). simpl. symmetry. apply delete_id. exact E.
Qed.

(** X7. Every record is stored under its own name, and this is kept by all
    that writes the database: an install with its dependencies, an upgrade
    and a removal leave a database of this kind, whether they return or
    raise, and however far they got. *)
Theorem database_names_are_kept (w : World) :
  db_wf (w_db w) ->
  (forall depth meta, db_wf (w_db (cmd_install depth meta w).1))
  /\ (forall meta, db_wf (w_db (install_from_meta meta w).1))
  /\ (forall meta, db_wf (w_db (upgrade meta w).1))
  /\ (forall n, db_wf (w_db (remove n w).1)).
Proof.
  intros Hwf. split; [|split; [|split]].
  - intros depth meta. destruct (cmd_install depth meta w) as [w' r] eqn:E.
    eapply (keeps_cmd_install db_wf db_wf_insert); eauto.
  - intros meta. destruct (install_from_meta meta w) as [w' r] eqn:E.
    eapply (keeps_install_from_meta db_wf db_wf_insert); eauto.
  - intros meta. destruct (upgrade meta w) as [w' r] eqn:E.
    eapply (keeps_upgrade db_wf db_wf_insert); eauto.
  - intros n. rewrite remove_db. apply db_wf_delete. exact Hwf.
Qed.

(** X8. An install never loses a record: a package that is installed
    is still installed after an install with its dependencies, after an
    install from a recipe and after an upgrade, whether they return or
    raise; nothing is rolled back, and what was installed before a failure
    stays installed. Only [remove] deletes a record, and only that of the
    package it is given. *)
Theorem installs_never_forget (n : string) (w : World) :
  is_Some (w_db w !! n) ->
  (forall depth meta, is_Some (w_db (cmd_install depth meta w).1 !! n))
  /\ (forall meta, is_Some (w_db (install_from_meta meta w).1 !! n))
  /\ (forall meta, is_Some (w_db (upgrade meta w).1 !! n))
  /\ (forall m, m <> n -> w_db (remove m w).1 !! n = w_db w !! n).
Proof.
  intros Hn.
  assert (Hsave : forall (db : gmap string InstalledPkg) pkg,
            is_Some (db !! n) -> is_Some (<[pkg_name pkg := pkg]> db !! n)).
  { intros db pkg Hd. destruct (decide (pkg_name pkg = n)) as [<-|Hne].
    - rewrite lookup_insert_eq. eauto.
    - rewrite lookup_insert_ne by exact Hne. exact Hd. }
  split; [|split; [|split]].
  - intros depth meta. destruct (cmd_install depth meta w) as [w' r] eqn:E.
    eapply (keeps_cmd_install (fun db => is_Some (db !! n)) Hsave); eauto.
  - intros meta. destruct (install_from_meta meta w) as [w' r] eqn:E.
    eapply (keeps_install_from_meta (fun db => is_Some (db !! n)) Hsave); eauto.
  - intros meta. destruct (upgrade meta w) as [w' r] eqn:E.
    eapply (keeps_upgrade (fun db => is_Some (db !! n)) Hsave); eauto.
  - intros m Hm. rewrite remove_db. apply lookup_delete_ne. exact Hm.
Qed.

(** *** Without the privileges of root *)

Lemma quiet_stage_no_install (meta : PackageMeta) :
  quiet (fun e => ~ installs e) (stage meta).
Proof.
  unfold stage.
  apply quiet_bind; [apply quiet_get_fs | intros f].
  apply quiet_bind; [apply quiet_when, quiet_put_fs | intros _].
  apply quiet_bind; [apply quiet_mkdir | intros _].
  apply quiet_bind; [|intros dirs].
  { eapply quiet_weaken; [|apply quiet_build].
    intros [] He; unfold installs; simpl in *; tauto. }
  apply quiet_bind; [|intros _; apply quiet_ret].
  eapply quiet_weaken; [|apply quiet_package].
  intros [] He; unfold installs; simpl in *; tauto.
Qed.

Lemma quiet_install_not_root (meta : PackageMeta) :
  geteuid <> 0%Z -> quiet (fun e => ~ installs e) (install_from_meta meta).
Proof.
  intros Hne w w' r. rewrite install_from_meta_stage. revert w w' r.
  apply quiet_bind; [apply quiet_stage_no_install | intros destdir].
  apply quiet_bind; [|intros _; apply quiet_ret].
  intros w w' r. rewrite (install_package_dir_not_root meta destdir w Hne).
  intros [= <- <-]. simpl. split; [reflexivity|].
  exists [EvErr]. split; [reflexivity|]. constructor; [|constructor].
  unfold installs. simpl. tauto.
Qed.

Lemma install_not_root_raises (meta : PackageMeta) (w : World) :
  geteuid <> 0%Z -> exists e, (install_from_meta meta w).2 = Raise e.
Proof.
  intros Hne. rewrite install_from_meta_stage. unfold bind.
  destruct (stage meta w) as [w1 [destdir|e]]; [|simpl; eauto].
  rewrite (install_package_dir_not_root meta destdir w1 Hne). simpl. eauto.
Qed.

Lemma quiet_fold_m (P : event -> Prop) {A S} (l : list A) (s : S) (body : S -> A -> M S) :
  (forall s x, quiet P (body s x)) -> quiet P (fold_m l s body).
Proof.
  intros Hb. revert s. induction l as [|x l IH]; intros s; simpl.
  - apply quiet_ret.
  - apply quiet_bind; [apply Hb | intros s'; apply IH].
Qed.

Lemma quiet_resolve_not_root (depth : nat) (meta : PackageMeta) (visited : gset string) :
  geteuid <> 0%Z ->
  quiet (fun e => ~ installs e) (_resolve_deps_install_first depth meta visited).
Proof.
  intros Hne. revert meta visited.
  induction depth as [|k IH]; intros meta visited; simpl.
  - apply quiet_raise.
  - destruct (decide _); [apply quiet_ret|].
    apply quiet_fold_m. intros v dep. unfold dep_step.
    apply quiet_bind; [apply quiet_get_db | intros d].
    destruct (d !! dep); [apply quiet_ret|].
    destruct (find_recipe dep) as [dmeta|]; [|apply quiet_raise].
    apply quiet_bind; [apply IH | intros v'].
    apply quiet_bind; [apply quiet_install_not_root, Hne | intros _; apply quiet_ret].
Qed.

(** X9. Without effective UID 0 nothing is installed, whatever the
    recipes: an install with its dependencies never returns, it raises
    (the root check comes after the build, so commands may have run). It
    copies nothing onto the live root, it writes and deletes no record, and
    the database is as before. *)
Theorem nothing_installed_without_root (depth : nat) (meta : PackageMeta) (w : World) :
  geteuid <> 0%Z ->
  let w' := (cmd_install depth meta w).1 in
  (exists e, (cmd_install depth meta w).2 = Raise e)
  /\ w_db w' = w_db w
  /\ exists evs, w_trace w' = w_trace w ++ evs /\ Forall (fun e => ~ installs e) evs.
Proof.
  intros Hne w'. subst w'. split.
  - unfold cmd_install, bind.
    destruct (_resolve_deps_install_first depth meta ∅ w) as [w1 [v|e]]; [|simpl; eauto].
    apply install_not_root_raises. exact Hne.
  - destruct (cmd_install depth meta w) as [w' r] eqn:E. simpl.
    revert E. unfold cmd_install. revert w w' r.
    change (quiet (fun e => ~ installs e)
              (_resolve_deps_install_first depth meta ∅;; install_from_meta meta)).
    apply quiet_bind; [apply quiet_resolve_not_root, Hne|].
    intros _. apply quiet_install_not_root, Hne.
Qed.

End WithHost.

Lemma database_names_are_kept_witness :
  db_wf (w_db (@remove Demo.root_host "hello" hello_installed).1).
Proof.
  apply (@database_names_are_kept Demo.root_host hello_installed).
  intros k r Hk. simpl in Hk. apply lookup_singleton_Some in Hk as [<- <-]. reflexivity.
Defined.

Lemma installs_never_forget_witness :
  is_Some (w_db (@upgrade Demo.root_host (Demo.meta_of "pkg" "1.10" []) pkg_1_2).1
             !! "pkg").
Proof.
  destruct (@installs_never_forget Demo.root_host "pkg" pkg_1_2) as (_ & _ & Hup & _).
  - vm_compute. eexists. reflexivity.
  - apply Hup.
Defined.

Lemma nothing_installed_without_root_witness :
  w_db (@cmd_install Demo.user_host 3 recipe_a Demo.world0).1 = ∅.
Proof.
  destruct (@nothing_installed_without_root Demo.user_host 3 recipe_a Demo.world0)
    as (_ & D & _); [intros Hc; vm_compute in Hc; discriminate|].
  exact D.
Defined.

End InvariantFacts.

(** ** Orphans after a removal *)

Module OrphanRemoveFacts.
Import Model FS Host Eff EffFacts SrcPkg PipelineFacts Vocabulary Scenarios.

Section WithHost.
Context `{Host}.


End WithHost.




End OrphanRemoveFacts.

(** ** Patches *)

Module PatchFacts.
Import Model FS Host Eff EffFacts SrcPkg PipelineFacts ChecksumGate ErrorFacts.
Import Vocabulary Scenarios.


Lemma shell_commands_none (t : list event) : Forall argv_event t -> shell_commands t = [].
Proof.
  induction 1 as [|e t He _ IH]; [reflexivity|].
  destruct e as [c| | | | | | | | |]; simpl in *; try tauto; try exact IH.
  destruct (cmd c); [exact IH | tauto].
Qed.

Section WithHost.
Context `{Host}.

Lemma quiet_fetch_patch_argv (p : PatchSpec) (patch_dir : path) :
  quiet argv_event (fetch_patch p patch_dir).
Proof.
  unfold fetch_patch.
  repeat first [apply quiet_run; exact I | apply quiet_compute_sha256; exact I
               | quiet_step].
Qed.

Lemma raises_fetch_patch (p : PatchSpec) (patch_dir : path) :
  raises (fun e => e = PatchChecksumMismatch \/ patch_fetch_error e)
         (fetch_patch p patch_dir).
Proof.
  unfold fetch_patch, compute_sha256, run.
  repeat first [apply raises_raise; simpl; tauto | raises_step].
Qed.

(** What [fetch_patch] returns is the file of the patch; when a digest is
    declared, the file has it. *)
Lemma fetch_patch_ok (p : PatchSpec) (patch_dir : path) (w w' : World) (file : path) :
  fetch_patch p patch_dir w = (w', Ok file) ->
  file = patch_target patch_dir p
  /\ (Py.truthy (patch_sha256 p) = true ->
      exists data, read_bytes (w_fs w') file = Some data
                   /\ Some (sha256_hex data) = patch_sha256 p).
Proof.
  unfold fetch_patch. intros E.
  apply bind_ok_inv in E as (w1 & [] & _ & E).
  apply bind_ok_inv in E as (w2 & file' & Ef & E).
  apply bind_ok_inv in E as (w3 & [] & Ev & E).
  unfold ret in E. injection E as <- <-. split.
  - unfold patch_target. destruct (patch_file p) as [[f|rel]|].
    + unfold ret in Ef. injection Ef as _ <-. reflexivity.
    + unfold ret in Ef. injection Ef as _ <-. reflexivity.
    + destruct (patch_url p) as [[|c u]|]; try discriminate.
      apply bind_ok_inv in Ef as (w4 & f & _ & Ef).
      apply bind_ok_inv in Ef as (w5 & [] & _ & Ef).
      unfold ret in Ef. injection Ef as _ <-. reflexivity.
  - intros Ht. rewrite Ht in Ev.
    apply bind_ok_inv in Ev as (w4 & got & Esha & Ev).
    rewrite compute_sha256_run in Esha.
    destruct (read_bytes (w_fs w2) file') as [data|] eqn:Er; [|discriminate].
    injection Esha as <- <-.
    destruct (bool_decide (Some (sha256_hex data) = patch_sha256 p)) eqn:Eb;
      [|discriminate].
    unfold ret in Ev. injection Ev as <-. simpl.
    exists data. split; [exact Er|]. apply bool_decide_eq_true in Eb. exact Eb.
Qed.

(** The check of a patch fails on a file that is there and has another
    digest. *)
Lemma fetch_patch_mismatch (p : PatchSpec) (patch_dir : path) (w w' : World) :
  fetch_patch p patch_dir w = (w', Raise PatchChecksumMismatch) ->
  exists data, read_bytes (w_fs w') (patch_target patch_dir p) = Some data
               /\ Some (sha256_hex data) <> patch_sha256 p.
Proof.
  unfold fetch_patch. intros E.
  apply bind_raise_inv in E as [E|(w1 & [] & _ & E)].
  { apply mkdir_error in E. destruct E. }
  apply bind_raise_inv in E as [E|(w2 & file & Ef & E)].
  { exfalso. destruct (patch_file p) as [[f|rel]|]; try discriminate.
    destruct (patch_url p) as [[|c u]|]; try discriminate.
    apply bind_raise_inv in E as [E|(w3 & f & Eg & E)]; [discriminate|].
    unfold get_fs in Eg. injection Eg as <- <-.
    apply bind_raise_inv in E as [E|(w3 & [] & _ & E)]; [|discriminate].
    destruct (exists_ _ _); [discriminate|].
    destruct (which "wget");
      [rewrite run_run in E; simpl in E; destruct (negb _); discriminate|].
    destruct (which "curl");
      [rewrite run_run in E; simpl in E; destruct (negb _); discriminate|].
    discriminate. }
  assert (Hfile : file = patch_target patch_dir p).
  { unfold patch_target. destruct (patch_file p) as [[f|rel]|].
    - unfold ret in Ef. injection Ef as _ <-. reflexivity.
    - unfold ret in Ef. injection Ef as _ <-. reflexivity.
    - destruct (patch_url p) as [[|c u]|]; try discriminate.
      apply bind_ok_inv in Ef as (w4 & f & _ & Ef).
      apply bind_ok_inv in Ef as (w5 & [] & _ & Ef).
      unfold ret in Ef. injection Ef as _ <-. reflexivity. }
  subst file.
  apply bind_raise_inv in E as [E|(w3 & [] & _ & E)]; [|discriminate].
  destruct (Py.truthy (patch_sha256 p)); [|discriminate].
  unfold bind at 1 in E. rewrite compute_sha256_run in E.
  destruct (read_bytes (w_fs w2) _) as [data|] eqn:Er; [|discriminate].
  destruct (bool_decide (Some (sha256_hex data) = patch_sha256 p)) eqn:Eb;
    [discriminate|].
  unfold raise in E. injection E as <-. simpl.
  exists data. split; [exact Er|]. apply bool_decide_eq_false in Eb. exact Eb.
Qed.


(** X11. A patch with a declared digest is applied only when its file has
    that digest: [fetch_patch] returns the file only then, and when it
    raises, for a digest that differs or for any other reason, the patch is
    not applied, nor is any later one: [apply_patches] raises the same
    error without a command given to the shell. The file that failed the
    check stays where it is. *)
Theorem patch_checksum_gate (meta : PackageMeta) (p : PatchSpec) (rest : list PatchSpec)
    (srcdir patch_dir : path) (h : string) (w : World) :
  patches meta = p :: rest -> patch_sha256 p = Some h -> h <> "" ->
  let file := patch_target patch_dir p in
  (forall w1 f,
      fetch_patch p patch_dir w = (w1, Ok f) ->
      f = file /\ exists data, read_bytes (w_fs w1) file = Some data
                               /\ sha256_hex data = h)
  /\ (forall w1 e,
        fetch_patch p patch_dir w = (w1, Raise e) ->
        apply_patches meta srcdir patch_dir w = (w1, Raise e)
        /\ (e = PatchChecksumMismatch \/ patch_fetch_error e)
        /\ exists evs, w_trace w1 = w_trace w ++ evs /\ shell_commands evs = [])
  /\ (forall w1,
        fetch_patch p patch_dir w = (w1, Raise PatchChecksumMismatch) ->
        exists data, read_bytes (w_fs w1) file = Some data /\ sha256_hex data <> h).
Proof.
  intros Hp Hsha Hne file. split; [|split].
  - intros w1 f E. apply fetch_patch_ok in E as [-> Hd]. split; [reflexivity|].
    destruct Hd as (data & Hr & Hs).
    + rewrite Hsha. destruct h; [congruence | reflexivity].
    + exists data. split; [exact Hr | congruence].
  - intros w1 e E. split; [|split].
    + unfold apply_patches. rewrite Hp. cbn [for_]. unfold bind. rewrite E. reflexivity.
    + eapply raises_fetch_patch. exact E.
    + destruct (quiet_fetch_patch_argv _ _ _ _ _ E) as (_ & evs & T & F).
      exists evs. split; [exact T | apply shell_commands_none; exact F].
  - intros w1 E. apply fetch_patch_mismatch in E as (data & Hr & Hs).
    exists data. split; [exact Hr | congruence].
Qed.


End WithHost.

Lemma patch_checksum_gate_witness :
  @apply_patches Demo.root_host patched_meta ["w"; "src"] ["w"; "patches"] patch_world
  = ((@fetch_patch Demo.root_host fix_patch ["w"; "patches"] patch_world).1,
     Raise PatchChecksumMismatch).
Proof.
  set (run := @fetch_patch Demo.root_host fix_patch ["w"; "patches"] patch_world).
  assert (E : run = (run.1, Raise PatchChecksumMismatch))
    by (apply run_result; vm_compute; reflexivity).
  destruct (@patch_checksum_gate Demo.root_host patched_meta fix_patch []
              ["w"; "src"] ["w"; "patches"] "abd" patch_world)
    as (_ & Hraise & _); [reflexivity | reflexivity | discriminate |].
  destruct (Hraise _ _ E) as [Ea _]. exact Ea.
Defined.

End PatchFacts.

(** ** The phases of a build *)

Module PhaseFacts.
Import Model FS Host Eff EffFacts SrcPkg PipelineFacts UpgradeFacts Vocabulary Scenarios.

Section WithHost.
Context `{Host}.

Lemma bind_unit (m : M unit) (w : World) : (m;; ret tt) w = m w.
Proof. unfold bind, ret. destruct (m w) as [w' [[]|e]]; reflexivity. Qed.

(** The phases are a loop over the scripts. *)
Lemma run_phases_loop (meta : PackageMeta) (srcdir : path) (e : gmap string string)
    (only_build : bool) (w : World) :
  run_phases meta srcdir e only_build w =
    for_ ([prepare (build meta); compile (build meta)]
          ++ if only_build then [] else [install (build meta)])
         (fun lines => run_script lines srcdir e) w.
Proof.
  unfold run_phases. destruct only_build; cbn [app for_ negb when]; unfold bind, ret.
  - destruct (run_script (prepare (build meta)) srcdir e w) as [w1 [[]|e1]]; [|reflexivity].
    destruct (run_script (compile (build meta)) srcdir e w1) as [w2 [[]|e2]]; reflexivity.
  - destruct (run_script (prepare (build meta)) srcdir e w) as [w1 [[]|e1]]; [|reflexivity].
    destruct (run_script (compile (build meta)) srcdir e w1) as [w2 [[]|e2]]; [|reflexivity].
    destruct (run_script (install (build meta)) srcdir e w2) as [w3 [[]|e3]]; reflexivity.
Qed.

Lemma scripts_loop (srcdir : path) (e : gmap string string) (ls : list (list string))
    (w w' : World) (r : result unit) :
  for_ ls (fun lines => run_script lines srcdir e) w = (w', r) ->
  exists done,
    w_trace w' = w_trace w ++ map (script_event srcdir e) done
    /\ done `prefix_of` filter (fun lines => lines <> []) ls
    /\ (r = Ok tt -> done = filter (fun lines => lines <> []) ls)
    /\ (forall err, r = Raise err ->
          exists code c, err = CalledProcessError code c /\ code <> 0%Z /\ done <> []).
Proof.
  revert w. induction ls as [|lines ls IH]; intros w E.
  - simpl in E. unfold ret in E. injection E as <- <-.
    exists []. simpl. rewrite app_nil_r.
    split; [reflexivity|]. split; [reflexivity|]. split; [reflexivity | discriminate].
  - cbn [for_] in E. destruct lines as [|l0 lines].
    + rewrite filter_cons_False by (intros Hc; apply Hc; reflexivity).
      unfold bind in E. simpl run_script in E. unfold ret at 1 in E. apply IH. exact E.
    + rewrite filter_cons_True by discriminate.
      unfold bind in E. unfold run_script in E. rewrite run_run in E. cbv zeta in E.
      fold (script_event srcdir e (l0 :: lines)) in E.
      destruct ((exec _ (w_fs w)).2 =? 0)%Z eqn:Ec; simpl andb in E; cbv iota in E.
      * destruct (IH _ E) as (done & T & P & K & R). simpl in T.
        exists ((l0 :: lines) :: done).
        split; [rewrite T; simpl; rewrite <- app_assoc; reflexivity|].
        split; [apply prefix_cons; exact P|].
        split; [intros Hok; f_equal; auto|].
        intros err Herr. destruct (R err Herr) as (code & c & -> & Hc & _).
        exists code, c. split; [reflexivity|]. split; [exact Hc | discriminate].
      * injection E as <- <-. exists [l0 :: lines]. simpl.
        split; [reflexivity|].
        split; [apply prefix_cons, prefix_nil|]. split; [discriminate|].
        intros err [= <-]. eexists _, _. split; [reflexivity|].
        split; [apply Z.eqb_neq; exact Ec | discriminate].
Qed.


Lemma phases_loop_at (meta : PackageMeta) (srcdir : path) (e : gmap string string)
    (only_build : bool) (w : World) :
  exists done,
    w_trace (run_phases meta srcdir e only_build w).1
      = w_trace w ++ map (script_event srcdir e) done
    /\ done `prefix_of` phases_to_run meta only_build
    /\ ((run_phases meta srcdir e only_build w).2 = Ok tt ->
        done = phases_to_run meta only_build).
Proof.
  unfold phases_to_run.
  destruct (run_phases meta srcdir e only_build w) as [w' r] eqn:E.
  rewrite run_phases_loop in E.
  destruct (scripts_loop srcdir e _ w w' r E) as (done & T & P & K & _).
  exists done. simpl. auto.
Qed.

(** The trace of a build: fetching, unpacking and patching, and then the
    scripts of the phases *)
Lemma build_trace (meta : PackageMeta) (work : path) (only_build : bool)
    (w w' : World) (r : result (path * path)) :
  build_ meta work only_build w = (w', r) ->
  exists srcdir pre done,
    w_trace w' =
      w_trace w ++ pre
        ++ map (script_event srcdir (build_env meta (join work "destdir"))) done
    /\ Forall fetch_event pre
    /\ done `prefix_of` phases_to_run meta only_build
    /\ (forall dirs, r = Ok dirs ->
          dirs = (srcdir, join work "destdir")
          /\ done = phases_to_run meta only_build).
Proof.
  intros E.
  assert (Hstop : forall pre,
    (forall dirs, r <> Ok dirs) ->
    w_trace w' = w_trace w ++ pre -> Forall fetch_event pre ->
    exists srcdir pre done,
      w_trace w' =
        w_trace w ++ pre
          ++ map (script_event srcdir (build_env meta (join work "destdir"))) done
      /\ Forall fetch_event pre
      /\ done `prefix_of` phases_to_run meta only_build
      /\ (forall dirs, r = Ok dirs ->
            dirs = (srcdir, join work "destdir")
            /\ done = phases_to_run meta only_build)).
  { intros pre Hr T F. exists [], pre, []. simpl. rewrite app_nil_r.
    split; [exact T|]. split; [exact F|]. split; [apply prefix_nil|].
    intros dirs Hd. destruct (Hr dirs Hd). }
  unfold build_ in E. unfold bind at 1 in E.
  destruct (download (source_to_fetch meta) work w) as [w1 [src_path|e1]] eqn:E1.
  2:{ injection E as <- <-.
      destruct (quiet_download _ _ _ _ _ E1) as (_ & evs & T & F).
      apply (Hstop evs); [discriminate | exact T|].
      eapply Forall_impl; [exact F | apply download_event_fetch]. }
  destruct (quiet_download _ _ _ _ _ E1) as (_ & evs1 & T1 & F1).
  assert (F1' : Forall fetch_event evs1)
    by (eapply Forall_impl; [exact F1 | apply download_event_fetch]).
  unfold bind at 1 in E.
  destruct (extract src_path work w1) as [w2 [srcdir|e2]] eqn:E2.
  2:{ injection E as <- <-.
      destruct (quiet_extract _ _ _ _ _ E2) as (_ & evs & T & F).
      apply (Hstop (evs1 ++ evs)); [discriminate | |apply Forall_app; auto].
      rewrite T, T1, app_assoc. reflexivity. }
  destruct (quiet_extract _ _ _ _ _ E2) as (_ & evs2 & T2 & F2).
  unfold bind at 1 in E.
  destruct (apply_patches meta srcdir (join work "patches") w2) as [w3 [[]|e3]] eqn:E3.
  2:{ injection E as <- <-.
      destruct (quiet_apply_patches _ _ _ _ _ _ E3) as (_ & evs & T & F).
      apply (Hstop (evs1 ++ evs2 ++ evs)); [discriminate | |].
      - rewrite T, T2, T1, <- !app_assoc. reflexivity.
      - repeat (apply Forall_app; split); auto. }
  destruct (quiet_apply_patches _ _ _ _ _ _ E3) as (_ & evs3 & T3 & F3).
  assert (Hpre : w_trace w3 = w_trace w ++ (evs1 ++ evs2 ++ evs3))
    by (rewrite T3, T2, T1, <- !app_assoc; reflexivity).
  assert (Fpre : Forall fetch_event (evs1 ++ evs2 ++ evs3))
    by (repeat (apply Forall_app; split); auto).
  unfold bind at 1 in E.
  destruct (mkdir (join work "destdir") w3) as [w4 [[]|e4]] eqn:E4.
  2:{ injection E as <- <-.
      apply (Hstop (evs1 ++ evs2 ++ evs3)); [discriminate | |exact Fpre].
      rewrite <- Hpre. unfold mkdir, bind, get_fs, of_option, put_fs, raise in E4.
      destruct (mkdir_p _ _); injection E4 as <-; reflexivity. }
  assert (T4 : w_trace w4 = w_trace w3).
  { unfold mkdir, bind, get_fs, of_option, put_fs, raise in E4.
    destruct (mkdir_p _ _); injection E4 as <-; reflexivity. }
  unfold bind in E.
  destruct (run_phases meta srcdir (build_env meta (join work "destdir")) only_build w4)
    as [w5 [[]|e5]] eqn:E5; unfold ret in E; injection E as <- <-.
  - destruct (phases_loop_at meta srcdir (build_env meta (join work "destdir"))
                only_build w4) as (done & T & P & K).
    rewrite E5 in T, K. simpl in T, K.
    exists srcdir, (evs1 ++ evs2 ++ evs3), done.
    split; [rewrite T, T4, Hpre, <- !app_assoc; reflexivity|].
    split; [exact Fpre|]. split; [exact P|].
    intros dirs [= <-]. split; [reflexivity | auto].
  - destruct (phases_loop_at meta srcdir (build_env meta (join work "destdir"))
                only_build w4) as (done & T & P & K).
    rewrite E5 in T. simpl in T.
    exists srcdir, (evs1 ++ evs2 ++ evs3), done.
    split; [rewrite T, T4, Hpre, <- !app_assoc; reflexivity|].
    split; [exact Fpre|]. split; [exact P|]. discriminate.
Qed.

End WithHost.

End PhaseFacts.

(** ** Stripping and packaging *)

Module PackageFacts.
Import Model FS Host Eff EffFacts SrcPkg PipelineFacts CopyFacts Vocabulary Scenarios.

Section WithHost.
Context `{Host}.

Lemma mkdir_world (d : path) (w w' : World) (r : result unit) :
  mkdir d w = (w', r) -> w_trace w' = w_trace w /\ w_db w' = w_db w.
Proof.
  unfold mkdir, bind, get_fs, of_option, put_fs, raise.
  destruct (mkdir_p _ _); intros [= <- <-]; auto.
Qed.

Lemma strip_loop (l : list path) (w : World) :
  exists w' ps,
    for_ l (fun p =>
      let* g := get_fs in
      match stat g p with
      | Some (File mode _) =>
          when (owner_exec mode || shared_object_name (name_of p))
               (run (Argv ["strip"; "--strip-unneeded"; path_str p]) None None false)
      | _ => ret tt
      end) w = (w', Ok tt)
    /\ w_db w' = w_db w
    /\ w_trace w' = w_trace w ++ map strip_event ps
    /\ sublist ps l.
Proof.
  revert w. induction l as [|p l IH]; intros w.
  - exists w, []. simpl. rewrite app_nil_r. split; [reflexivity|].
    split; [reflexivity|]. split; [reflexivity | constructor].
  - cbn [for_]. unfold bind at 1. unfold bind at 1, get_fs.
    assert (Hskip : exists w' ps,
              for_ l (fun p =>
                let* g := get_fs in
                match stat g p with
                | Some (File mode _) =>
                    when (owner_exec mode || shared_object_name (name_of p))
                         (run (Argv ["strip"; "--strip-unneeded"; path_str p])
                              None None false)
                | _ => ret tt
                end) w = (w', Ok tt)
              /\ w_db w' = w_db w
              /\ w_trace w' = w_trace w ++ map strip_event ps
              /\ sublist ps (p :: l)).
    { destruct (IH w) as (w' & ps & E & D & T & S).
      exists w', ps. split; [exact E|]. split; [exact D|]. split; [exact T|].
      constructor. exact S. }
    destruct (stat (w_fs w) p) as [[mode data| |]|]; try exact Hskip.
    destruct (owner_exec mode || shared_object_name (name_of p)); [|exact Hskip].
    simpl when. rewrite run_run. cbv zeta. simpl.
    match goal with |- context [for_ l ?b ?w1] =>
      destruct (IH w1) as (w' & ps & E & D & T & S) end.
    exists w', (p :: ps). split; [exact E|]. split; [exact D|].
    split; [rewrite T; simpl; rewrite <- app_assoc; reflexivity|].
    constructor. exact S.
Qed.

(** X14. [_strip_files] never raises and leaves the database alone.
    Without the [strip] tool it does nothing at all. With it, the only
    commands are [strip --strip-unneeded] on paths that were below the
    root of the tree when the walk started, each at most once and in the
    order of the walk; their exit codes are ignored. *)
Theorem strip_files_spec (root : path) (w : World) :
  exists w' ps,
    _strip_files root w = (w', Ok tt)
    /\ w_db w' = w_db w
    /\ w_trace w' = w_trace w ++ map strip_event ps
    /\ sublist ps (descendants (w_fs w) root)
    /\ (which "strip" = false -> w' = w).
Proof.
  unfold _strip_files. destruct (which "strip").
  - unfold bind at 1, get_fs.
    destruct (strip_loop (descendants (w_fs w) root) w) as (w' & ps & E & D & T & S).
    exists w', ps. split; [exact E|]. split; [exact D|]. split; [exact T|].
    split; [exact S | discriminate].
  - exists w, []. simpl. rewrite app_nil_r. split; [reflexivity|].
    split; [reflexivity|]. split; [reflexivity|]. split; [apply sublist_nil_l | auto].
Qed.

Lemma strip_run (root : path) (w : World) :
  exists w' ps,
    _strip_files root w = (w', Ok tt)
    /\ w_db w' = w_db w
    /\ w_trace w' = w_trace w ++ map strip_event ps.
Proof.
  unfold _strip_files. destruct (which "strip").
  - unfold bind at 1, get_fs.
    destruct (strip_loop (descendants (w_fs w) root) w) as (w' & ps & E & D & T & _).
    exists w', ps. auto.
  - exists w, []. simpl. rewrite app_nil_r. auto.
Qed.

(** The archive is there when [package] returns. *)
Lemma package_file_at (meta : PackageMeta) (destdir outdir : path)
    (w w' : World) (out : path) :
  package_ meta destdir outdir w = (w', Ok out) ->
  file_at (w_fs w') (join outdir (archive_name meta)).
Proof.
  unfold package_. intros E.
  apply bind_ok_inv in E as (w1 & [] & _ & E).
  apply bind_ok_inv in E as (w2 & [] & _ & E).
  apply bind_ok_inv in E as (w3 & f & _ & E).
  apply bind_ok_inv in E as (w4 & [] & Ew & E).
  unfold ret in E. injection E as <- _.
  apply write_file_ok in Ew. subst w4. simpl.
  eexists _, _. apply lookup_insert_eq.
Qed.

(** X15. When [package] returns, it returns the path
    [outdir/<name>-<version>-1.tar.xz] and has written there the archive
    of the staging tree as the tree was at that moment, after the
    stripping if the recipe asks for it. Unless the recipe sets
    [package.strip], no command is run: only the output directory is made
    and the archive written. The database is not touched. *)
Theorem package_writes_archive (meta : PackageMeta) (destdir outdir : path)
    (w w' : World) (out : path) :
  package_ meta destdir outdir w = (w', Ok out) ->
  out = join outdir (archive_name meta)
  /\ w_db w' = w_db w
  /\ exists f ps,
      w_fs w' = <[out := File 420 (tar_xz f destdir)]> f
      /\ w_trace w' = w_trace w ++ map strip_event ps
      /\ (default false (package meta !! "strip") = false ->
          ps = []
          /\ mkdir outdir w =
               ({| w_fs := f; w_db := w_db w; w_trace := w_trace w |}, Ok tt)).
Proof.
  unfold package_. intros E.
  apply bind_ok_inv in E as (w1 & [] & Em & E).
  apply bind_ok_inv in E as (w2 & [] & Es & E).
  apply bind_ok_inv in E as (w3 & f & Eg & E).
  apply bind_ok_inv in E as (w4 & [] & Ew & E).
  unfold ret in E. injection E as <- <-.
  unfold get_fs in Eg. injection Eg as <- <-.
  apply write_file_ok in Ew. subst w4. simpl.
  destruct (mkdir_world _ _ _ _ Em) as [T1 D1].
  split; [reflexivity|].
  destruct (default false (package meta !! "strip")) eqn:Ep; simpl when in Es.
  - destruct (strip_run destdir w1) as (w2' & ps & Es' & D2 & T2).
    rewrite Es in Es'. injection Es' as <-.
    split; [congruence|]. exists (w_fs w2), ps.
    split; [reflexivity|]. split; [congruence | discriminate].
  - unfold ret in Es. injection Es as <-.
    split; [exact D1|]. exists (w_fs w1), [].
    split; [reflexivity|]. simpl. rewrite app_nil_r. split; [exact T1|].
    intros _. split; [reflexivity|]. rewrite Em. f_equal.
    destruct w1; simpl in *. congruence.
Qed.

End WithHost.

Lemma strip_files_spec_witness :
  @_strip_files no_strip_host ["stage"] Demo.staged = (Demo.staged, Ok tt).
Proof.
  destruct (@strip_files_spec no_strip_host ["stage"] Demo.staged)
    as (w' & ps & E & _ & _ & _ & Hnone).
  rewrite E. f_equal. apply Hnone. reflexivity.
Defined.

Lemma package_writes_archive_witness :
  (@package_ Demo.root_host hello_meta ["stage"] ["pkgs"] Demo.staged).2
  = Ok ["pkgs"; "hello-1.0-1.tar.xz"].
Proof.
  set (run := @package_ Demo.root_host hello_meta ["stage"] ["pkgs"] Demo.staged).
  assert (E : exists out, run = (run.1, Ok out)).
  { eexists. apply run_result. vm_compute. reflexivity. }
  destruct E as [out E].
  destruct (@package_writes_archive Demo.root_host hello_meta ["stage"] ["pkgs"]
              Demo.staged run.1 out E) as (Ho & _).
  rewrite E. simpl. rewrite Ho. reflexivity.
Defined.

End PackageFacts.

(** ** Builds that do not install *)

Module BuildOnlyFacts.
Import Model FS Host Eff EffFacts SrcPkg PipelineFacts UpgradeFacts CopyFacts.
Import PackageFacts PhaseFacts Vocabulary Scenarios.

Section WithHost.
Context `{Host}.

(** X16. [build_only] fetches, unpacks and patches the source and then
    runs the prepare and compile scripts, never the install script;
    [package_only] runs the install script as well, with [DESTDIR] in its
    environment, and then writes the archive of the staging directory. Both
    leave the database as it is and copy nothing onto the live root,
    whoever runs them. *)
Theorem build_without_install (meta : PackageMeta) (work : path) (w : World) :
  let e := build_env meta (join work "destdir") in
  (exists srcdir pre done,
      w_trace (build_only meta work w).1 =
        w_trace w ++ pre ++ map (script_event srcdir e) done
      /\ Forall fetch_event pre
      /\ done `prefix_of` phases_to_run meta true
      /\ ((build_only meta work w).2 = Ok tt -> done = phases_to_run meta true))
  /\ w_db (build_only meta work w).1 = w_db w
  /\ (exists srcdir pre done post,
        w_trace (package_only meta work w).1 =
          w_trace w ++ pre ++ map (script_event srcdir e) done ++ post
        /\ Forall fetch_event pre
        /\ done `prefix_of` phases_to_run meta false
        /\ Forall is_run post
        /\ ((package_only meta work w).2 = Ok tt ->
            done = phases_to_run meta false
            /\ file_at (w_fs (package_only meta work w).1)
                       (join SRCPKG_PKGS (archive_name meta))))
  /\ w_db (package_only meta work w).1 = w_db w.
Proof.
  intros e. split; [|split; [|split]].
  - unfold build_only, bind.
    destruct (build_ meta work true w) as [w1 [dirs|err]] eqn:E;
      destruct (build_trace _ _ _ _ _ _ E) as (srcdir & pre & done & T & F & P & K);
      exists srcdir, pre, done; simpl.
    + split; [exact T|]. split; [exact F|]. split; [exact P|].
      intros _. apply (K dirs). reflexivity.
    + split; [exact T|]. split; [exact F|]. split; [exact P | discriminate].
  - unfold build_only, bind.
    destruct (build_ meta work true w) as [w1 [dirs|err]] eqn:E;
      apply quiet_build in E as [D _]; exact D.
  - unfold package_only, bind.
    destruct (build_ meta work false w) as [w1 [dirs|err]] eqn:E;
      destruct (build_trace _ _ _ _ _ _ E) as (srcdir & pre & done & T & F & P & K).
    + destruct (K dirs eq_refl) as [-> ->]. cbn [snd].
      destruct (package_ meta (join work "destdir") SRCPKG_PKGS w1)
        as [w2 [out|err]] eqn:Ep;
        destruct (quiet_package _ _ _ _ _ _ Ep) as (_ & post & T2 & F2);
        exists srcdir, pre, (phases_to_run meta false), post; simpl.
      * split; [rewrite T2, T, <- !app_assoc; reflexivity|].
        split; [exact F|]. split; [reflexivity|]. split; [exact F2|].
        intros _. split; [reflexivity|].
        eapply package_file_at. exact Ep.
      * split; [rewrite T2, T, <- !app_assoc; reflexivity|].
        split; [exact F|]. split; [reflexivity|]. split; [exact F2 | discriminate].
    + exists srcdir, pre, done, []. simpl. rewrite app_nil_r.
      split; [exact T|]. split; [exact F|]. split; [exact P|].
      split; [constructor | discriminate].
  - unfold package_only, bind.
    destruct (build_ meta work false w) as [w1 [dirs|err]] eqn:E;
      apply quiet_build in E as [D _]; [|exact D].
    destruct (package_ meta dirs.2 SRCPKG_PKGS w1) as [w2 [out|err]] eqn:Ep;
      apply quiet_package in Ep as [D2 _]; simpl; congruence.
Qed.

End WithHost.

End BuildOnlyFacts.

(** ** Fetching and unpacking: the edges *)

Module FetchFacts.
Import Model FS Host Eff EffFacts SrcPkg PipelineFacts ChecksumGate PackageFacts.
Import Vocabulary Scenarios.

(** Creating directories writes on the way to the directory only. *)
Lemma mkdir_from_other (todo done : path) (f f' : fs) (p : path) :
  mkdir_from f done todo = Some f' -> ~ p `prefix_of` (done ++ todo) ->
  f' !! p = f !! p.
Proof.
  revert done f. induction todo as [|c rest IH]; intros done f E Hp; simpl in E.
  - injection E as <-. reflexivity.
  - assert (Hp' : ~ p `prefix_of` ((done ++ [c]) ++ rest))
      by (rewrite <- app_assoc; exact Hp).
    destruct (stat f (done ++ [c])) as [[| |]|]; try discriminate.
    + eapply IH; eauto.
    + rewrite (IH _ _ E Hp'). apply lookup_insert_ne.
      intros <-. apply Hp. exists rest. rewrite <- app_assoc. reflexivity.
Qed.

Lemma rmtree_below (f : fs) (d p : path) : d `prefix_of` p -> rmtree f d !! p = None.
Proof.
  intros Hp. unfold rmtree. apply map_lookup_filter_None. right.
  intros x _. simpl. unfold under. rewrite bool_decide_eq_true_2 by exact Hp.
  discriminate.
Qed.

Lemma strict_prefix_not_prefix (d p : path) : d `prefix_of` p -> p <> d -> ~ p `prefix_of` d.
Proof.
  intros [k ->] Hne [k' Hk]. apply Hne.
  rewrite <- app_assoc in Hk. rewrite <- (app_nil_r d) in Hk at 1.
  apply app_inv_head in Hk. symmetry in Hk. apply app_eq_nil in Hk as [-> _].
  apply app_nil_r.
Qed.

Section WithHost.
Context `{Host}.

(** X17. An archive whose name has none of the known suffixes is refused,
    but only after the old source tree was deleted: [extract] raises,
    nothing is unpacked and no command is run, and what was below
    [work/src] is gone. *)
Theorem extract_unknown_format (archive workdir : path) (w : World) :
  is_dir (w_fs w) archive = false ->
  endswith_any (name_of archive) (tar_suffixes ++ [".zip"; ".7z"; ".7zip"]) = false ->
  let dest := join workdir "src" in
  exists w' e,
    extract archive workdir w = (w', Raise e)
    /\ (e = UnsupportedArchive (name_of archive) \/ e = OSError dest)
    /\ w_trace w' = w_trace w /\ w_db w' = w_db w
    /\ (exists_ (w_fs w) dest = true ->
        forall p, dest `prefix_of` p -> p <> dest -> w_fs w' !! p = None).
Proof.
  intros Hdir Hsuf dest.
  unfold endswith_any in Hsuf. rewrite existsb_app in Hsuf.
  apply orb_false_elim in Hsuf as [Htar Hrest]. simpl in Hrest.
  apply orb_false_elim in Hrest as [Hzip H7].
  unfold extract. unfold bind at 1, get_fs. rewrite Hdir. fold dest.
  unfold endswith_any. rewrite Htar, Hzip. simpl existsb. rewrite H7.
  unfold bind at 1.
  set (w0 := (when (exists_ (w_fs w) dest) (put_fs (rmtree (w_fs w) dest)) w).1).
  assert (E0 : when (exists_ (w_fs w) dest) (put_fs (rmtree (w_fs w) dest)) w
               = (w0, Ok tt)).
  { subst w0. destruct (exists_ (w_fs w) dest); reflexivity. }
  rewrite E0.
  assert (H0 : w_trace w0 = w_trace w /\ w_db w0 = w_db w
               /\ (exists_ (w_fs w) dest = true ->
                   forall p, dest `prefix_of` p -> w_fs w0 !! p = None)).
  { subst w0. destruct (exists_ (w_fs w) dest); simpl.
    - split; [reflexivity|]. split; [reflexivity|]. intros _ p Hp.
      apply rmtree_below. exact Hp.
    - split; [reflexivity|]. split; [reflexivity | discriminate]. }
  destruct H0 as (T0 & D0 & C0). clearbody w0.
  unfold bind at 1.
  destruct (mkdir dest w0) as [w1 [[]|e]] eqn:Em.
  - destruct (mkdir_world _ _ _ _ Em) as [T1 D1].
    unfold bind, raise. exists w1, (UnsupportedArchive (name_of archive)).
    split; [reflexivity|]. split; [left; reflexivity|].
    split; [congruence|]. split; [congruence|].
    intros Hex p Hp Hne.
    unfold mkdir, bind, get_fs, of_option, put_fs in Em.
    destruct (mkdir_p (w_fs w0) dest) as [f'|] eqn:Ep; [|discriminate].
    injection Em as <-. simpl.
    rewrite (mkdir_from_other dest [] (w_fs w0) f' p Ep).
    + apply C0; assumption.
    + simpl. apply strict_prefix_not_prefix; assumption.
  - destruct (mkdir_world _ _ _ _ Em) as [T1 D1].
    exists w1, e. split; [reflexivity|].
    assert (w1 = w0 /\ e = OSError dest) as [-> ->].
    { unfold mkdir, bind, get_fs, of_option, put_fs, raise in Em.
      destruct (mkdir_p _ _); [discriminate|]. injection Em as <- <-. auto. }
    split; [right; reflexivity|]. split; [exact T0|]. split; [exact D0|].
    intros Hex p Hp _. apply C0; assumption.
Qed.

(** An archive download, after the work directory is made *)
Lemma download_archive_at (src : SourceSpec) (workdir : path) (u : string)
    (w w1 : World) :
  type src <> "git" -> url src = Some u -> u <> "" ->
  mkdir workdir w = (w1, Ok tt) ->
  let out := join SRCPKG_SRC (Py.last_segment u) in
  download src workdir w =
    (fetch_to_cache u out;; verify_sha256 (sha256 src) out;; ret out) w1.
Proof.
  intros Hty Hurl Hne Emk out. apply String.eqb_neq in Hty.
  unfold download. rewrite Hty, Hurl. destruct u as [|c u]; [congruence|].
  unfold bind at 1. rewrite Emk. reflexivity.
Qed.

Lemma cache_hit (src : SourceSpec) (u : string) (out : path) (w1 : World) :
  exists_ (w_fs w1) out = true ->
  (fetch_to_cache u out;; verify_sha256 (sha256 src) out;; ret out) w1 =
    if Py.truthy (sha256 src)
    then (with_event w1 (EvSha256 out),
          match read_bytes (w_fs w1) out with
          | Some data =>
              if bool_decide (Some (sha256_hex data) = sha256 src) then Ok out
              else Raise (ChecksumMismatch (sha256_hex data))
          | None => Raise (OSError out)
          end)
    else (w1, Ok out).
Proof.
  intros Hex. unfold fetch_to_cache, verify_sha256.
  unfold bind at 1. unfold bind at 1, get_fs. cbv beta iota. rewrite Hex.
  unfold ret at 1. destruct (Py.truthy (sha256 src)); [|reflexivity].
  unfold bind at 1. unfold bind at 1.
  rewrite compute_sha256_run.
  destruct (read_bytes (w_fs w1) out) as [data|]; [|reflexivity].
  destruct (bool_decide _); reflexivity.
Qed.


Lemma contains_slash_app (s : string) : Py.contains "/" (s +:+ "/") = true.
Proof.
  induction s as [|c s IH]; [reflexivity|].
  change (String c s +:+ "/") with (String c (s +:+ "/")).
  cbn [Py.contains]. rewrite IH. apply orb_true_r.
Qed.

Lemma last_segment_slash (s : string) : Py.last_segment (s +:+ "/") = "".
Proof.
  induction s as [|c s IH]; [reflexivity|].
  change (String c s +:+ "/") with (String c (s +:+ "/")).
  cbn [Py.last_segment]. rewrite contains_slash_app. exact IH.
Qed.

(** X19. A URL that ends in ["/"] names no file: its last segment is
    empty and the cache path is the sources directory itself. Nothing is
    downloaded. Without a declared digest the download returns the
    sources directory, which [extract] returns as the source root, so that
    the build runs in the sources cache; with a declared digest the
    download raises, since a directory cannot be read. *)
Theorem url_ending_in_slash (src : SourceSpec) (work : path) (u : string)
    (w w1 : World) :
  type src <> "git" -> url src = Some (u +:+ "/") ->
  mkdir work w = (w1, Ok tt) -> is_dir (w_fs w1) SRCPKG_SRC = true ->
  (Py.truthy (sha256 src) = false ->
     download src work w = (w1, Ok SRCPKG_SRC)
     /\ extract SRCPKG_SRC work w1 = (w1, Ok SRCPKG_SRC))
  /\ (Py.truthy (sha256 src) = true ->
      download src work w =
        (with_event w1 (EvSha256 SRCPKG_SRC), Raise (OSError SRCPKG_SRC))).
Proof.
  intros Hty Hurl Emk Hdir.
  assert (Hne : u +:+ "/" <> "") by (destruct u; discriminate).
  rewrite (download_archive_at src work _ w w1 Hty Hurl Hne Emk).
  rewrite last_segment_slash. simpl join.
  assert (Hex : exists_ (w_fs w1) SRCPKG_SRC = true).
  { unfold exists_. apply bool_decide_eq_true. unfold is_dir in Hdir.
    destruct (stat (w_fs w1) SRCPKG_SRC); [eauto | discriminate]. }
  rewrite cache_hit by exact Hex. split; intros Hsha; rewrite Hsha.
  - split; [reflexivity|]. apply ExtractFacts.extract_directory. exact Hdir.
  - unfold read_bytes. unfold is_dir in Hdir.
    destruct (stat (w_fs w1) SRCPKG_SRC) as [[| |]|]; try discriminate. reflexivity.
Qed.

End WithHost.

Lemma extract_unknown_format_witness :
  (@extract Demo.root_host ["srcpkg"; "sources"; "hello.rar"] ["w"] stale_world).2
  = Raise (UnsupportedArchive "hello.rar")
  /\ w_fs (@extract Demo.root_host ["srcpkg"; "sources"; "hello.rar"] ["w"]
             stale_world).1 !! ["w"; "src"; "old.c"] = None.
Proof.
  destruct (@extract_unknown_format Demo.root_host ["srcpkg"; "sources"; "hello.rar"]
              ["w"] stale_world) as (w' & e & E & _ & _ & _ & Hclear);
    [vm_compute; reflexivity | vm_compute; reflexivity |].
  split; [vm_compute; reflexivity|].
  rewrite E. simpl. apply Hclear; [vm_compute; reflexivity | | discriminate].
  exists ["old.c"]. reflexivity.
Defined.

Lemma url_ending_in_slash_witness :
  @download Demo.root_host
    {| url := Some "https://example.org/dist/"; sha256 := None; type := "archive" |}
    ["w"] Demo.world0
  = ((mkdir ["w"] Demo.world0).1, Ok ["srcpkg"; "sources"]).
Proof.
  destruct (@url_ending_in_slash Demo.root_host
              {| url := Some "https://example.org/dist/"; sha256 := None;
                 type := "archive" |}
              ["w"] "https://example.org/dist" Demo.world0 (mkdir ["w"] Demo.world0).1)
    as [Hplain _];
    [discriminate | reflexivity | reflexivity | vm_compute; reflexivity |].
  destruct Hplain as [Hd _]; [reflexivity | exact Hd].
Defined.


End FetchFacts.

(** ** Synchronising the repository *)

Module SyncFacts.
Import Model FS Host Eff EffFacts SrcPkg PipelineFacts PackageFacts Vocabulary Scenarios.

Lemma stat_depth_insert_dir (n : nat) (f : fs) (d p : path) :
  stat_depth n f p = Some Dir -> stat_depth n (<[d := Dir]> f) p = Some Dir.
Proof.
  revert p. induction n as [|n IH]; intros p; destruct p as [|c p']; simpl; auto.
  - destruct (decide (d = c :: p')) as [->|Hne].
    + rewrite lookup_insert_eq. reflexivity.
    + rewrite lookup_insert_ne by exact Hne. auto.
  - destruct (decide (d = c :: p')) as [->|Hne].
    + rewrite lookup_insert_eq. reflexivity.
    + rewrite lookup_insert_ne by exact Hne.
      destruct (f !! (c :: p')) as [[| |t]|]; auto.
Qed.

Lemma stat_insert_self (f : fs) (d : path) : stat (<[d := Dir]> f) d = Some Dir.
Proof.
  unfold stat. destruct d as [|c d']; simpl; [reflexivity|].
  rewrite lookup_insert_eq. reflexivity.
Qed.

(** Directories stay directories when directories are created. *)
Lemma mkdir_from_keeps_dir (todo done : path) (f f' : fs) (p : path) :
  mkdir_from f done todo = Some f' -> stat f p = Some Dir -> stat f' p = Some Dir.
Proof.
  revert done f. induction todo as [|c rest IH]; intros done f E Hp; simpl in E.
  - injection E as <-. exact Hp.
  - destruct (stat f (done ++ [c])) as [[| |]|]; try discriminate.
    + eapply IH; eauto.
    + eapply IH; [exact E|]. apply stat_depth_insert_dir. exact Hp.
Qed.

(** The directory asked for is a directory in the end. *)
Lemma mkdir_from_is_dir (todo done : path) (f f' : fs) :
  mkdir_from f done todo = Some f' -> stat f done = Some Dir ->
  stat f' (done ++ todo) = Some Dir.
Proof.
  revert done f. induction todo as [|c rest IH]; intros done f E Hd; simpl in E.
  - injection E as <-. rewrite app_nil_r. exact Hd.
  - replace (done ++ c :: rest) with ((done ++ [c]) ++ rest)
      by (rewrite <- app_assoc; reflexivity).
    destruct (stat f (done ++ [c])) as [[| |]|] eqn:Es; try discriminate.
    + eapply IH; eauto.
    + eapply IH; [exact E|]. apply stat_insert_self.
Qed.

Section WithHost.
Context `{Host}.

Lemma mkdir_is_dir (d : path) (w w' : World) :
  mkdir d w = (w', Ok tt) ->
  is_dir (w_fs w') d = true
  /\ forall p, is_dir (w_fs w) p = true -> is_dir (w_fs w') p = true.
Proof.
  unfold mkdir, bind, get_fs, of_option, put_fs.
  destruct (mkdir_p (w_fs w) d) as [f'|] eqn:E; [|discriminate].
  intros [= <-]. simpl. unfold is_dir. split.
  - pose proof (mkdir_from_is_dir d [] _ _ E eq_refl) as Hd. simpl in Hd.
    rewrite Hd. reflexivity.
  - intros p Hp. destruct (stat (w_fs w) p) as [[| |]|] eqn:Es; try discriminate.
    rewrite (mkdir_from_keeps_dir d [] _ _ p E Es). reflexivity.
Qed.

Lemma mkdirs_are_dirs (l : list path) (w w' : World) :
  for_ l mkdir w = (w', Ok tt) ->
  Forall (fun d => is_dir (w_fs w') d = true) l
  /\ (forall p, is_dir (w_fs w) p = true -> is_dir (w_fs w') p = true)
  /\ w_trace w' = w_trace w /\ w_db w' = w_db w.
Proof.
  revert w. induction l as [|d l IH]; intros w E.
  - simpl in E. unfold ret in E. injection E as <-. auto.
  - simpl in E. apply bind_ok_inv in E as (w1 & [] & Em & E).
    destruct (IH _ E) as (F & K & T & D).
    destruct (mkdir_is_dir _ _ _ Em) as [Hd Hk].
    destruct (mkdir_world _ _ _ _ Em) as [T1 D1].
    split; [constructor; [apply K; exact Hd | exact F]|].
    split; [intros p Hp; apply K, Hk, Hp|].
    split; [rewrite T; exact T1 | rewrite D; exact D1].
Qed.

(** X20. [sync_repo] first makes the four category directories of the
    repository; when that fails nothing else happens. After it they all
    are directories. Then, when git is there and the repository has a
    [.git], it pulls and then pushes, whatever the pull exited with, and
    returns whatever the push exited with; otherwise it only warns. No
    command other than these two is run and the database is not touched. *)
Theorem sync_repo_spec (repo : path) (w w1 : World) :
  (forall e, for_ (repo_subdirs repo) mkdir w = (w1, Raise e) ->
     sync_repo repo w = (w1, Raise e) /\ w_trace w1 = w_trace w)
  /\ (for_ (repo_subdirs repo) mkdir w = (w1, Ok tt) ->
      Forall (fun d => is_dir (w_fs w1) d = true) (repo_subdirs repo)
      /\ (which "git" && exists_ (w_fs w1) (join repo ".git") = true ->
          sync_repo repo w =
            ({| w_fs := (exec (git_push repo) (exec (git_pull repo) (w_fs w1)).1).1;
                w_db := w_db w;
                w_trace := w_trace w ++ [EvRun (git_pull repo); EvRun (git_push repo)] |},
             Ok tt))
      /\ (which "git" && exists_ (w_fs w1) (join repo ".git") = false ->
          sync_repo repo w =
            ({| w_fs := w_fs w1; w_db := w_db w;
                w_trace := w_trace w ++ [EvWarn (path_str repo)] |}, Ok tt))).
Proof.
  split.
  - intros e E. unfold sync_repo, bind. rewrite E. split; [reflexivity|].
    assert (Q : quiet (fun _ => False) (for_ (repo_subdirs repo) mkdir))
      by (apply quiet_for; intros d; apply quiet_mkdir).
    destruct (Q _ _ _ E) as (_ & evs & T & F).
    destruct evs as [|ev evs]; [rewrite app_nil_r in T; exact T|].
    apply Forall_cons in F as [[] _].
  - intros E. destruct (mkdirs_are_dirs _ _ _ E) as (F & _ & T & D).
    split; [exact F|].
    assert (Hs : sync_repo repo w =
              (if which "git" && exists_ (w_fs w1) (join repo ".git")
               then run (Argv ["git"; "-C"; path_str repo; "pull"; "--rebase"])
                        None None false;;
                    run (Argv ["git"; "-C"; path_str repo; "push"]) None None false
               else emit (EvWarn (path_str repo))) w1).
    { unfold sync_repo. unfold bind at 1. rewrite E. reflexivity. }
    rewrite Hs. split; intros Hc; rewrite Hc.
    + unfold bind. rewrite run_run. cbv zeta. simpl andb. cbv iota.
      rewrite run_run. simpl. unfold git_pull, git_push. rewrite T, D.
      rewrite <- app_assoc. reflexivity.
    + unfold emit. rewrite T, D. reflexivity.
Qed.

End WithHost.

Lemma sync_repo_spec_witness :
  (@sync_repo Demo.root_host ["repo"] Demo.world0).2 = Ok tt
  /\ w_trace (@sync_repo Demo.root_host ["repo"] Demo.world0).1 = [EvWarn "/repo"].
Proof.
  set (w1 := (for_ (repo_subdirs ["repo"]) mkdir Demo.world0).1).
  assert (E : for_ (repo_subdirs ["repo"]) mkdir Demo.world0 = (w1, Ok tt))
    by (apply run_result; vm_compute; reflexivity).
  destruct (@sync_repo_spec Demo.root_host ["repo"] Demo.world0 w1) as [_ Hok].
  destruct (Hok E) as (_ & _ & Hwarn).
  rewrite Hwarn by (vm_compute; reflexivity). split; reflexivity.
Defined.

End SyncFacts.

(** ** Values that expansion leaves alone *)

Module ExpandFacts.
Import Model FS Host Eff EffFacts SrcPkg PipelineFacts Env Vocabulary Scenarios.

Lemma contains_dollar_cons (c : ascii) (rest : string) :
  Py.contains "$" (String c rest) = false ->
  Ascii.eqb c "$" = false /\ Py.contains "$" rest = false.
Proof.
  cbn [Py.contains]. intros Hc. apply orb_false_elim in Hc as [Hp Hr].
  split; [|exact Hr]. simpl in Hp.
  destruct (ascii_dec "$" c) as [<-|Hne].
  - destruct rest; discriminate.
  - apply Ascii.eqb_neq. congruence.
Qed.

Lemma expand_no_dollar (vars : gmap string string) (s : string) :
  Py.contains "$" s = false -> expand vars Scan s = s.
Proof.
  induction s as [|c rest IH]; intros Hc; [reflexivity|].
  apply contains_dollar_cons in Hc as [Hd Hr].
  simpl. rewrite Hd, IH by exact Hr. reflexivity.
Qed.

Lemma expand_unset (s : string) (m : mode) :
  (forall n, m <> Drop n) -> expand ∅ m s = s.
Proof.
  revert m. induction s as [|c rest IH]; intros m Hm; [reflexivity|].
  assert (Hscan : (if Ascii.eqb c "$"
                   then match parse_ref rest with
                        | Some (name, n) =>
                            match (∅ : gmap string string) !! name with
                            | Some value => value +:+ expand ∅ (Drop n) rest
                            | None => String c (expand ∅ (Keep n) rest)
                            end
                        | None => String c (expand ∅ Scan rest)
                        end
                   else String c (expand ∅ Scan rest)) = String c rest).
  { destruct (Ascii.eqb c "$"); [|rewrite IH by discriminate; reflexivity].
    destruct (parse_ref rest) as [[name n]|]; [|rewrite IH by discriminate; reflexivity].
    rewrite lookup_empty, IH by discriminate. reflexivity. }
  destruct m as [|[|n]|[|n]]; simpl; try exact Hscan.
  - destruct (Hm (S n)). reflexivity.
  - rewrite IH by discriminate. reflexivity.
Qed.

Section WithHost.
Context `{Host}.

(** X21. The environment of a build has exactly the variables of the
    process environment, of the recipe and [DESTDIR]. A value without a
    ["$"] is passed as it is: that of [DESTDIR], which a recipe cannot
    override, is the staging directory, and a value of the recipe is kept
    unless its name is [DESTDIR]. When the process environment is empty no
    value is changed, since only variables of the process environment are
    expanded. *)
Theorem plain_values_pass_unchanged (meta : PackageMeta) (destdir : path) :
  dom (build_env meta destdir) = {[ "DESTDIR" ]} ∪ dom (env (build meta)) ∪ dom environ
  /\ (Py.contains "$" (path_str destdir) = false ->
      build_env meta destdir !! "DESTDIR" = Some (path_str destdir))
  /\ (forall k v, k <> "DESTDIR" -> env (build meta) !! k = Some v ->
        Py.contains "$" v = false -> build_env meta destdir !! k = Some v)
  /\ (forall e extra, _expand_env ∅ e extra = extra ∪ e).
Proof.
  split; [|split; [|split]].
  - unfold build_env, _expand_env. rewrite dom_fmap_L, !dom_union_L, dom_singleton_L.
    set_solver.
  - intros Hc. unfold build_env. rewrite EnvFacts.lookup_expand_env.
    rewrite lookup_singleton_eq. simpl. unfold expandvars.
    rewrite expand_no_dollar by exact Hc. reflexivity.
  - intros k v Hk Hv Hc. unfold build_env. rewrite EnvFacts.lookup_expand_env.
    rewrite lookup_singleton_ne by congruence. rewrite Hv. simpl. unfold expandvars.
    rewrite expand_no_dollar by exact Hc. reflexivity.
  - intros e extra. unfold _expand_env. rewrite map_union_empty.
    apply map_eq. intros k. rewrite lookup_fmap.
    destruct ((extra ∪ e) !! k) as [v|]; [|reflexivity].
    simpl. unfold expandvars. rewrite expand_unset by discriminate. reflexivity.
Qed.

End WithHost.

Lemma plain_values_pass_unchanged_witness :
  @build_env Demo.root_host hello_meta ["w"; "destdir"] !! "DESTDIR" = Some "/w/destdir".
Proof.
  destruct (@plain_values_pass_unchanged Demo.root_host hello_meta ["w"; "destdir"])
    as (_ & Hdest & _).
  apply Hdest. vm_compute. reflexivity.
Defined.

End ExpandFacts.

(** ** How the operations compose *)

Module ComposeFacts.
Import Model FS Host Eff EffFacts SrcPkg PipelineFacts InstallFacts UpgradeFacts.
Import RemoveFacts ResolveFacts Vocabulary Scenarios.

Section WithHost.
Context `{Host}.



Lemma deps_installed_loop (resolve : PackageMeta -> gset string -> M (gset string))
    (l : list string) (v : gset string) (w : World) :
  (forall d, d ∈ l -> is_Some (w_db w !! d)) ->
  fold_m l v (dep_step resolve) w = (w, Ok v).
Proof.
  induction l as [|d l IH]; intros Hl; [reflexivity|].
  simpl. unfold bind. rewrite dep_step_installed by (apply Hl; left).
  apply IH. intros d' Hd'. apply Hl. right. exact Hd'.
Qed.

(** X23. When every dependency named by the recipe is installed, the
    resolver returns at once and changes nothing, whatever recipes there
    are: none is needed. The install then is that of the target alone, the
    result of [install_from_meta], also for a recipe that names itself or
    a dependency without a recipe. *)
Theorem installed_dependencies_are_skipped (depth : nat) (meta : PackageMeta)
    (w : World) :
  (forall d, d ∈ dependencies meta -> is_Some (w_db w !! d)) ->
  _resolve_deps_install_first (S depth) meta ∅ w = (w, Ok {[ name meta ]})
  /\ cmd_install (S depth) meta w = install_from_meta meta w.
Proof.
  intros Hd.
  assert (E : _resolve_deps_install_first (S depth) meta ∅ w = (w, Ok {[ name meta ]})).
  { simpl. destruct (decide (name meta ∈ (∅ : gset string))) as [Hin|_]; [set_solver|].
    rewrite deps_installed_loop by exact Hd. f_equal. f_equal. set_solver. }
  split; [exact E|]. unfold cmd_install, bind. rewrite E. reflexivity.
Qed.

End WithHost.


Lemma installed_dependencies_are_skipped_witness :
  @cmd_install Demo.root_host 1 (Demo.meta_of "tool" "1.0" ["pkg"]) pkg_1_2
  = @install_from_meta Demo.root_host (Demo.meta_of "tool" "1.0" ["pkg"]) pkg_1_2.
Proof.
  apply (@installed_dependencies_are_skipped Demo.root_host 0
           (Demo.meta_of "tool" "1.0" ["pkg"]) pkg_1_2).
  intros d Hd. apply list_elem_of_singleton in Hd as ->.
  vm_compute. eexists. reflexivity.
Defined.

End ComposeFacts.

(** ** What [extract] returns *)

Module SourceRootFacts.
Import Model FS Host Eff EffFacts SrcPkg PipelineFacts HookFacts Vocabulary Scenarios.

Lemma is_dir_lookup (f : fs) (p : path) : lookup_node f p = Some Dir -> is_dir f p = true.
Proof.
  intros E. unfold is_dir, stat. destruct p; simpl in *; rewrite ?E; reflexivity.
Qed.

Section WithHost.
Context `{Host}.

(** X24. What [extract] returns is a directory: the directory it was
    given, with nothing done, or else [work/src] or an entry of
    [work/src], as they are when the unpacking has ended. *)
Theorem extract_returns_directory (archive workdir : path) (w w' : World) (r : path) :
  extract archive workdir w = (w', Ok r) ->
  is_dir (w_fs w') r = true
  /\ (is_dir (w_fs w) archive = true -> r = archive /\ w' = w)
  /\ (is_dir (w_fs w) archive = false ->
      r = join workdir "src" \/ (r <> [] /\ parent r = join workdir "src")).
Proof.
  intros E. unfold extract in E.
  apply bind_ok_inv in E as (w0 & f & [= <- <-] & E).
  destruct (is_dir (w_fs w) archive) eqn:Hdir.
  - unfold ret in E. injection E as <- <-.
    split; [exact Hdir|]. split; [auto | discriminate].
  - set (dest := join workdir "src") in *.
    apply bind_ok_inv in E as (w1 & [] & _ & E).
    apply bind_ok_inv in E as (w2 & [] & _ & E).
    apply bind_ok_inv in E as (w3 & [] & _ & E).
    apply bind_ok_inv in E as (w4 & f' & [= <- <-] & E).
    apply bind_ok_inv in E as (w5 & entries & Hit & E).
    unfold of_option in Hit.
    destruct (iterdir (w_fs w3) dest) as [l|] eqn:El; [|discriminate].
    unfold ret in Hit. injection Hit as <- <-.
    assert (Hdest : is_dir (w_fs w3) dest = true).
    { apply is_dir_lookup. unfold iterdir in El.
      destruct (lookup_node (w_fs w3) dest) as [[| |]|]; try discriminate. reflexivity. }
    assert (Hl : l = children (w_fs w3) dest).
    { unfold iterdir in El.
      destruct (lookup_node (w_fs w3) dest) as [[| |]|]; try discriminate.
      injection El as <-. reflexivity. }
    assert (Hr : w' = w3 /\ r = source_root (w_fs w3) dest l).
    { unfold source_root. destruct l as [|e [|e' rest]];
        [|destruct (is_dir (w_fs w3) e)|]; unfold ret in E; simplify_eq; auto. }
    destruct Hr as [-> ->]. unfold source_root.
    destruct l as [|e [|e' rest]]; try (split; [exact Hdest|]; split; [discriminate | auto]).
    destruct (is_dir (w_fs w3) e) eqn:He;
      [|split; [exact Hdest|]; split; [discriminate | auto]].
    split; [exact He|]. split; [discriminate|]. intros _. right.
    pose proof (children_are_children (w_fs w3) dest) as Hc.
    rewrite <- Hl in Hc. apply Forall_cons in Hc as [(Hn & Hp & _) _]. auto.
Qed.

End WithHost.

Lemma extract_returns_directory_witness :
  is_dir (w_fs (@extract Demo.root_host hello_zip ["w"] Demo.world0).1)
         ["w"; "src"; "pkg-1.0"] = true.
Proof.
  set (run := @extract Demo.root_host hello_zip ["w"] Demo.world0).
  assert (E : run = (run.1, Ok ["w"; "src"; "pkg-1.0"]))
    by (apply run_result; vm_compute; reflexivity).
  destruct (@extract_returns_directory Demo.root_host hello_zip ["w"] Demo.world0
              run.1 ["w"; "src"; "pkg-1.0"] E) as [Hd _].
  exact Hd.
Defined.

End SourceRootFacts.
